(** * Egress: configuration resolution, bus-message handling and handler start-up

  A shallow embedding of the parts of the egress service that decide its
  validation and error-handling behaviour:

  - [pkg/config]: filename templating ([stringReplace], [clean],
    [updateFilepath]), stream outputs ([getStreamConfig], [ValidateUrl]),
    codec resolution ([validateAndUpdateOutputCodecs]) and request
    validation ([Update]);
  - [pkg/pipeline/watch.go]: the bus-message dispatch ([messageWatch]) and
    its handlers;
  - [pkg/service/handler.go]: [NewHandler].

  Go strings are byte sequences; they are modelled by [string] (a list of
  8-bit characters).  Go maps whose iteration order can be observed are
  modelled by the list of entries in the order in which [range] visits
  them; every statement quantifies over that order. *)

From Stdlib Require Import ZArith Ascii String DecimalString PrimFloat.
From stdpp Require Import base option list strings gmap.

Local Open Scope Z_scope.

(* ===================================================================== *)
(** ** The Go runtime functions the code calls *)
(* ===================================================================== *)

(** Package [strings] and [unicode/utf8]. *)
Module GoStrings.

Definition byteOf (c : ascii) : N := N_of_ascii c.

(** [s[n:]] and [s[:n]] for [0 <= n]; both saturate at [len(s)]. *)
Fixpoint sliceFrom (n : nat) (s : string) {struct n} : string :=
  match n, s with
  | O, _ => s
  | S _, EmptyString => EmptyString
  | S n', String _ s' => sliceFrom n' s'
  end.

Fixpoint sliceTo (n : nat) (s : string) {struct n} : string :=
  match n, s with
  | O, _ => EmptyString
  | S _, EmptyString => EmptyString
  | S n', String c s' => String c (sliceTo n' s')
  end.

(** [strings.HasPrefix(s, prefix)]. *)
Fixpoint HasPrefix (s prefix : string) {struct prefix} : bool :=
  match prefix, s with
  | EmptyString, _ => true
  | String _ _, EmptyString => false
  | String p prefix', String c s' =>
      if Ascii.eqb c p then HasPrefix s' prefix' else false
  end.

(** [strings.HasSuffix(s, suffix)]:
    [len(s) >= len(suffix) && s[len(s)-len(suffix):] == suffix]. *)
Definition HasSuffix (s suffix : string) : bool :=
  (String.length suffix <=? String.length s)%nat
  && String.eqb (sliceFrom (String.length s - String.length suffix) s) suffix.

(** [strings.Index]: position of the first occurrence, [-1] if none. *)
Fixpoint indexOf (s sub : string) : option nat :=
  if HasPrefix s sub then Some O
  else match s with
       | EmptyString => None
       | String _ s' => S <$> indexOf s' sub
       end.

Definition Index (s sub : string) : Z :=
  match indexOf s sub with Some i => Z.of_nat i | None => -1 end.

(** [strings.LastIndex]: position of the last occurrence, [-1] if none. *)
Fixpoint lastIndexOf (s sub : string) : option nat :=
  match s with
  | EmptyString => if HasPrefix s sub then Some O else None
  | String _ s' =>
      match lastIndexOf s' sub with
      | Some i => Some (S i)
      | None => if HasPrefix s sub then Some O else None
      end
  end.

Definition LastIndex (s sub : string) : Z :=
  match lastIndexOf s sub with Some i => Z.of_nat i | None => -1 end.

(** [strings.Contains(s, sub)] is [Index(s, sub) >= 0]. *)
Definition Contains (s sub : string) : bool := 0 <=? Index s sub.

(** Width in bytes of the first UTF-8 sequence of a non-empty string
    ([utf8.DecodeRuneInString]): an invalid or truncated sequence has
    width 1. *)
Definition inRange (lo hi : N) (c : ascii) : bool :=
  ((lo <=? byteOf c) && (byteOf c <=? hi))%N.

Definition runeWidth (s : string) : nat :=
  match s with
  | EmptyString => 0%nat
  | String c0 rest =>
      let b := byteOf c0 in
      (* size and accepted range of the second byte, from the table [first] *)
      let shape : option (nat * N * N) :=
        if (b <? 0xC2)%N then None
        else if (b <=? 0xDF)%N then Some (2%nat, 0x80, 0xBF)%N
        else if (b =? 0xE0)%N then Some (3%nat, 0xA0, 0xBF)%N
        else if (b =? 0xED)%N then Some (3%nat, 0x80, 0x9F)%N
        else if (b <=? 0xEF)%N then Some (3%nat, 0x80, 0xBF)%N
        else if (b =? 0xF0)%N then Some (4%nat, 0x90, 0xBF)%N
        else if (b <=? 0xF3)%N then Some (4%nat, 0x80, 0xBF)%N
        else if (b =? 0xF4)%N then Some (4%nat, 0x80, 0x8F)%N
        else None in
      match shape with
      | None => 1%nat
      | Some (sz, lo, hi) =>
          if (String.length s <? sz)%nat then 1%nat
          else match rest with
               | String c1 rest1 =>
                   if negb (inRange lo hi c1) then 1%nat
                   else if (sz <=? 2)%nat then 2%nat
                   else match rest1 with
                        | String c2 rest2 =>
                            if negb (inRange 0x80 0xBF c2) then 1%nat
                            else if (sz <=? 3)%nat then 3%nat
                            else match rest2 with
                                 | String c3 _ =>
                                     if negb (inRange 0x80 0xBF c3) then 1%nat
                                     else 4%nat
                                 | EmptyString => 1%nat
                                 end
                        | EmptyString => 1%nat
                        end
               | EmptyString => 1%nat
               end
      end
  end.

(** The UTF-8 sequences of a string, in order. *)
Fixpoint runesFuel (fuel : nat) (s : string) : list string :=
  match fuel, s with
  | O, _ => []
  | _, EmptyString => []
  | S fuel', _ =>
      let w := runeWidth s in
      sliceTo w s :: runesFuel fuel' (sliceFrom w s)
  end.

Definition runes (s : string) : list string := runesFuel (String.length s) s.

(** [strings.Count(s, sub)]: non-overlapping occurrences; for the empty
    [sub], one more than the number of UTF-8 sequences. *)
Fixpoint countFrom (sub : string) (skip : nat) (s : string) : nat :=
  match s with
  | EmptyString => O
  | String _ s' =>
      match skip with
      | S skip' => countFrom sub skip' s'
      | O => if HasPrefix s sub
             then S (countFrom sub (String.length sub - 1) s')
             else countFrom sub O s'
      end
  end.

Definition Count (s sub : string) : nat :=
  match sub with
  | EmptyString => S (List.length (runes s))
  | _ => countFrom sub O s
  end.

(** The replacement loop of [strings.Replace] for a non-empty [old]:
    [k] replacements are still to be made, [skip] bytes of the occurrence
    just replaced are still to be dropped. *)
Fixpoint replaceFrom (old new : string) (k skip : nat) (s : string) : string :=
  match s with
  | EmptyString => EmptyString
  | String c s' =>
      match skip with
      | S skip' => replaceFrom old new k skip' s'
      | O =>
          match k with
          | O => s
          | S k' =>
              if HasPrefix s old
              then new +:+ replaceFrom old new k' (String.length old - 1) s'
              else String c (replaceFrom old new k O s')
          end
      end
  end.

(** The same loop for the empty [old]: [new] is written first, then after
    each of the first [k - 1] UTF-8 sequences. *)
Fixpoint interleave (new : string) (k : nat) (rs : list string) : string :=
  match rs with
  | [] => EmptyString
  | r :: rs' =>
      match k with
      | O => r +:+ interleave new O rs'
      | S k' => r +:+ new +:+ interleave new k' rs'
      end
  end.

(** [strings.Replace(s, old, new, n)]; [n < 0] replaces every occurrence. *)
Definition Replace (s old new : string) (n : Z) : string :=
  if String.eqb old new || (n =? 0) then s
  else
    let m := Count s old in
    if (m =? 0)%nat then s
    else
      let n' := if (n <? 0) || (Z.of_nat m <? n) then m else Z.to_nat n in
      match old with
      | EmptyString => new +:+ interleave new (n' - 1) (runes s)
      | _ => replaceFrom old new n' O s
      end.

End GoStrings.


(** Package [path]. *)
Module GoPath.
Import GoStrings.

Definition slash : ascii := "/"%char.
Definition dot : ascii := "."%char.

(** The output buffer of [Clean] is kept reversed: its head is the byte
    written last, and [out.w] is its length. *)
Definition buffer := list ascii.

Definition bufferString (out : buffer) : string :=
  string_of_list_ascii (rev out).

(** Backtracking over the last element on a [..]:
    [out.w--; for out.w > dotdot && out.index(out.w) != '/' { out.w-- }]. *)
Fixpoint backtrack (dotdot : nat) (out : buffer) : buffer :=
  match out with
  | [] => []
  | c :: out' =>
      if (dotdot <? List.length out')%nat && negb (Ascii.eqb c slash)
      then backtrack dotdot out'
      else out'
  end.

(** The main loop of [Clean] over the bytes still to read.  [copying] is
    set while the inner loop copies a real path element. *)
Fixpoint cleanLoop (rooted copying : bool) (dotdot : nat) (out : buffer)
    (rest : string) : buffer :=
  match rest with
  | EmptyString => out
  | String c rest' =>
      if copying then
        if Ascii.eqb c slash
        then cleanLoop rooted false dotdot out rest'
        else cleanLoop rooted true dotdot (c :: out) rest'
      else if Ascii.eqb c slash then
        (* empty path element *)
        cleanLoop rooted false dotdot out rest'
      else
        let isDot :=
          Ascii.eqb c dot &&
          match rest' with
          | EmptyString => true
          | String c1 _ => Ascii.eqb c1 slash
          end in
        if isDot then
          (* . element *)
          cleanLoop rooted false dotdot out rest'
        else
          let realElement :=
            let out1 :=
              if (rooted && negb (List.length out =? 1)%nat)
                 || (negb rooted && negb (List.length out =? 0)%nat)
              then slash :: out else out in
            cleanLoop rooted true dotdot (c :: out1) rest' in
          match rest' with
          | String c1 rest'' =>
              let isDotDot :=
                Ascii.eqb c dot && Ascii.eqb c1 dot &&
                match rest'' with
                | EmptyString => true
                | String c2 _ => Ascii.eqb c2 slash
                end in
              if isDotDot then
                (* .. element: remove to last / *)
                if (dotdot <? List.length out)%nat then
                  cleanLoop rooted false dotdot (backtrack dotdot out) rest''
                else if negb rooted then
                  let out1 :=
                    if (0 <? List.length out)%nat then slash :: out else out in
                  let out2 := dot :: dot :: out1 in
                  cleanLoop rooted false (List.length out2) out2 rest''
                else cleanLoop rooted false dotdot out rest''
              else realElement
          | EmptyString => realElement
          end
  end.

(** [path.Clean]. *)
Definition Clean (path : string) : string :=
  match path with
  | EmptyString => "."
  | String c rest =>
      let rooted := Ascii.eqb c slash in
      let out :=
        if rooted then cleanLoop true false 1 [slash] rest
        else cleanLoop false false 0 [] path in
      match out with
      | [] => "."
      | _ => bufferString out
      end
  end.

(** [path.Split]: the path is cut after its last slash. *)
Definition Split (path : string) : string * string :=
  match lastIndexOf path "/" with
  | Some i => (sliceTo (S i) path, sliceFrom (S i) path)
  | None => (EmptyString, path)
  end.

(** [path.Join]: nothing but empty elements gives the empty string;
    otherwise the elements are joined by slashes, the empty ones before the
    first non-empty one being dropped, and the result is cleaned. *)
Definition joinStep (buf e : string) : string :=
  if (0 <? String.length buf)%nat || negb (String.eqb e "")
  then (if (0 <? String.length buf)%nat then buf +:+ "/" else buf) +:+ e
  else buf.

Definition Join (elem : list string) : string :=
  if (list_sum (List.map String.length elem) =? 0)%nat then EmptyString
  else Clean (fold_left joinStep elem EmptyString).

End GoPath.

(** Package [time]: a clock reading, broken down in the local zone as
  [Format] sees it, together with its Unix time. *)
Module GoTime.

Record Time := {
  year : nat; month : nat; day : nat;
  hour : nat; minute : nat; second : nat;
  unixNano : Z
}.

Definition decimal (n : nat) : string :=
  NilEmpty.string_of_uint (Nat.to_uint n).

Fixpoint zeros (n : nat) : string :=
  match n with O => EmptyString | S n' => String "0" (zeros n') end.

(** A number printed in decimal, padded with zeros to [width] digits. *)
Definition padded (width n : nat) : string :=
  let d := decimal n in zeros (width - String.length d) +:+ d.

(** [t.Format("2006-01-02T150405")]. *)
Definition formatStamp (t : Time) : string :=
  padded 4 (year t) +:+ "-" +:+ padded 2 (month t) +:+ "-" +:+ padded 2 (day t)
  +:+ "T" +:+ padded 2 (hour t) +:+ padded 2 (minute t) +:+ padded 2 (second t).

(** [t.Format("20060102150405")]. *)
Definition formatCompact (t : Time) : string :=
  padded 4 (year t) +:+ padded 2 (month t) +:+ padded 2 (day t)
  +:+ padded 2 (hour t) +:+ padded 2 (minute t) +:+ padded 2 (second t).

(** [t.UnixMilli()]: the Unix time in milliseconds. *)
Definition UnixMilli (t : Time) : Z := unixNano t / 1000000.

(** [fmt.Sprintf("%03d", n)]. *)
Definition sprintf03d (n : Z) : string :=
  if n <? 0 then "-" +:+ padded 2 (Z.to_nat (- n)) else padded 3 (Z.to_nat n).

End GoTime.

(* ===================================================================== *)
(** ** Package [types] *)
(* ===================================================================== *)

Module Types.

(** [MimeType] is a string type; its zero value, the empty string, means
    that no codec has been chosen. *)
Definition MimeType := string.

(** Modelled from the spec: the codec names of package [types], which is not
    among the sources.  Only their being distinct and non-empty matters. *)
Definition MimeTypeAAC : MimeType := "audio/aac".
Definition MimeTypeOpus : MimeType := "audio/opus".
Definition MimeTypeRawAudio : MimeType := "audio/x-raw".
Definition MimeTypeH264 : MimeType := "video/h264".
Definition MimeTypeVP8 : MimeType := "video/vp8".
Definition MimeTypeRawVideo : MimeType := "video/x-raw".

(** The named output types.  The code only compares them with one another
    and uses them as table keys. *)
Inductive OutputType :=
| OutputTypeUnknownFile
| OutputTypeRaw
| OutputTypeOGG
| OutputTypeIVF
| OutputTypeMP4
| OutputTypeTS
| OutputTypeWebM
| OutputTypeRTMP
| OutputTypeHLS.

Inductive EgressType :=
| EgressTypeFile
| EgressTypeStream
| EgressTypeWebsocket
| EgressTypeSegments.

(** [SourceTypeUnset] is the zero value of the field. *)
Inductive SourceType :=
| SourceTypeUnset
| SourceTypeWeb
| SourceTypeSDK.

Inductive Profile :=
| ProfileBaseline
| ProfileMain
| ProfileHigh.

Definition FileExtension := string.

#[global] Instance OutputType_eq_dec : EqDecision OutputType.
Proof. solve_decision. Defined.
#[global] Instance EgressType_eq_dec : EqDecision EgressType.
Proof. solve_decision. Defined.
#[global] Instance SourceType_eq_dec : EqDecision SourceType.
Proof. solve_decision. Defined.

(** The tables of package [types] that the configuration code consults.
    They are not among the sources, so the code is modelled over any choice
    of them.  A [map[K]bool] is the set of its keys mapped to [true]; a
    lookup of a key that a table lacks yields the zero value (the empty
    set, the empty string). *)
Class Tables := {
  AllOutputAudioCodecs : gset MimeType;
  AllOutputVideoCodecs : gset MimeType;
  CodecCompatibility : OutputType -> gset MimeType;
  DefaultAudioCodecs : OutputType -> MimeType;
  DefaultVideoCodecs : OutputType -> MimeType;
  FileExtensionForOutputType : OutputType -> FileExtension;
  FileExtensions : gset FileExtension;
  AudioOnlyFileOutputTypes : list OutputType;
  VideoOnlyFileOutputTypes : list OutputType;
  AudioVideoFileOutputTypes : list OutputType
}.

(** Modelled from the spec: [GetMapIntersection], missing from the sources,
    "intersect with each output's codec-compatibility set". *)
Definition GetMapIntersection (a b : gset MimeType) : gset MimeType := a ∩ b.

(** Modelled from the spec: [GetOutputTypeCompatibleWithCodecs], missing from
    the sources, "pick the unique file type compatible with the resolved
    intersections, choosing from the appropriate bucket"; a [nil] codec set
    puts no constraint, and no compatible type gives the unknown type. *)
Definition GetOutputTypeCompatibleWithCodecs `{Tables} (bucket : list OutputType)
    (audioCodecs videoCodecs : option (gset MimeType)) : OutputType :=
  let meets (codecs : option (gset MimeType)) (t : OutputType) : bool :=
    match codecs with
    | None => true
    | Some cs => negb (size (cs ∩ CodecCompatibility t) =? 0)%nat
    end in
  match List.find (fun t => meets audioCodecs t && meets videoCodecs t) bucket with
  | Some t => t
  | None => OutputTypeUnknownFile
  end.

(** Modelled from the spec: one choice of the tables, used to run the code
    on concrete requests.  Containers are MP4, OGG, WebM, TS segments with
    an HLS playlist, IVF and raw audio; OGG carries Opus only, RTMP carries
    AAC and H264. *)
Definition sampleTables : Tables := {|
  AllOutputAudioCodecs := {[ MimeTypeAAC; MimeTypeOpus ]};
  AllOutputVideoCodecs := {[ MimeTypeH264 ]};
  CodecCompatibility := fun o =>
    match o with
    | OutputTypeRaw => {[ MimeTypeRawAudio ]}
    | OutputTypeOGG => {[ MimeTypeOpus ]}
    | OutputTypeIVF => {[ MimeTypeVP8 ]}
    | OutputTypeMP4 => {[ MimeTypeAAC; MimeTypeOpus; MimeTypeH264 ]}
    | OutputTypeTS => {[ MimeTypeAAC; MimeTypeOpus; MimeTypeH264 ]}
    | OutputTypeWebM => {[ MimeTypeOpus; MimeTypeVP8 ]}
    | OutputTypeRTMP => {[ MimeTypeAAC; MimeTypeH264 ]}
    | OutputTypeHLS => {[ MimeTypeAAC; MimeTypeH264 ]}
    | OutputTypeUnknownFile => ∅
    end;
  DefaultAudioCodecs := fun o =>
    match o with
    | OutputTypeRaw => MimeTypeRawAudio
    | OutputTypeOGG | OutputTypeWebM => MimeTypeOpus
    | OutputTypeMP4 | OutputTypeTS | OutputTypeRTMP | OutputTypeHLS => MimeTypeAAC
    | _ => EmptyString
    end;
  DefaultVideoCodecs := fun o =>
    match o with
    | OutputTypeIVF | OutputTypeWebM => MimeTypeVP8
    | OutputTypeMP4 | OutputTypeTS | OutputTypeRTMP | OutputTypeHLS => MimeTypeH264
    | _ => EmptyString
    end;
  FileExtensionForOutputType := fun o =>
    match o with
    | OutputTypeRaw => ".raw"
    | OutputTypeOGG => ".ogg"
    | OutputTypeIVF => ".ivf"
    | OutputTypeMP4 => ".mp4"
    | OutputTypeTS => ".ts"
    | OutputTypeWebM => ".webm"
    | OutputTypeHLS => ".m3u8"
    | _ => EmptyString
    end;
  FileExtensions := {[ ".raw"; ".ogg"; ".ivf"; ".mp4"; ".ts"; ".webm"; ".m3u8" ]};
  AudioOnlyFileOutputTypes := [ OutputTypeOGG; OutputTypeMP4 ];
  VideoOnlyFileOutputTypes := [ OutputTypeMP4 ];
  AudioVideoFileOutputTypes := [ OutputTypeMP4 ]
|}.

End Types.

(* ===================================================================== *)
(** ** Package [errors] and the media framework's error values *)
(* ===================================================================== *)

Module Errors.
Import Types.

(** A [gst.GError]: its message and its debug string. *)
Record GError := { Message : string; DebugString : string }.

(** The error values that the modelled code creates or passes on.
    [External] stands for an error made by the runtime or by a
    collaborator outside the sources. *)
Inductive error :=
| ErrInvalidInput (field : string)
| ErrInvalidUrl (url reason : string)
| ErrNoCompatibleCodec
| ErrNoCompatibleFileOutputType
| ErrIncompatible (output : OutputType) (codec : MimeType)
| ErrGstPipelineError (cause : GError)
| ErrEgressNotFound
| Fatal (cause : error)
| External (text : string).

End Errors.

Module Go.
Import Errors.

(** The outcome of a Go function that returns [(T, error)]. *)
Inductive result (A : Type) :=
| Ok (a : A)
| Err (e : error).
Arguments Ok {A} a.
Arguments Err {A} e.

Definition isErr {A} (r : result A) : bool :=
  match r with Ok _ => false | Err _ => true end.

End Go.

(* ===================================================================== *)
(** ** Package [config] *)
(* ===================================================================== *)

Module Config.
Import GoStrings GoPath GoTime Types Errors Go.

(** *** Data *)

Inductive EgressStatus :=
| EGRESS_STARTING
| EGRESS_ACTIVE
| EGRESS_ENDING
| EGRESS_COMPLETE
| EGRESS_FAILED
| EGRESS_ABORTED.

Record FileInfo := { Filename : string }.

Record StreamInfo := { Url : string }.

(** The interface [fileOutput]: what a file output of a request offers. *)
Record fileOutput := {
  GetFilepath : string;
  GetDisableManifest : bool;
  GetUpload : option string
}.

(** The outputs of an encoded request, read by [updateEncodedOutputs] only. *)
Inductive EncodedFileType :=
| DEFAULT_FILETYPE
| MP4
| OGG.

Record EncodedOutputs := {
  FileOutputs : list (EncodedFileType * fileOutput);
  StreamOutputs : list (OutputType * list string);
  SegmentOutputs : list string
}.

(** [Options] of a request: a preset tag, an advanced-options record, or
    nothing. *)
Record EncodingOptions := {
  AudioCodecOption : MimeType;
  VideoCodecOption : MimeType
}.

Inductive Options :=
| NoOptions
| Preset (tag : Z)
| Advanced (advanced : EncodingOptions).

Record RoomCompositeEgressRequest := {
  rc_RoomName : string;
  rc_Layout : string;
  rc_CustomBaseUrl : string;
  rc_AudioOnly : bool;
  rc_VideoOnly : bool;
  rc_Options : Options;
  rc_Outputs : EncodedOutputs
}.

Record WebEgressRequest := {
  web_Url : string;
  web_AwaitStartSignal : bool;
  web_AudioOnly : bool;
  web_VideoOnly : bool;
  web_Options : Options;
  web_Outputs : EncodedOutputs
}.

Record TrackCompositeEgressRequest := {
  tc_RoomName : string;
  tc_AudioTrackId : string;
  tc_VideoTrackId : string;
  tc_Options : Options;
  tc_Outputs : EncodedOutputs
}.

Inductive TrackOutput :=
| NoTrackOutput
| TrackFile (file : fileOutput)
| TrackWebsocketUrl (url : string).

Record TrackEgressRequest := {
  tr_RoomName : string;
  tr_TrackId : string;
  tr_Output : TrackOutput
}.

(** The [oneof] of a start request; [NoRequest] is the unset field. *)
Inductive Request :=
| NoRequest
| RoomComposite (req : RoomCompositeEgressRequest)
| Web (req : WebEgressRequest)
| TrackComposite (req : TrackCompositeEgressRequest)
| Track (req : TrackEgressRequest).

Record StartEgressRequest := {
  req_EgressId : string;
  req_RoomId : string;
  req_Token : string;
  req_WsUrl : string;
  req_Request : Request
}.

(** The fields of [livekit.EgressInfo] that the modelled code reads or
    writes.  Timestamps are Unix nanoseconds; zero means "not set". *)
Record EgressInfo := {
  EgressId : string;
  RoomId : string;
  RoomName : string;
  Status : EgressStatus;
  UpdatedAt : Z;
  EndedAt : Z;
  Error : string;
  InfoRequest : Request
}.

Record outputConfig := { OutputType_ : OutputType }.

Record FileConfig := {
  fileOutputConfig : outputConfig;
  FileInfo_ : FileInfo;
  LocalFilepath : string;
  StorageFilepath : string;
  DisableManifest : bool;
  (** [nil] when the file is written where the request says. *)
  UploadConfig : option string
}.

Record StreamConfig := {
  streamOutputConfig : outputConfig;
  Urls : list string;
  StreamInfo_ : gmap string StreamInfo
}.

Record SegmentConfig := {
  segmentOutputConfig : outputConfig;
  LocalDir : string;
  StorageDir : string;
  PlaylistFilename : string;
  SegmentPrefix : string;
  PlaylistName : string
}.

(** The interface [OutputConfig] and its implementations. *)
Inductive OutputConfig :=
| OfFile (c : FileConfig)
| OfStream (c : StreamConfig)
| OfSegments (c : SegmentConfig).

Definition GetOutputType (o : OutputConfig) : OutputType :=
  match o with
  | OfFile c => OutputType_ (fileOutputConfig c)
  | OfStream c => OutputType_ (streamOutputConfig c)
  | OfSegments c => OutputType_ (segmentOutputConfig c)
  end.

Record BaseConfig := {
  TemplateBase : string;
  ApiKey : string;
  ApiSecret : string;
  WsUrl : string;
  LocalOutputDirectory : string
}.

Record SourceConfig := {
  SourceType_ : SourceType;
  Latency : Z;
  AwaitStartSignal : bool;
  Layout : string;
  Token : string;
  BaseUrl : string;
  WebUrl : string;
  TrackID : string;
  AudioTrackID : string;
  VideoTrackID : string;
  AudioInCodec : MimeType;
  VideoInCodec : MimeType
}.

Record AudioConfig := {
  AudioEnabled : bool;
  AudioTranscoding : bool;
  AudioOutCodec : MimeType;
  AudioBitrate : Z;
  AudioFrequency : Z
}.

Record VideoConfig := {
  VideoEnabled : bool;
  VideoTranscoding : bool;
  VideoOutCodec : MimeType;
  VideoProfile : Profile;
  Width : Z;
  Height : Z;
  Depth : Z;
  Framerate : Z;
  VideoBitrate : Z;
  KeyFrameInterval : float
}.

(** [Outputs] is a Go map; it is kept as the list of its entries, at most
    one per egress type. *)
Record PipelineConfig := {
  Base : BaseConfig;
  HandlerID : string;
  TmpDir : string;
  Source : SourceConfig;
  Audio : AudioConfig;
  Video : VideoConfig;
  Outputs : list (EgressType * OutputConfig);
  OutputCount : Z;
  Info : EgressInfo
}.

(** Field updates. *)
Definition withStorageFilepath (s : string) (o : FileConfig) : FileConfig :=
  {| fileOutputConfig := fileOutputConfig o; FileInfo_ := FileInfo_ o;
     LocalFilepath := LocalFilepath o; StorageFilepath := s;
     DisableManifest := DisableManifest o; UploadConfig := UploadConfig o |}.

Definition withLocalFilepath (s : string) (o : FileConfig) : FileConfig :=
  {| fileOutputConfig := fileOutputConfig o; FileInfo_ := FileInfo_ o;
     LocalFilepath := s; StorageFilepath := StorageFilepath o;
     DisableManifest := DisableManifest o; UploadConfig := UploadConfig o |}.

Definition withFilename (s : string) (o : FileConfig) : FileConfig :=
  {| fileOutputConfig := fileOutputConfig o; FileInfo_ := {| Filename := s |};
     LocalFilepath := LocalFilepath o; StorageFilepath := StorageFilepath o;
     DisableManifest := DisableManifest o; UploadConfig := UploadConfig o |}.

Definition withFileOutputType (t : OutputType) (o : FileConfig) : FileConfig :=
  {| fileOutputConfig := {| OutputType_ := t |}; FileInfo_ := FileInfo_ o;
     LocalFilepath := LocalFilepath o; StorageFilepath := StorageFilepath o;
     DisableManifest := DisableManifest o; UploadConfig := UploadConfig o |}.

Definition withSource (f : SourceConfig -> SourceConfig) (p : PipelineConfig)
    : PipelineConfig :=
  {| Base := Base p; HandlerID := HandlerID p; TmpDir := TmpDir p;
     Source := f (Source p); Audio := Audio p; Video := Video p;
     Outputs := Outputs p; OutputCount := OutputCount p; Info := Info p |}.

Definition withAudio (f : AudioConfig -> AudioConfig) (p : PipelineConfig)
    : PipelineConfig :=
  {| Base := Base p; HandlerID := HandlerID p; TmpDir := TmpDir p;
     Source := Source p; Audio := f (Audio p); Video := Video p;
     Outputs := Outputs p; OutputCount := OutputCount p; Info := Info p |}.

Definition withVideo (f : VideoConfig -> VideoConfig) (p : PipelineConfig)
    : PipelineConfig :=
  {| Base := Base p; HandlerID := HandlerID p; TmpDir := TmpDir p;
     Source := Source p; Audio := Audio p; Video := f (Video p);
     Outputs := Outputs p; OutputCount := OutputCount p; Info := Info p |}.

Definition withBase (f : BaseConfig -> BaseConfig) (p : PipelineConfig)
    : PipelineConfig :=
  {| Base := f (Base p); HandlerID := HandlerID p; TmpDir := TmpDir p;
     Source := Source p; Audio := Audio p; Video := Video p;
     Outputs := Outputs p; OutputCount := OutputCount p; Info := Info p |}.

Definition withInfo (f : EgressInfo -> EgressInfo) (p : PipelineConfig)
    : PipelineConfig :=
  {| Base := Base p; HandlerID := HandlerID p; TmpDir := TmpDir p;
     Source := Source p; Audio := Audio p; Video := Video p;
     Outputs := Outputs p; OutputCount := OutputCount p; Info := f (Info p) |}.

Definition withOutputs (outs : list (EgressType * OutputConfig)) (n : Z)
    (p : PipelineConfig) : PipelineConfig :=
  {| Base := Base p; HandlerID := HandlerID p; TmpDir := TmpDir p;
     Source := Source p; Audio := Audio p; Video := Video p;
     Outputs := outs; OutputCount := n; Info := Info p |}.

Definition setAudioOutCodec (c : MimeType) (a : AudioConfig) : AudioConfig :=
  {| AudioEnabled := AudioEnabled a; AudioTranscoding := AudioTranscoding a;
     AudioOutCodec := c; AudioBitrate := AudioBitrate a;
     AudioFrequency := AudioFrequency a |}.

Definition setVideoOutCodec (c : MimeType) (v : VideoConfig) : VideoConfig :=
  {| VideoEnabled := VideoEnabled v; VideoTranscoding := VideoTranscoding v;
     VideoOutCodec := c; VideoProfile := VideoProfile v; Width := Width v;
     Height := Height v; Depth := Depth v; Framerate := Framerate v;
     VideoBitrate := VideoBitrate v; KeyFrameInterval := KeyFrameInterval v |}.

Definition setKeyFrameInterval (k : float) (v : VideoConfig) : VideoConfig :=
  {| VideoEnabled := VideoEnabled v; VideoTranscoding := VideoTranscoding v;
     VideoOutCodec := VideoOutCodec v; VideoProfile := VideoProfile v;
     Width := Width v; Height := Height v; Depth := Depth v;
     Framerate := Framerate v; VideoBitrate := VideoBitrate v;
     KeyFrameInterval := k |}.

(** What the configuration code asks of the world outside the sources. *)
Record URL := { Scheme : string }.

Class Runtime := {
  (** [os.MkdirAll(dir, 0755)]: the error, if any. *)
  MkdirAll : string -> option error;
  (** [url.Parse]: the parsed URL, or the text of the parse error. *)
  urlParse : string -> string + URL;
  (** [util.RedactStreamKey]: the redacted URL when the URL is a well-formed
      RTMP URL. *)
  RedactStreamKey : string -> option string;
  (** [p.getUploadConfig(file)]: the upload target, [nil] when there is
      none. *)
  getUploadConfig : PipelineConfig -> option string -> option string
}.

(** The order in which each [range] statement visits the entries of its
    map is chosen by the Go runtime.  The choice is an input of the model:
    [site] tells the statements of one function apart. *)
Class Ranging := {
  visitOutputs : nat -> list (EgressType * OutputConfig)
                 -> list (EgressType * OutputConfig);
  visitCodecs : nat -> gset MimeType -> list MimeType;
  visitReplacements : gmap string string -> list (string * string)
}.

(** Every choice visits each entry once. *)
Definition fairRanging `{Ranging} : Prop :=
  (forall site l, visitOutputs site l ≡ₚ l)
  /\ (forall site s, visitCodecs site s ≡ₚ elements s)
  /\ (forall m, visitReplacements m ≡ₚ map_to_list m).

(** The choice that follows the order of the model's own enumerations. *)
Definition inOrder : Ranging := {|
  visitOutputs := fun _ l => l;
  visitCodecs := fun _ s => elements s;
  visitReplacements := fun m => map_to_list m
|}.

(** *** Filename templating *)

(** [stringReplace]; [replacements] lists the entries of the Go map in the
    order in which [range] visits them. *)
Definition stringReplace (s : string) (replacements : list (string * string))
    : string :=
  fold_left (fun s '(template, value) => Replace s template value (-1))
            replacements s.

(** An order in which [range] may visit the entries of a map. *)
Definition visitOrder (m : gmap string string) (l : list (string * string))
    : Prop :=
  l ≡ₚ map_to_list m.

(** [getFilenameInfo]; [now] is the reading of [time.Now()]. *)
Definition getFilenameInfo (p : PipelineConfig) (now : Time)
    : string * gmap string string :=
  let utc := formatCompact now +:+ sprintf03d (Z.rem (UnixMilli now) 1000) in
  if negb (String.eqb (RoomName (Info p)) "") then
    (RoomName (Info p),
     list_to_map [ ("{room_name}", RoomName (Info p));
                   ("{room_id}", RoomId (Info p));
                   ("{time}", formatStamp now);
                   ("{utc}", utc) ])
  else
    ("web", list_to_map [ ("{time}", formatStamp now); ("{utc}", utc) ]).

(** The storage path that [updateFilepath] computes from the substituted
    path [path]: the first half of the function. *)
Definition resolveStoragePath `{Tables} (ext : FileExtension)
    (identifier : string) (now : Time) (path : string) : string :=
  if String.eqb path "" || HasSuffix path "/" then
    (* generate filepath *)
    path +:+ identifier +:+ "-" +:+ formatStamp now +:+ ext
  else if negb (HasSuffix path ext) then
    (* check for existing (incorrect) extension *)
    let stripped :=
      match lastIndexOf path "." with
      | Some extIdx =>
          let existingExt := sliceFrom extIdx path in
          if decide (existingExt ∈ FileExtensions)
          then sliceTo extIdx path else path
      | None => path
      end in
    (* add file extension *)
    stripped +:+ ext
  else path.

(** [updateFilepath]: the receiver after the call, and the error.
    [now] is the reading of [time.Now()] in the function. *)
Definition updateFilepath `{Tables} `{Runtime} (o : FileConfig)
    (p : PipelineConfig) (identifier : string)
    (replacements : list (string * string)) (now : Time)
    : FileConfig * option error :=
  let o := withStorageFilepath (stringReplace (StorageFilepath o) replacements) o in
  (* get file extension *)
  let ext := FileExtensionForOutputType (OutputType_ (fileOutputConfig o)) in
  let o := withStorageFilepath
             (resolveStoragePath ext identifier now (StorageFilepath o)) o in
  (* update filename *)
  let o := withFilename (StorageFilepath o) o in
  (* get local filepath *)
  let '(dir, filename) := Split (StorageFilepath o) in
  match UploadConfig o with
  | None =>
      match (if negb (String.eqb dir "") then MkdirAll dir else None) with
      | Some err => (o, Some err)
      | None =>
          (* write directly to requested location *)
          (withLocalFilepath (StorageFilepath o) o, None)
      end
  | Some _ =>
      (* prepend the configuration base directory and the egress Id *)
      let tempDir := Join [LocalOutputDirectory (Base p); EgressId (Info p)] in
      match MkdirAll tempDir with
      | Some err => (o, Some err)
      | None =>
          (* write to tmp dir *)
          (withLocalFilepath (Join [tempDir; filename]) o, None)
      end
  end.

(** The loop of [clean],
    [for strings.HasPrefix(filepath, "../") { filepath = filepath[3:] }],
    run for at most [fuel] rounds. *)
Fixpoint stripUpwardFuel (fuel : nat) (filepath : string) : string :=
  match fuel with
  | O => filepath
  | S fuel' =>
      if HasPrefix filepath "../"
      then stripUpwardFuel fuel' (sliceFrom 3 filepath)
      else filepath
  end.

(** Each round drops three bytes, so the length of the path is fuel enough
    ([stripUpward_done] below). *)
Definition stripUpward (filepath : string) : string :=
  stripUpwardFuel (String.length filepath) filepath.

(** [clean]. *)
Definition clean (filepath : string) : string :=
  let hasEndingSlash := HasSuffix filepath "/" in
  let filepath := stripUpward (Clean filepath) in
  if String.eqb filepath "" || String.eqb filepath "." || String.eqb filepath ".."
  then ""
  else if hasEndingSlash then filepath +:+ "/"
  else filepath.

(** [getFileConfig]; [now] and [now'] are the readings of the clock in
    [getFilenameInfo] and in [updateFilepath]. *)
Definition getFileConfig `{Tables} `{Runtime} `{Ranging} (p : PipelineConfig)
    (outputType : OutputType) (file : fileOutput) (now now' : Time)
    : result FileConfig :=
  let conf := {|
    fileOutputConfig := {| OutputType_ := outputType |};
    FileInfo_ := {| Filename := "" |};
    LocalFilepath := "";
    StorageFilepath := clean (GetFilepath file);
    DisableManifest := GetDisableManifest file;
    UploadConfig := getUploadConfig p (GetUpload file)
  |} in
  (* filename *)
  let '(identifier, replacements) := getFilenameInfo p now in
  if negb (bool_decide (OutputType_ (fileOutputConfig conf) = OutputTypeUnknownFile))
  then
    match updateFilepath conf p identifier (visitReplacements replacements) now' with
    | (_, Some err) => Err err
    | (conf', None) => Ok conf'
    end
  else
    Ok (withStorageFilepath
          (stringReplace (StorageFilepath conf) (visitReplacements replacements))
          conf).

(** [getDirectFileConfig]. *)
Definition getDirectFileConfig `{Tables} `{Runtime} `{Ranging}
    (p : PipelineConfig) (file : fileOutput) (now now' : Time)
    : result FileConfig :=
  getFileConfig p OutputTypeUnknownFile file now now'.

(** *** Stream outputs *)

(** [ValidateUrl]. *)
Definition ValidateUrl `{Runtime} (rawUrl : string) (outputType : OutputType)
    : result string :=
  match urlParse rawUrl with
  | inl errText => Err (ErrInvalidUrl rawUrl errText)
  | inr parsed =>
      match outputType with
      | OutputTypeRTMP =>
          match RedactStreamKey rawUrl with
          | None =>
              Err (ErrInvalidUrl rawUrl
                "rtmp urls must be of format rtmp(s)://{host}(/{path})/{app}/{stream_key}( live=1)")
          | Some redacted => Ok redacted
          end
      | OutputTypeRaw =>
          if negb (String.eqb (Scheme parsed) "ws")
             && negb (String.eqb (Scheme parsed) "wss")
          then Err (ErrInvalidUrl rawUrl "invalid scheme")
          else Ok rawUrl
      | _ => Err (ErrInvalidInput "stream output type")
      end
  end.

(** The loop of [getStreamConfig] over the URLs: it fills [conf.StreamInfo]
    and stops at the first URL that does not validate. *)
Fixpoint validateUrls `{Runtime} (outputType : OutputType) (urls : list string)
    (infos : gmap string StreamInfo) : result (gmap string StreamInfo) :=
  match urls with
  | [] => Ok infos
  | rawUrl :: urls' =>
      match ValidateUrl rawUrl outputType with
      | Err err => Err err
      | Ok redacted =>
          validateUrls outputType urls' (<[rawUrl := {| Url := redacted |}]> infos)
      end
  end.

(** [getStreamConfig]: the pipeline configuration after the call (the
    receiver is a pointer and is written before the URLs are validated) and
    the returned pair. *)
Definition getStreamConfig `{Runtime} (p : PipelineConfig)
    (outputType : OutputType) (urls : list string)
    : PipelineConfig * result StreamConfig :=
  let '(p, confUrls) :=
    match outputType with
    | OutputTypeRTMP =>
        (withVideo (setVideoOutCodec MimeTypeH264)
           (withAudio (setAudioOutCodec MimeTypeAAC) p), urls)
    | OutputTypeRaw =>
        (withAudio (setAudioOutCodec MimeTypeRawAudio) p, urls)
    | _ => (p, [])
    end in
  (* Use a 4s default key frame interval for streaming *)
  let p :=
    if PrimFloat.eqb (KeyFrameInterval (Video p)) 0%float
    then withVideo (setKeyFrameInterval 4%float) p
    else p in
  match validateUrls outputType urls ∅ with
  | Err err => (p, Err err)
  | Ok infos =>
      (p, Ok {| streamOutputConfig := {| OutputType_ := outputType |};
                Urls := confUrls;
                StreamInfo_ := infos |})
  end.

(** *** Codec resolution *)

(** The loop [for _, o := range p.Outputs] of
    [validateAndUpdateOutputCodecs]: the intersection over the outputs
    visited, or the output at which it became empty. *)
Fixpoint intersectOutputs `{Tables} (compatible : gset MimeType)
    (outputs : list (EgressType * OutputConfig))
    : OutputConfig + gset MimeType :=
  match outputs with
  | [] => inr compatible
  | (_, o) :: outputs' =>
      let compatible :=
        GetMapIntersection compatible (CodecCompatibility (GetOutputType o)) in
      if (size compatible =? 0)%nat then inl o
      else intersectOutputs compatible outputs'
  end.

(** [validateAndUpdateOutputCodecs]. *)
Definition validateAndUpdateOutputCodecs `{Tables} `{Ranging}
    (p : PipelineConfig) : result (gset MimeType * gset MimeType) :=
  (* Find video and audio codecs compatible with all outputs *)
  let audio : result (gset MimeType) :=
    if AudioEnabled (Audio p) then
      let start :=
        if String.eqb (AudioOutCodec (Audio p)) ""
        then AllOutputAudioCodecs
        else {[ AudioOutCodec (Audio p) ]} in
      match intersectOutputs start (visitOutputs 0 (Outputs p)) with
      | inl o =>
          if String.eqb (AudioOutCodec (Audio p)) ""
          then Err ErrNoCompatibleCodec
          else
            (* Return a more specific error if a codec was provided *)
            Err (ErrIncompatible (GetOutputType o) (AudioOutCodec (Audio p)))
      | inr compatible => Ok compatible
      end
    else Ok ∅ in
  match audio with
  | Err err => Err err
  | Ok compatibleAudioCodecs =>
      if VideoEnabled (Video p) then
        let start :=
          if String.eqb (VideoOutCodec (Video p)) ""
          then AllOutputVideoCodecs
          else {[ VideoOutCodec (Video p) ]} in
        match intersectOutputs start (visitOutputs 1 (Outputs p)) with
        | inl o =>
            if String.eqb (AudioOutCodec (Audio p)) ""
            then Err ErrNoCompatibleCodec
            else
              (* Return a more specific error if a codec was provided *)
              Err (ErrIncompatible (GetOutputType o) (VideoOutCodec (Video p)))
        | inr compatible => Ok (compatibleAudioCodecs, compatible)
        end
      else Ok (compatibleAudioCodecs, ∅)
  end.

(** *** Output type and codec selection *)

(** [GetFileConfig]: the entry of [Outputs] under [EgressTypeFile].  Every
    writer of [Outputs] stores a [*FileConfig] under that key. *)
Definition GetFileConfig (p : PipelineConfig) : option FileConfig :=
  match List.find (fun e => bool_decide (e.1 = EgressTypeFile)) (Outputs p) with
  | Some (_, OfFile c) => Some c
  | _ => None
  end.

(** Writing through the pointer that [GetFileConfig] returns. *)
Definition setFileConfig (c : FileConfig) (p : PipelineConfig) : PipelineConfig :=
  withOutputs
    (List.map (fun e => if bool_decide (e.1 = EgressTypeFile)
                        then (EgressTypeFile, OfFile c) else e) (Outputs p))
    (OutputCount p) p.

(** [updateOutputType]. *)
Definition updateOutputType `{Tables} `{Runtime} `{Ranging} (p : PipelineConfig)
    (compatibleAudioCodecs compatibleVideoCodecs : gset MimeType)
    (now now' : Time) : PipelineConfig * option error :=
  match GetFileConfig p with
  | None => (p, None)
  | Some o =>
      if negb (bool_decide (OutputType_ (fileOutputConfig o) = OutputTypeUnknownFile))
      then (p, None)
      else
        let ot :=
          if negb (VideoEnabled (Video p)) then
            GetOutputTypeCompatibleWithCodecs AudioOnlyFileOutputTypes
              (Some compatibleAudioCodecs) None
          else if negb (AudioEnabled (Audio p)) then
            GetOutputTypeCompatibleWithCodecs VideoOnlyFileOutputTypes
              None (Some compatibleVideoCodecs)
          else
            GetOutputTypeCompatibleWithCodecs AudioVideoFileOutputTypes
              (Some compatibleAudioCodecs) (Some compatibleVideoCodecs) in
        if bool_decide (ot = OutputTypeUnknownFile)
        then (p, Some ErrNoCompatibleFileOutputType)
        else
          let o := withFileOutputType ot o in
          let '(identifier, replacements) := getFilenameInfo p now in
          let '(o, err) :=
            updateFilepath o p identifier (visitReplacements replacements) now' in
          (setFileConfig o p, err)
  end.

(** [validateAndUpdateOutputParams]. *)
Definition validateAndUpdateOutputParams `{Tables} `{Runtime} `{Ranging}
    (p : PipelineConfig) (now now' : Time) : PipelineConfig * option error :=
  match validateAndUpdateOutputCodecs p with
  | Err err => (p, Some err)
  | Ok (compatibleAudioCodecs, compatibleVideoCodecs) =>
      (* Find a compatible file format if not set *)
      match updateOutputType p compatibleAudioCodecs compatibleVideoCodecs now now' with
      | (p, Some err) => (p, Some err)
      | (p, None) =>
          (* Select a codec compatible with all outputs *)
          let p :=
            if AudioEnabled (Audio p) then
              let p :=
                match List.find
                        (fun e => bool_decide
                           (DefaultAudioCodecs (GetOutputType e.2) ∈ compatibleAudioCodecs))
                        (visitOutputs 2 (Outputs p)) with
                | Some e =>
                    withAudio (setAudioOutCodec (DefaultAudioCodecs (GetOutputType e.2))) p
                | None => p
                end in
              if String.eqb (AudioOutCodec (Audio p)) "" then
                (* No default codec found. Pick a random compatible one *)
                match List.last (Some <$> visitCodecs 0 compatibleAudioCodecs) None with
                | Some k => withAudio (setAudioOutCodec k) p
                | None => p
                end
              else p
            else p in
          let p :=
            if VideoEnabled (Video p) then
              let p :=
                match List.find
                        (fun e => bool_decide
                           (DefaultVideoCodecs (GetOutputType e.2) ∈ compatibleVideoCodecs))
                        (visitOutputs 3 (Outputs p)) with
                | Some e =>
                    withVideo (setVideoOutCodec (DefaultVideoCodecs (GetOutputType e.2))) p
                | None => p
                end in
              if String.eqb (VideoOutCodec (Video p)) "" then
                (* No default codec found. Pick a random compatible one *)
                match List.last (Some <$> visitCodecs 1 compatibleVideoCodecs) None with
                | Some k => withVideo (setVideoOutCodec k) p
                | None => p
                end
              else p
            else p in
          (p, None)
      end
  end.

(** *** Request validation *)

Definition webLatency : Z := 2000000000.
Definition sdkLatency : Z := 3000000000.

(** The functions of package [config] and of the protocol library that
    [Update] calls and that are not among the sources.  Each takes the
    configuration it may write through the pointer receiver and returns it
    with the error. *)
Class Validation := {
  applyPreset : Z -> PipelineConfig -> PipelineConfig;
  applyAdvanced : EncodingOptions -> PipelineConfig -> PipelineConfig * option error;
  updateEncodedOutputs : EncodedOutputs -> PipelineConfig -> PipelineConfig * option error;
  updateDirectOutput : TrackEgressRequest -> PipelineConfig -> PipelineConfig * option error;
  redactEncodedOutputs : EncodedOutputs -> EncodedOutputs;
  redactUpload : fileOutput -> fileOutput;
  (** [egress.BuildEgressToken(egressID, apiKey, apiSecret, roomName)]. *)
  BuildEgressToken : string -> string -> string -> string -> result string
}.

Definition startingInfo (request : StartEgressRequest) (now : Time) : EgressInfo :=
  {| EgressId := req_EgressId request; RoomId := req_RoomId request;
     RoomName := ""; Status := EGRESS_STARTING; UpdatedAt := unixNano now;
     EndedAt := 0; Error := ""; InfoRequest := NoRequest |}.

Definition defaultAudioConfig : AudioConfig :=
  {| AudioEnabled := false; AudioTranscoding := false; AudioOutCodec := "";
     AudioBitrate := 128; AudioFrequency := 44100 |}.

Definition defaultVideoConfig : VideoConfig :=
  {| VideoEnabled := false; VideoTranscoding := false; VideoOutCodec := "";
     VideoProfile := ProfileMain; Width := 1920; Height := 1080; Depth := 24;
     Framerate := 30; VideoBitrate := 4500; KeyFrameInterval := 0%float |}.

Definition setInfoRequest (r : Request) (i : EgressInfo) : EgressInfo :=
  {| EgressId := EgressId i; RoomId := RoomId i; RoomName := RoomName i;
     Status := Status i; UpdatedAt := UpdatedAt i; EndedAt := EndedAt i;
     Error := Error i; InfoRequest := r |}.

Definition setRoomName (n : string) (i : EgressInfo) : EgressInfo :=
  {| EgressId := EgressId i; RoomId := RoomId i; RoomName := n;
     Status := Status i; UpdatedAt := UpdatedAt i; EndedAt := EndedAt i;
     Error := Error i; InfoRequest := InfoRequest i |}.

Definition setSourceKind (t : SourceType) (latency : Z) (s : SourceConfig)
    : SourceConfig :=
  {| SourceType_ := t; Latency := latency; AwaitStartSignal := AwaitStartSignal s;
     Layout := Layout s; Token := Token s; BaseUrl := BaseUrl s; WebUrl := WebUrl s;
     TrackID := TrackID s; AudioTrackID := AudioTrackID s;
     VideoTrackID := VideoTrackID s; AudioInCodec := AudioInCodec s;
     VideoInCodec := VideoInCodec s |}.

Definition setWebParams (await : bool) (layout baseUrl webUrl : string)
    (s : SourceConfig) : SourceConfig :=
  {| SourceType_ := SourceType_ s; Latency := Latency s; AwaitStartSignal := await;
     Layout := layout; Token := Token s; BaseUrl := baseUrl; WebUrl := webUrl;
     TrackID := TrackID s; AudioTrackID := AudioTrackID s;
     VideoTrackID := VideoTrackID s; AudioInCodec := AudioInCodec s;
     VideoInCodec := VideoInCodec s |}.

Definition setToken (token : string) (s : SourceConfig) : SourceConfig :=
  {| SourceType_ := SourceType_ s; Latency := Latency s;
     AwaitStartSignal := AwaitStartSignal s;
     Layout := Layout s; Token := token; BaseUrl := BaseUrl s; WebUrl := WebUrl s;
     TrackID := TrackID s; AudioTrackID := AudioTrackID s;
     VideoTrackID := VideoTrackID s; AudioInCodec := AudioInCodec s;
     VideoInCodec := VideoInCodec s |}.

Definition setTrackIDs (track audioTrack videoTrack : string) (s : SourceConfig)
    : SourceConfig :=
  {| SourceType_ := SourceType_ s; Latency := Latency s;
     AwaitStartSignal := AwaitStartSignal s;
     Layout := Layout s; Token := Token s; BaseUrl := BaseUrl s; WebUrl := WebUrl s;
     TrackID := track; AudioTrackID := audioTrack; VideoTrackID := videoTrack;
     AudioInCodec := AudioInCodec s; VideoInCodec := VideoInCodec s |}.

Definition setInCodecs (audioIn videoIn : MimeType) (s : SourceConfig)
    : SourceConfig :=
  {| SourceType_ := SourceType_ s; Latency := Latency s;
     AwaitStartSignal := AwaitStartSignal s;
     Layout := Layout s; Token := Token s; BaseUrl := BaseUrl s; WebUrl := WebUrl s;
     TrackID := TrackID s; AudioTrackID := AudioTrackID s;
     VideoTrackID := VideoTrackID s; AudioInCodec := audioIn;
     VideoInCodec := videoIn |}.

Definition enableAudio (a : AudioConfig) : AudioConfig :=
  {| AudioEnabled := true; AudioTranscoding := true;
     AudioOutCodec := AudioOutCodec a; AudioBitrate := AudioBitrate a;
     AudioFrequency := AudioFrequency a |}.

Definition enableVideo (v : VideoConfig) : VideoConfig :=
  {| VideoEnabled := true; VideoTranscoding := true;
     VideoOutCodec := VideoOutCodec v; VideoProfile := VideoProfile v;
     Width := Width v; Height := Height v; Depth := Depth v;
     Framerate := Framerate v; VideoBitrate := VideoBitrate v;
     KeyFrameInterval := KeyFrameInterval v |}.

Definition setWsUrl (u : string) (b : BaseConfig) : BaseConfig :=
  {| TemplateBase := TemplateBase b; ApiKey := ApiKey b; ApiSecret := ApiSecret b;
     WsUrl := u; LocalOutputDirectory := LocalOutputDirectory b |}.

(** [err != nil || (u.Scheme != "http" && u.Scheme != "https")] for the result
    of [url.Parse]. *)
Definition notHttp `{Runtime} (rawUrl : string) : bool :=
  match urlParse rawUrl with
  | inl _ => true
  | inr u => negb (String.eqb (Scheme u) "http") && negb (String.eqb (Scheme u) "https")
  end.

(** The part shared by the two web variants: enabling audio and video. *)
Definition enableWebMedia (audioOnly videoOnly : bool) (p : PipelineConfig)
    : PipelineConfig :=
  let p :=
    if negb videoOnly
    then withSource (fun s => setInCodecs MimeTypeRawAudio (VideoInCodec s) s)
           (withAudio enableAudio p)
    else p in
  if negb audioOnly
  then withSource (fun s => setInCodecs (AudioInCodec s) MimeTypeRawVideo s)
         (withVideo enableVideo p)
  else p.

(** The [switch] over the encoding options. *)
Definition applyOptions `{Validation} (opts : Options) (p : PipelineConfig)
    : PipelineConfig * option error :=
  match opts with
  | NoOptions => (p, None)
  | Preset tag => (applyPreset tag p, None)
  | Advanced advanced => applyAdvanced advanced p
  end.

(** What a case of the [switch] over the request does: it leaves the
    function with an error or with [nil], or goes on after the [switch],
    where connection info may be required. *)
Inductive caseOutcome :=
| Returns (err : option error)
| GoesOn (connectionInfoRequired : bool).

Definition encodedCase `{Validation} (opts : Options) (outputs : EncodedOutputs)
    (audioOrVideo : string) (connectionInfoRequired : bool) (p : PipelineConfig)
    : PipelineConfig * caseOutcome :=
  if negb (AudioEnabled (Audio p)) && negb (VideoEnabled (Video p))
  then (p, Returns (Some (ErrInvalidInput audioOrVideo)))
  else
    (* encoding options *)
    match applyOptions opts p with
    | (p, Some err) => (p, Returns (Some err))
    | (p, None) =>
        (* output params *)
        match updateEncodedOutputs outputs p with
        | (p, Some err) => (p, Returns (Some err))
        | (p, None) => (p, GoesOn connectionInfoRequired)
        end
    end.

Definition redactRequest `{Validation} (r : Request) : Request :=
  match r with
  | NoRequest => NoRequest
  | RoomComposite q =>
      RoomComposite
        {| rc_RoomName := rc_RoomName q; rc_Layout := rc_Layout q;
           rc_CustomBaseUrl := rc_CustomBaseUrl q; rc_AudioOnly := rc_AudioOnly q;
           rc_VideoOnly := rc_VideoOnly q; rc_Options := rc_Options q;
           rc_Outputs := redactEncodedOutputs (rc_Outputs q) |}
  | Web q =>
      Web {| web_Url := web_Url q; web_AwaitStartSignal := web_AwaitStartSignal q;
             web_AudioOnly := web_AudioOnly q; web_VideoOnly := web_VideoOnly q;
             web_Options := web_Options q;
             web_Outputs := redactEncodedOutputs (web_Outputs q) |}
  | TrackComposite q =>
      TrackComposite
        {| tc_RoomName := tc_RoomName q; tc_AudioTrackId := tc_AudioTrackId q;
           tc_VideoTrackId := tc_VideoTrackId q; tc_Options := tc_Options q;
           tc_Outputs := redactEncodedOutputs (tc_Outputs q) |}
  | Track q =>
      Track {| tr_RoomName := tr_RoomName q; tr_TrackId := tr_TrackId q;
               tr_Output := match tr_Output q with
                            | TrackFile f => TrackFile (redactUpload f)
                            | o => o
                            end |}
  end.

(** The [switch request.Request.(type)] of [Update]. *)
Definition requestCase `{Runtime} `{Validation} (request : Request)
    (p : PipelineConfig) : PipelineConfig * caseOutcome :=
  let p := withInfo (setInfoRequest (redactRequest request)) p in
  match request with
  | RoomComposite req =>
      let p := withSource (setSourceKind SourceTypeWeb webLatency) p in
      let p := withInfo (setRoomName (rc_RoomName req)) p in
      let baseUrl :=
        if negb (String.eqb (rc_CustomBaseUrl req) "")
        then rc_CustomBaseUrl req else TemplateBase (Base p) in
      let p := withSource (fun s => setWebParams true (rc_Layout req) baseUrl (WebUrl s) s) p in
      if notHttp baseUrl
      then (p, Returns (Some (ErrInvalidInput "template base url")))
      else
        encodedCase (rc_Options req) (rc_Outputs req) "audio_only and video_only" true
          (enableWebMedia (rc_AudioOnly req) (rc_VideoOnly req) p)
  | Web req =>
      let p := withSource (setSourceKind SourceTypeWeb webLatency) p in
      let p := withSource
                 (fun s => setWebParams (web_AwaitStartSignal req) (Layout s)
                             (BaseUrl s) (web_Url req) s) p in
      if notHttp (web_Url req)
      then (p, Returns (Some (ErrInvalidInput "web url")))
      else
        encodedCase (web_Options req) (web_Outputs req) "audio_only and video_only" false
          (enableWebMedia (web_AudioOnly req) (web_VideoOnly req) p)
  | TrackComposite req =>
      let p := withSource (setSourceKind SourceTypeSDK sdkLatency) p in
      let p := withInfo (setRoomName (tc_RoomName req)) p in
      let p :=
        if negb (String.eqb (tc_AudioTrackId req) "")
        then withSource (fun s => setTrackIDs (TrackID s) (tc_AudioTrackId req)
                                    (VideoTrackID s) s)
               (withAudio enableAudio p)
        else p in
      let p :=
        if negb (String.eqb (tc_VideoTrackId req) "")
        then withSource (fun s => setTrackIDs (TrackID s) (AudioTrackID s)
                                    (tc_VideoTrackId req) s)
               (withVideo enableVideo p)
        else p in
      encodedCase (tc_Options req) (tc_Outputs req) "audio_track_id or video_track_id" true p
  | Track req =>
      let p := withSource (setSourceKind SourceTypeSDK sdkLatency) p in
      let p := withInfo (setRoomName (tr_RoomName req)) p in
      let p := withSource (fun s => setTrackIDs (tr_TrackId req) (AudioTrackID s)
                                      (VideoTrackID s) s) p in
      if String.eqb (TrackID (Source p)) ""
      then (p, Returns (Some (ErrInvalidInput "track_id")))
      else
        match updateDirectOutput req p with
        | (p, Some err) => (p, Returns None)
        | (p, None) => (p, GoesOn true)
        end
  | NoRequest => (p, Returns (Some (ErrInvalidInput "request")))
  end.

(** The connection info that [Update] requires of every variant but [Web]. *)
Definition connectionInfo `{Validation} (request : StartEgressRequest)
    (p : PipelineConfig) : PipelineConfig * option error :=
  if String.eqb (RoomName (Info p)) ""
  then (p, Some (ErrInvalidInput "room_name"))
  else
    (* token *)
    let withToken : PipelineConfig * option error :=
      if negb (String.eqb (req_Token request) "")
      then (withSource (setToken (req_Token request)) p, None)
      else if negb (String.eqb (ApiKey (Base p)) "")
              && negb (String.eqb (ApiSecret (Base p)) "")
      then
        match BuildEgressToken (EgressId (Info p)) (ApiKey (Base p))
                (ApiSecret (Base p)) (RoomName (Info p)) with
        | Err err => (p, Some err)
        | Ok token => (withSource (setToken token) p, None)
        end
      else (p, Some (ErrInvalidInput "token or api key/secret")) in
    match withToken with
    | (p, Some err) => (p, Some err)
    | (p, None) =>
        (* url *)
        if negb (String.eqb (req_WsUrl request) "")
        then (withBase (setWsUrl (req_WsUrl request)) p, None)
        else if String.eqb (WsUrl (Base p)) ""
        then (p, Some (ErrInvalidInput "ws_url"))
        else (p, None)
    end.

(** [Update]: the configuration after the call and the returned error.
    [now] is the reading of the clock at the start; [nowInfo] and [nowPath]
    are the readings taken when the output type is resolved. *)
Definition Update `{Tables} `{Runtime} `{Ranging} `{Validation}
    (p : PipelineConfig) (request : StartEgressRequest)
    (now nowInfo nowPath : Time) : PipelineConfig * option error :=
  if String.eqb (req_EgressId request) ""
  then (p, Some (ErrInvalidInput "egressID"))
  else
    (* start with defaults *)
    let p := withInfo (fun _ => startingInfo request now) p in
    let p := withAudio (fun _ => defaultAudioConfig) p in
    let p := withVideo (fun _ => defaultVideoConfig) p in
    match requestCase (req_Request request) p with
    | (p, Returns err) => (p, err)
    | (p, GoesOn connectionInfoRequired) =>
        (* connection info *)
        let connected :=
          if connectionInfoRequired then connectionInfo request p else (p, None) in
        match connected with
        | (p, Some err) => (p, Some err)
        | (p, None) =>
            if String.eqb (TrackID (Source p)) ""
            then
              (* Track egress output format decision happens after join *)
              validateAndUpdateOutputParams p nowInfo nowPath
            else (p, None)
        end
    end.

End Config.

(* ===================================================================== *)
(** ** Package [pipeline]: the bus watch *)
(* ===================================================================== *)

Module Pipeline.
Import GoStrings Types Errors Go.

Definition msgClockProblem : string := "GStreamer error: clock problem.".
Definition msgStreamingNotNegotiated : string :=
  "streaming stopped, reason not-negotiated (-4)".
Definition msgMuxer : string := ":muxer".
Definition msgFragmentOpened : string := "splitmuxsink-fragment-opened".
Definition msgFragmentClosed : string := "splitmuxsink-fragment-closed".
Definition msgFirstSampleMetadata : string := "FirstSampleMetadata".

Definition fragmentLocation : string := "location".
Definition fragmentRunningTime : string := "running-time".

Definition elementGstRtmp2Sink : string := "GstRtmp2Sink".
Definition elementGstAppSrc : string := "GstAppSrc".
Definition elementSplitMuxSink : string := "GstSplitMuxSink".

(** *** Bus messages *)

Inductive State :=
| StateVoidPending
| StateNull
| StateReady
| StatePaused
| StatePlaying.

#[global] Instance State_eq_dec : EqDecision State.
Proof. solve_decision. Defined.

(** A value held by a [gst.Structure]. *)
Inductive GValue :=
| GString (s : string)
| GUint64 (n : Z)
| GOther.

Record Structure := {
  Name : string;
  Values : gmap string GValue
}.

(** A [gst.Message], by [msg.Type()], with what the handlers parse out of
    it. *)
Inductive GstMessage :=
| MessageEOS
| MessageWarning (gErr : GError)
| MessageError (gErr : GError)
| MessageStateChanged (source : string) (oldState newState : State)
| MessageElement (structure : option Structure)
| MessageOther.

(** *** Debug info *)

Definition newline : string := String (ascii_of_nat 10) EmptyString.

(** The longest prefix without a colon: the fourth group of the pattern. *)
Fixpoint untilColon (s : string) : string :=
  match s with
  | EmptyString => EmptyString
  | String c s' =>
      if Ascii.eqb c ":"%char then EmptyString else String c (untilColon s')
  end.

(** The pattern [regExp] of the debug info, which comes as
    [file.c(line): method_name (): /GstPipeline:pipeline/GstBin:bin_name/GstElement:element_name:]
    followed by a line break and the error message. *)
Definition regExp : string :=
  "(?s)(.*?)GstPipeline:pipeline\/GstBin:(.*?)\/(.*?):([^:]*)(:\n)?(.*)".

(** [regExp.FindStringSubmatch], reduced to the groups 3, 4 and 6 that
    [parseDebugInfo] reads; [None] is the [nil] slice of a string that does
    not match.  The lazy groups stop at the first occurrence of what follows
    them: a later occurrence admits a match only if the first one does.  The
    fourth group takes every byte up to the next colon, the fifth a colon
    and line break if they follow, the sixth the rest. *)
Definition findDebugSubmatch (debug : string) : option (string * string * string) :=
  let lit := "GstPipeline:pipeline/GstBin:" in
  match indexOf debug lit with
  | None => None
  | Some i =>
      let afterBin := sliceFrom (i + String.length lit) debug in
      match indexOf afterBin "/" with
      | None => None
      | Some j =>
          let afterSlash := sliceFrom (S j) afterBin in
          match indexOf afterSlash ":" with
          | None => None
          | Some k =>
              let group3 := sliceTo k afterSlash in
              let afterColon := sliceFrom (S k) afterSlash in
              let group4 := untilColon afterColon in
              let rest := sliceFrom (String.length group4) afterColon in
              let group6 :=
                if HasPrefix rest (":" +:+ newline)
                then sliceFrom 2 rest else rest in
              Some (group3, group4, group6)
          end
      end
  end.

(** The outcome of code that can panic. *)
Inductive outcome (A : Type) :=
| Done (a : A)
| Panic.
Arguments Done {A} a.
Arguments Panic {A}.

(** [parseDebugInfo]: indexing the [nil] match panics. *)
Definition parseDebugInfo (gErr : GError) : outcome (string * string * string) :=
  match findDebugSubmatch (DebugString gErr) with
  | Some groups => Done groups
  | None => Panic
  end.

(** *** The pipeline *)

(** The calls that the watch makes on the rest of the pipeline, on the
    source, on the sinks and on the logger. *)
Inductive Call :=
| TimerStop
| TimerReset
| Stop
| GetStreamUrl (name : string)
| RemoveSink (url : string) (cause : GError)
| StreamStopped (name : string)
| SourcePlaying (name : string)
| UpdateStartTime (startedAt : Z)
| StartSegment (filepath : string) (t : Z)
| EnqueueSegmentUpload (filepath : string) (t : Z)
| UpdateStartDate (startDate : Z)
| LogInfo (msg : string)
| LogDebug (msg : string)
| LogWarn (msg : string)
| LogError (msg : string).

(** What lies behind those calls is not among the sources.  [World] is the
    state they work on (sinks, source, outputs, egress info); each call maps
    the state before to the state after and to what the call returns. *)
Class Collaborators := {
  World : Type;
  (** [p.stop()] *)
  stop : World -> World;
  (** [p.out.GetStreamUrl(name)] *)
  getStreamUrl : World -> string -> result string;
  (** [p.removeSink(ctx, url, gErr)] *)
  removeSink : World -> string -> GError -> World * option error;
  (** whether [p.src] is a [*source.SDKSource] *)
  isSDKSource : World -> bool;
  (** [SDKSource.StreamStopped], [SDKSource.Playing], [SDKSource.GetStartTime] *)
  streamStopped : World -> string -> World;
  sourcePlaying : World -> string -> World;
  getStartTime : World -> Z;
  (** [p.updateStartTime(startedAt)] *)
  updateStartTime : World -> Z -> World;
  (** whether [p.sinks] holds a [*sink.SegmentSink] for segments *)
  hasSegmentSink : World -> bool;
  (** [SegmentSink.StartSegment], [EnqueueSegmentUpload], [UpdateStartDate] *)
  startSegment : World -> string -> Z -> World * option error;
  enqueueSegmentUpload : World -> string -> Z -> World * option error;
  updateStartDate : World -> Z -> World;
  (** [s.UnmarshalInto(&firstSampleMetadata)]: the start date *)
  unmarshalFirstSampleMetadata : Structure -> result Z;
  (** the names of the elements that post state changes *)
  AudioAppSource : string;
  VideoAppSource : string;
  pipelineSource : string
}.

(** The fields of [Pipeline] that the watch itself reads and writes, the
    world behind its calls, and the record of the calls made so far. *)
Record Pipeline `{Collaborators} := {
  playing : bool;
  (** [p.closed.IsBroken()] *)
  closed : bool;
  (** whether [p.eosTimer] is set *)
  eosTimer : bool;
  SourceType_ : SourceType;
  (** the errors sent on [p.Failure] *)
  Failure : list error;
  world : World;
  calls : list Call
}.

Section Watch.
Context `{Collaborators}.

Definition called (c : Call) (p : Pipeline) : Pipeline :=
  {| playing := playing p; closed := closed p; eosTimer := eosTimer p;
     SourceType_ := SourceType_ p; Failure := Failure p; world := world p;
     calls := calls p ++ [c] |}.

Definition withWorld (w : World) (p : Pipeline) : Pipeline :=
  {| playing := playing p; closed := closed p; eosTimer := eosTimer p;
     SourceType_ := SourceType_ p; Failure := Failure p; world := w;
     calls := calls p |}.

Definition setPlaying (p : Pipeline) : Pipeline :=
  {| playing := true; closed := closed p; eosTimer := eosTimer p;
     SourceType_ := SourceType_ p; Failure := Failure p; world := world p;
     calls := calls p |}.

(** [p.Failure <- err] *)
Definition sendFailure (err : error) (p : Pipeline) : Pipeline :=
  {| playing := playing p; closed := closed p; eosTimer := eosTimer p;
     SourceType_ := SourceType_ p; Failure := Failure p ++ [err]; world := world p;
     calls := calls p |}.

(** [handleMessageEOS]. *)
Definition handleMessageEOS (p : Pipeline) : Pipeline :=
  let p := if eosTimer p then called TimerStop p else p in
  let p := called (LogInfo "EOS received, stopping pipeline") p in
  withWorld (stop (world p)) (called Stop p).

(** [handleMessageWarning]. *)
Definition handleMessageWarning (gErr : GError) (p : Pipeline)
    : outcome (Pipeline * option error) :=
  match parseDebugInfo gErr with
  | Panic => Panic
  | Done (element, _, message) =>
      if String.eqb (Message gErr) msgClockProblem then
        let err := ErrGstPipelineError gErr in
        Done (called (LogError message) p, Some err)
      else
        Done (called (LogWarn message) p, None)
  end.

(** [handleMessageError]. *)
Definition handleMessageError (gErr : GError) (p : Pipeline)
    : outcome (Pipeline * option error) :=
  match parseDebugInfo gErr with
  | Panic => Panic
  | Done (element, name, message) =>
      (* input failure or file write failure. Fatal *)
      let fatal (p : Pipeline) :=
        Done (called (LogError message) p, Some (ErrGstPipelineError gErr)) in
      if String.eqb element elementGstRtmp2Sink then
        (* bad URI or could not connect. Remove rtmp output *)
        let p := called (GetStreamUrl name) p in
        match getStreamUrl (world p) name with
        | Err err => Done (called (LogWarn "rtmp output not found") p, Some err)
        | Ok url =>
            let '(w, err) := removeSink (world p) url gErr in
            Done (withWorld w (called (RemoveSink url gErr) p), err)
        end
      else if String.eqb element elementGstAppSrc then
        if String.eqb message msgStreamingNotNegotiated then
          (* send eos to app src *)
          let p := called (LogDebug "streaming stopped") p in
          if isSDKSource (world p)
          then Done (withWorld (streamStopped (world p) name)
                       (called (StreamStopped name) p), None)
          else Panic
        else fatal p
      else if String.eqb element elementSplitMuxSink then
        (* We sometimes get GstSplitMuxSink errors if send EOS before the
           first media was sent to the mux *)
        if String.eqb message msgMuxer && closed p
        then Done (called (LogDebug "GstSplitMuxSink failure after sending EOS") p, None)
        else fatal p
      else fatal p
  end.

(** [handleMessageStateChanged]; [now] is the reading of
    [time.Now().UnixNano()]. *)
Definition handleMessageStateChanged (source : string) (newState : State)
    (now : Z) (p : Pipeline) : outcome Pipeline :=
  if playing p then Done p
  else if negb (bool_decide (newState = StatePlaying)) then Done p
  else if String.eqb source AudioAppSource || String.eqb source VideoAppSource then
    let p := called (LogInfo (source +:+ " playing")) p in
    if isSDKSource (world p)
    then Done (withWorld (sourcePlaying (world p) source)
                 (called (SourcePlaying source) p))
    else Panic
  else if String.eqb source pipelineSource then
    let p := called (LogInfo "pipeline playing") p in
    let p := setPlaying p in
    match SourceType_ p with
    | SourceTypeSDK =>
        if isSDKSource (world p) then
          let t := getStartTime (world p) in
          Done (withWorld (updateStartTime (world p) t) (called (UpdateStartTime t) p))
        else Panic
    | SourceTypeWeb =>
        Done (withWorld (updateStartTime (world p) now) (called (UpdateStartTime now) p))
    | SourceTypeUnset => Done p
    end
  else Done p.

(** [int64(ti)] for a [uint64]. *)
Definition toInt64 (n : Z) : Z :=
  if n <? 2 ^ 63 then n else n - 2 ^ 64.

(** [getSegmentParamsFromGstStructure]. *)
Definition getSegmentParamsFromGstStructure (s : Structure) : result (string * Z) :=
  match Values s !! fragmentLocation with
  | None => Err (External "field not found")
  | Some loc =>
      match loc with
      | GString filepath =>
          match Values s !! fragmentRunningTime with
          | None => Err (External "field not found")
          | Some (GUint64 ti) => Ok (filepath, toInt64 ti)
          | Some _ =>
              Err (ErrGstPipelineError
                     {| Message := "invalid type for time"; DebugString := "" |})
          end
      | _ =>
          Err (ErrGstPipelineError
                 {| Message := "invalid type for location"; DebugString := "" |})
      end
  end.

Definition resetTimer (p : Pipeline) : Pipeline :=
  if eosTimer p then called TimerReset p else p.

(** [handleMessageElement]. *)
Definition handleMessageElement (structure : option Structure) (p : Pipeline)
    : outcome (Pipeline * option error) :=
  match structure with
  | None => Done (p, None)
  | Some s =>
      if String.eqb (Name s) msgFragmentOpened then
        let p := resetTimer p in
        match getSegmentParamsFromGstStructure s with
        | Err err =>
            Done (called (LogError "failed to retrieve segment parameters from event") p,
                  Some err)
        | Ok (filepath, t) =>
            if hasSegmentSink (world p) then
              let '(w, err) := startSegment (world p) filepath t in
              let p := withWorld w (called (StartSegment filepath t) p) in
              match err with
              | Some e =>
                  Done (called (LogError
                          "failed to register new segment with playlist writer") p,
                        Some e)
              | None => Done (p, None)
              end
            else Panic
        end
      else if String.eqb (Name s) msgFragmentClosed then
        let p := resetTimer p in
        match getSegmentParamsFromGstStructure s with
        | Err err =>
            Done (called (LogError "failed to retrieve segment parameters from event") p,
                  Some err)
        | Ok (filepath, t) =>
            let p := called (LogDebug "fragment closed") p in
            if hasSegmentSink (world p) then
              let '(w, err) := enqueueSegmentUpload (world p) filepath t in
              let p := withWorld w (called (EnqueueSegmentUpload filepath t) p) in
              match err with
              | Some e =>
                  Done (called (LogError
                          "failed to end segment with playlist writer") p,
                        Some e)
              | None => Done (p, None)
              end
            else Panic
        end
      else if String.eqb (Name s) msgFirstSampleMetadata then
        match unmarshalFirstSampleMetadata s with
        | Err err => Done (p, Some err)
        | Ok startDate =>
            let p := called (LogDebug "received FirstSampleMetadata message") p in
            if hasSegmentSink (world p)
            then Done (withWorld (updateStartDate (world p) startDate)
                         (called (UpdateStartDate startDate) p), None)
            else Panic
        end
      else Done (p, None)
  end.

(** [messageWatch]: whether the watch goes on, and the pipeline after the
    message. *)
Definition messageWatch (msg : GstMessage) (now : Z) (p : Pipeline)
    : outcome (bool * Pipeline) :=
  let handled : outcome (Pipeline * option error) + Pipeline :=
    match msg with
    | MessageEOS => inr (handleMessageEOS p)
    | MessageWarning gErr => inl (handleMessageWarning gErr p)
    | MessageError gErr => inl (handleMessageError gErr p)
    | MessageStateChanged source _ newState =>
        inl (match handleMessageStateChanged source newState now p with
             | Done p => Done (p, None)
             | Panic => Panic
             end)
    | MessageElement structure => inl (handleMessageElement structure p)
    | MessageOther => inl (Done (p, None))
    end in
  match handled with
  | inr p => Done (false, p)
  | inl Panic => Panic
  | inl (Done (p, Some err)) => Done (false, sendFailure err p)
  | inl (Done (p, None)) => Done (true, p)
  end.

(** The watch over the messages of a run, each with the reading of the clock
    when it is handled: it ends when [messageWatch] returns [false] or
    panics.  The result is the pipeline when the watch ends. *)
Fixpoint watchRun (msgs : list (GstMessage * Z)) (p : Pipeline) : Pipeline :=
  match msgs with
  | [] => p
  | (msg, now) :: msgs' =>
      match messageWatch msg now p with
      | Panic => p
      | Done (false, p') => p'
      | Done (true, p') => watchRun msgs' p'
      end
  end.

End Watch.

End Pipeline.

(* ===================================================================== *)
(** ** Package [service]: the handler *)
(* ===================================================================== *)

Module Service.
Import GoPath Types Errors Go Config.

Definition network : string := "unix".

(** [getSocketAddress]. *)
Definition getSocketAddress (handlerTmpDir : string) : string :=
  Join [handlerTmpDir; "service_rpc.sock"].

(** What [NewHandler] asks of the RPC library, of the network and of package
    [pipeline], none of which is among the sources. *)
Class Startup := {
  (** a built [*pipeline.Pipeline] *)
  PipelineHandle : Type;
  (** [rpc.NewEgressHandlerServer(conf.HandlerID, h, bus)] *)
  NewEgressHandlerServer : string -> option error;
  RegisterUpdateStreamTopic : string -> option error;
  RegisterStopEgressTopic : string -> option error;
  (** [net.Listen(network, address)] *)
  Listen : string -> string -> option error;
  (** [pipeline.New(ctx, conf, onStatusUpdate)]: the configuration after the
      call (it is passed by pointer), the updates that the constructor itself
      pushed through [onStatusUpdate], and its result *)
  pipelineNew : PipelineConfig -> PipelineConfig * list EgressInfo * result PipelineHandle;
  (** [errors.IsFatal] *)
  IsFatal : error -> bool;
  (** [err.Error()] *)
  errorText : error -> string
}.

Record Handler `{Startup} := {
  conf : PipelineConfig;
  pipeline : PipelineHandle
}.

(** What [NewHandler] leaves behind: its result, the configuration behind
    the pointer it was given, and the updates delivered to the I/O client by
    [sendUpdate], oldest first. *)
Record Started `{Startup} := {
  returned : result Handler;
  confAfter : PipelineConfig;
  sent : list EgressInfo
}.

(** The writes of [NewHandler] to [conf.Info] on a user error. *)
Definition failedInfo (now : Z) (errText : string) (i : EgressInfo) : EgressInfo :=
  {| EgressId := EgressId i; RoomId := RoomId i; RoomName := RoomName i;
     Status := EGRESS_FAILED; UpdatedAt := now; EndedAt := now;
     Error := errText; InfoRequest := InfoRequest i |}.

(** [NewHandler]; [now] is the reading of [time.Now().UnixNano()]. *)
Definition NewHandler `{Startup} (conf : PipelineConfig) (now : Z) : Started :=
  let fatal (err : error) :=
    {| returned := Err (Fatal err); confAfter := conf; sent := [] |} in
  match NewEgressHandlerServer (HandlerID conf) with
  | Some err => fatal err
  | None =>
  match RegisterUpdateStreamTopic (EgressId (Info conf)) with
  | Some err => fatal err
  | None =>
  match RegisterStopEgressTopic (EgressId (Info conf)) with
  | Some err => fatal err
  | None =>
  match Listen network (getSocketAddress (TmpDir conf)) with
  | Some err => fatal err
  | None =>
      match pipelineNew conf with
      | (conf, pushed, Err err) =>
          if negb (IsFatal err) then
            (* user error, send update *)
            let conf := withInfo (failedInfo now (errorText err)) conf in
            {| returned := Err err; confAfter := conf;
               sent := pushed ++ [Info conf] |}
          else
            {| returned := Err err; confAfter := conf; sent := pushed |}
      | (conf, pushed, Ok pl) =>
          {| returned := Ok {| conf := conf; pipeline := pl |};
             confAfter := conf; sent := pushed |}
      end
  end end end end.

End Service.

(* ===================================================================== *)
(** ** Package [config]: the other functions of the output files *)
(* ===================================================================== *)

Module ConfigRest.
Import GoStrings GoPath GoTime Types Errors Go Config.
Import Pipeline (outcome, Done, Panic).

(** [getEncodedFileConfig]. *)
Definition getEncodedFileConfig `{Tables} `{Runtime} `{Ranging}
    (p : PipelineConfig) (fileType : EncodedFileType) (file : fileOutput)
    (now now' : Time) : result FileConfig :=
  let outputType :=
    match fileType with
    | DEFAULT_FILETYPE => OutputTypeUnknownFile
    | MP4 => OutputTypeMP4
    | OGG => OutputTypeOGG
    end in
  getFileConfig p outputType file now now'.

(** [p.Outputs[key]]: the entry stored under an egress type. *)
Definition lookupOutput (key : EgressType) (p : PipelineConfig)
    : option OutputConfig :=
  snd <$> List.find (fun e => bool_decide (e.1 = key)) (Outputs p).

(** [GetStreamConfig] and [GetWebsocketConfig]: [Done None] is [nil]; the
    type assertion panics on an entry that is no [*StreamConfig]. *)
Definition assertStreamConfig (o : option OutputConfig)
    : outcome (option StreamConfig) :=
  match o with
  | None => Done None
  | Some (OfStream c) => Done (Some c)
  | Some _ => Panic
  end.

Definition GetStreamConfig (p : PipelineConfig) : outcome (option StreamConfig) :=
  assertStreamConfig (lookupOutput EgressTypeStream p).

Definition GetWebsocketConfig (p : PipelineConfig) : outcome (option StreamConfig) :=
  assertStreamConfig (lookupOutput EgressTypeWebsocket p).

(** Writing through the pointer stored under [EgressTypeSegments]. *)
Definition setSegmentConfig (c : SegmentConfig) (p : PipelineConfig)
    : PipelineConfig :=
  withOutputs
    (List.map (fun e => if bool_decide (e.1 = EgressTypeSegments)
                        then (EgressTypeSegments, OfSegments c) else e) (Outputs p))
    (OutputCount p) p.

(** The five substitutions that [UpdateInfoFromSDK] makes in a segment
    output; [visits i] is the order in which the [i]-th call of
    [stringReplace] visits the replacements. *)
Definition substituteSegment (visits : nat -> list (string * string))
    (o : SegmentConfig) : SegmentConfig :=
  {| segmentOutputConfig := segmentOutputConfig o;
     LocalDir := stringReplace (LocalDir o) (visits 1%nat);
     StorageDir := stringReplace (StorageDir o) (visits 2%nat);
     PlaylistFilename := stringReplace (PlaylistFilename o) (visits 3%nat);
     SegmentPrefix := stringReplace (SegmentPrefix o) (visits 4%nat);
     PlaylistName := stringReplace (PlaylistName o) (visits 5%nat) |}.

(** The loop of [UpdateInfoFromSDK] over the entries of [p.Outputs] still to
    visit.  The file case returns from the function. *)
Fixpoint updateInfoLoop `{Tables} `{Runtime} (identifier : string)
    (visits : nat -> list (string * string)) (now : Time)
    (toVisit : list (EgressType * OutputConfig)) (p : PipelineConfig)
    : outcome (PipelineConfig * option error) :=
  match toVisit with
  | [] => Done (p, None)
  | (EgressTypeFile, c) :: _ =>
      match c with
      | OfFile o =>
          let '(o', err) := updateFilepath o p identifier (visits 0%nat) now in
          Done (setFileConfig o' p, err)
      | _ => Panic
      end
  | (EgressTypeSegments, c) :: rest =>
      match c with
      | OfSegments o =>
          updateInfoLoop identifier visits now rest
            (setSegmentConfig (substituteSegment visits o) p)
      | _ => Panic
      end
  | _ :: rest => updateInfoLoop identifier visits now rest p
  end.

(** [UpdateInfoFromSDK]. *)
Definition UpdateInfoFromSDK `{Tables} `{Runtime} `{Ranging}
    (p : PipelineConfig) (identifier : string)
    (visits : nat -> list (string * string)) (now : Time)
    : outcome (PipelineConfig * option error) :=
  updateInfoLoop identifier visits now (visitOutputs 4 (Outputs p)) p.

End ConfigRest.

(* ===================================================================== *)
(** ** Package [service]: the deprecated handler and the process manager *)
(* ===================================================================== *)

Module ServiceV0.
Import Types Errors Go Config Service.

(** The writes of [buildPipeline] to [conf.Info] on an error. *)
Definition failedInfoV0 (errText : string) (i : EgressInfo) : EgressInfo :=
  {| EgressId := EgressId i; RoomId := RoomId i; RoomName := RoomName i;
     Status := EGRESS_FAILED; UpdatedAt := UpdatedAt i; EndedAt := EndedAt i;
     Error := errText; InfoRequest := InfoRequest i |}.

(** What [buildPipeline] leaves behind: its result, the configuration behind
    [h.conf], and the updates handed to [rpcServer.SendUpdate]. *)
Record Built `{Startup} := {
  built : result PipelineHandle;
  confBuilt : PipelineConfig;
  sentV0 : list EgressInfo
}.

(** [HandlerV0.buildPipeline]. *)
Definition buildPipeline `{Startup} (conf : PipelineConfig) : Built :=
  match pipelineNew conf with
  | (conf, pushed, Err err) =>
      let conf := withInfo (failedInfoV0 (errorText err)) conf in
      {| built := Err err; confBuilt := conf; sentV0 := pushed ++ [Info conf] |}
  | (conf, pushed, Ok pl) =>
      {| built := Ok pl; confBuilt := conf; sentV0 := pushed |}
  end.

(** The start of [HandlerV0.Run]: what it returns when the pipeline cannot
    be built; [None] when the pipeline is built and the handler goes on to
    serve requests. *)
Definition runBuild `{Startup} (conf : PipelineConfig) : option (option error) :=
  match built (buildPipeline conf) with
  | Err err => if IsFatal err then Some (Some err) else Some None
  | Ok _ => None
  end.

End ServiceV0.

Module Manager.
Import GoPath Types Errors Go Config Service.

(** A launched handler process, as [process] keeps it; [client] stands for
    the gRPC client, by the socket address it dials. *)
Record process := {
  handlerID : string;
  req : StartEgressRequest;
  info : EgressInfo;
  client : string;
  closed : bool
}.

(** The process manager: the active handlers by egress id, and what it told
    the monitor and the fatal-error callback, oldest first. *)
Record ProcessManager := {
  conf : BaseConfig;
  activeHandlers : gmap string process;
  egressStarted : list string;
  egressEnded : list string;
  fatalErrors : list EgressInfo
}.

(** What [launchHandler] asks of the runtime. *)
Class Launcher := {
  (** [utils.NewGuid("EGH_")] *)
  NewGuid : string -> string;
  (** [os.TempDir()] *)
  TempDir : string;
  (** [yaml.Marshal(p)] for the handler's configuration *)
  yamlMarshal : BaseConfig -> string -> string -> result string;
  (** [protojson.Marshal(req)] *)
  protojsonMarshal : StartEgressRequest -> result string;
  (** [cmd.Start()] of the handler, by its config, request and version *)
  cmdStart : string -> string -> Z -> option error;
  (** [grpc.Dial(socketAddr, ...)] *)
  grpcDial : string -> option error
}.

(** [NewProcessManager]. *)
Definition NewProcessManager (c : BaseConfig) : ProcessManager :=
  {| conf := c; activeHandlers := ∅; egressStarted := []; egressEnded := [];
     fatalErrors := [] |}.

Definition withHandlers (m : gmap string process) (s : ProcessManager)
    : ProcessManager :=
  {| conf := conf s; activeHandlers := m; egressStarted := egressStarted s;
     egressEnded := egressEnded s; fatalErrors := fatalErrors s |}.

Definition noteStarted (id : string) (s : ProcessManager) : ProcessManager :=
  {| conf := conf s; activeHandlers := activeHandlers s;
     egressStarted := egressStarted s ++ [id];
     egressEnded := egressEnded s; fatalErrors := fatalErrors s |}.

Definition noteEnded (id : string) (s : ProcessManager) : ProcessManager :=
  {| conf := conf s; activeHandlers := activeHandlers s;
     egressStarted := egressStarted s;
     egressEnded := egressEnded s ++ [id]; fatalErrors := fatalErrors s |}.

Definition noteFatal (i : EgressInfo) (s : ProcessManager) : ProcessManager :=
  {| conf := conf s; activeHandlers := activeHandlers s;
     egressStarted := egressStarted s;
     egressEnded := egressEnded s; fatalErrors := fatalErrors s ++ [i] |}.

(** [launchHandler]: the manager after the call and the error.  The
    goroutine [awaitCleanup] that it starts is the separate step below. *)
Definition launchHandler `{Launcher} (s : ProcessManager)
    (request : StartEgressRequest) (i : EgressInfo) (version : Z)
    : ProcessManager * option error :=
  let id := NewGuid "EGH_" in
  let tmpDir := Join [TempDir; id] in
  match yamlMarshal (conf s) id tmpDir with
  | Err err => (s, Some err)
  | Ok confString =>
      match protojsonMarshal request with
      | Err err => (s, Some err)
      | Ok reqString =>
          match cmdStart confString reqString version with
          | Some err => (s, Some err)
          | None =>
              let s := noteStarted (req_EgressId request) s in
              let socketAddr := getSocketAddress tmpDir in
              match grpcDial socketAddr with
              | Some err => (s, Some err)
              | None =>
                  let h := {| handlerID := id; req := request; info := i;
                              client := socketAddr; closed := false |} in
                  (withHandlers (<[req_EgressId request := h]> (activeHandlers s)) s,
                   None)
              end
          end
      end
  end.

(** The writes of [awaitCleanup] to [h.info] when the process failed. *)
Definition internalError (now : Z) (i : EgressInfo) : EgressInfo :=
  {| EgressId := EgressId i; RoomId := RoomId i; RoomName := RoomName i;
     Status := EGRESS_FAILED; UpdatedAt := now; EndedAt := now;
     Error := "internal error"; InfoRequest := InfoRequest i |}.

(** [awaitCleanup], once [h.cmd.Wait()] has returned [waited]; [now] is the
    reading of the clock. *)
Definition awaitCleanup (s : ProcessManager) (h : process)
    (waited : option error) (now : Z) : ProcessManager :=
  let s :=
    match waited with
    | Some _ => noteFatal (internalError now (info h)) s
    | None => s
    end in
  let s := noteEnded (req_EgressId (req h)) s in
  withHandlers (delete (req_EgressId (req h)) (activeHandlers s)) s.

(** [isIdle]. *)
Definition isIdle (s : ProcessManager) : bool :=
  (size (activeHandlers s) =? 0)%nat.

(** [listEgress]: the ids, in the order in which the map is visited. *)
Definition listEgress (s : ProcessManager) : list string :=
  (map_to_list (activeHandlers s)).*1.

(** [getGRPCClient]. *)
Definition getGRPCClient (s : ProcessManager) (egressID : string) : result string :=
  match activeHandlers s !! egressID with
  | Some h => Ok (client h)
  | None => Err ErrEgressNotFound
  end.

End Manager.

(* ===================================================================== *)
(** ** Instances of what is outside the sources, and the spec's wording *)
(* ===================================================================== *)

Module Samples.
Import GoStrings GoPath GoTime Types Errors Go Config.

Definition isLetter (c : ascii) : bool :=
  inRange 97 122 c || inRange 65 90 c.

Definition isSchemeMark (c : ascii) : bool :=
  inRange 48 57 c || Ascii.eqb c "+" || Ascii.eqb c "-" || Ascii.eqb c ".".

(** The scheme of a URL as [getScheme] of [net/url] finds it: the letters,
    digits and marks before the first colon; [inl] is the error of a URL that
    starts with a colon. *)
Fixpoint getScheme (i : nat) (rawURL rest : string) : string + string :=
  match rest with
  | EmptyString => inr EmptyString
  | String c rest' =>
      if isLetter c then getScheme (S i) rawURL rest'
      else if isSchemeMark c then
        if (i =? 0)%nat then inr EmptyString else getScheme (S i) rawURL rest'
      else if Ascii.eqb c ":" then
        if (i =? 0)%nat then inl "missing protocol scheme"
        else inr (sliceTo i rawURL)
      else inr EmptyString
  end.

Definition toLower (c : ascii) : ascii :=
  if inRange 65 90 c then ascii_of_N (byteOf c + 32) else c.

Fixpoint ToLower (s : string) : string :=
  match s with
  | EmptyString => EmptyString
  | String c s' => String (toLower c) (ToLower s')
  end.

(** Modelled from the spec: [util.RedactStreamKey], missing from the sources;
    "RTMP URLs must match rtmp(s)://host[/path]/app/stream_key[ live=1] and
    are redacted for logging (stream key elided)". *)
Definition redactStreamKey (rawUrl : string) : option string :=
  let body :=
    if HasPrefix rawUrl "rtmp://" then Some (sliceFrom 7 rawUrl)
    else if HasPrefix rawUrl "rtmps://" then Some (sliceFrom 8 rawUrl)
    else None in
  match body with
  | None => None
  | Some b =>
      match indexOf b "/", lastIndexOf b "/" with
      | Some first, Some last =>
          if (first <? last)%nat && (S last <? String.length b)%nat
          then Some (sliceTo (String.length rawUrl - String.length b + S last) rawUrl
                     +:+ "{stream_key}")
          else None
      | _, _ => None
      end
  end.

(** A runtime to run the code on concrete requests: every directory can be
    made, a URL parses to its lower-cased scheme, and a file is uploaded
    where its request says. *)
Definition sampleRuntime : Runtime := {|
  MkdirAll := fun _ => None;
  urlParse := fun rawUrl =>
    match getScheme 0 rawUrl rawUrl with
    | inl errText => inl errText
    | inr scheme => inr {| Scheme := ToLower scheme |}
    end;
  RedactStreamKey := redactStreamKey;
  getUploadConfig := fun _ upload => upload
|}.

(** Modelled from the spec: [updateDirectOutput], missing from the sources.
    A track request has a file output or a raw websocket output ("Track
    variant also allows websocket"); the output is configured by
    [getDirectFileConfig] or by [getStreamConfig], whose errors ("malformed
    URLs") are returned, and is stored as the single output. *)
Definition directOutput `{Tables} `{Runtime} `{Ranging} (now now' : Time)
    (req : TrackEgressRequest) (p : PipelineConfig)
    : PipelineConfig * option error :=
  match tr_Output req with
  | TrackFile file =>
      match getDirectFileConfig p file now now' with
      | Err err => (p, Some err)
      | Ok conf => (withOutputs [(EgressTypeFile, OfFile conf)] 1 p, None)
      end
  | TrackWebsocketUrl url =>
      match getStreamConfig p OutputTypeRaw [url] with
      | (p, Err err) => (p, Some err)
      | (p, Ok conf) => (withOutputs [(EgressTypeWebsocket, OfStream conf)] 1 p, None)
      end
  | NoTrackOutput => (p, Some (ErrInvalidInput "output"))
  end.

(** The other functions that [Update] calls are not exercised by track
    requests: here advanced options pin the codecs that they name, and the
    rest leaves the configuration as it is. *)
Definition sampleValidation `{Tables} `{Runtime} `{Ranging} (now now' : Time)
    : Validation := {|
  applyPreset := fun _ p => p;
  applyAdvanced := fun advanced p =>
    (withVideo (setVideoOutCodec (VideoCodecOption advanced))
       (withAudio (setAudioOutCodec (AudioCodecOption advanced)) p), None);
  updateEncodedOutputs := fun _ p => (p, None);
  updateDirectOutput := directOutput now now';
  redactEncodedOutputs := fun o => o;
  redactUpload := fun f => f;
  BuildEgressToken := fun egressId _ _ room => Ok (egressId +:+ ":" +:+ room)
|}.

Definition noon : Time :=
  {| year := 2024; month := 1; day := 2; hour := 12; minute := 34; second := 56;
     unixNano := 1704198896000000000 |}.

Definition emptyInfo : EgressInfo :=
  {| EgressId := ""; RoomId := ""; RoomName := ""; Status := EGRESS_STARTING;
     UpdatedAt := 0; EndedAt := 0; Error := ""; InfoRequest := NoRequest |}.

(** The configuration that [GetValidatedPipelineConfig] starts from. *)
Definition emptyConfig : PipelineConfig :=
  {| Base := {| TemplateBase := ""; ApiKey := ""; ApiSecret := ""; WsUrl := "";
                LocalOutputDirectory := "" |};
     HandlerID := ""; TmpDir := "";
     Source := {| Config.SourceType_ := SourceTypeUnset; Latency := 0;
                  AwaitStartSignal := false; Layout := ""; Token := "";
                  BaseUrl := ""; WebUrl := ""; TrackID := ""; AudioTrackID := "";
                  VideoTrackID := ""; AudioInCodec := ""; VideoInCodec := "" |};
     Audio := {| AudioEnabled := false; AudioTranscoding := false;
                 AudioOutCodec := ""; AudioBitrate := 0; AudioFrequency := 0 |};
     Video := {| VideoEnabled := false; VideoTranscoding := false;
                 VideoOutCodec := ""; VideoProfile := ProfileMain; Width := 0;
                 Height := 0; Depth := 0; Framerate := 0; VideoBitrate := 0;
                 KeyFrameInterval := 0%float |};
     Outputs := []; OutputCount := 0; Info := emptyInfo |}.

(** A file output of the given type at the given storage path. *)
Definition fileAt (t : OutputType) (path : string) : FileConfig :=
  {| fileOutputConfig := {| OutputType_ := t |};
     FileInfo_ := {| Filename := "" |};
     LocalFilepath := ""; StorageFilepath := path;
     DisableManifest := false; UploadConfig := None |}.

(** A video-only configuration with H264 pinned and one OGG file output. *)
Definition videoPinnedToOgg : PipelineConfig :=
  withOutputs [(EgressTypeFile, OfFile (fileAt OutputTypeOGG "out.ogg"))] 1
    (withVideo (fun v => setVideoOutCodec MimeTypeH264 (enableVideo v)) emptyConfig).

(** A track request for a websocket output at an [http] URL. *)
Definition trackToHttp : StartEgressRequest :=
  {| req_EgressId := "EG_1"; req_RoomId := "RM_1"; req_Token := "token";
     req_WsUrl := "wss://example.com";
     req_Request :=
       Track {| tr_RoomName := "demo"; tr_TrackId := "TR_1";
                tr_Output := TrackWebsocketUrl "http://example.com/feed" |} |}.

(** The storage path as the spec words it: "if the path does not end in the
    correct extension but ends in a different recognized extension, that
    extension is stripped and the correct one appended; otherwise the correct
    extension is appended to the path unchanged". *)
Definition claimedStoragePath `{Tables} (ext : FileExtension)
    (identifier : string) (now : Time) (path : string) : string :=
  if String.eqb path "" || HasSuffix path "/" then
    path +:+ identifier +:+ "-" +:+ formatStamp now +:+ ext
  else
    match List.find (fun e => HasSuffix path e && negb (String.eqb e ext))
                    (elements FileExtensions) with
    | Some e =>
        if negb (HasSuffix path ext)
        then sliceTo (String.length path - String.length e) path +:+ ext
        else path +:+ ext
    | None => path +:+ ext
    end.

(** A recognized extension is a dot followed by bytes other than a dot. *)
Definition dottedExtension (e : FileExtension) : bool :=
  match e with
  | String c rest => Ascii.eqb c "." && negb (Contains rest ".")
  | EmptyString => false
  end.

(** Modelled from the spec: the world behind the watch, missing from the
    sources.  "A URL is bound to exactly one dynamic sink element; the binding
    table is consulted by the pipeline's error handler."  "Removing the last
    URL of a stream output does not tear down the pipeline if other outputs
    remain; if the removed URL was the only sink of any kind, the pipeline
    transitions to Ending with FAILED." *)
Record SinkWorld := {
  (** element name to URL *)
  bindings : gmap string string;
  (** the outputs other than stream URLs *)
  otherOutputs : nat;
  (** the start time that an SDK source reports; [None] for a web source *)
  sdkStartTime : option Z;
  segmentSink : bool;
  (** the start times that the job was given *)
  startedAt : list Z
}.

Definition withBindings (b : gmap string string) (w : SinkWorld) : SinkWorld :=
  {| bindings := b; otherOutputs := otherOutputs w;
     sdkStartTime := sdkStartTime w; segmentSink := segmentSink w;
     startedAt := startedAt w |}.

Definition boundSinks : Pipeline.Collaborators := {|
  Pipeline.World := SinkWorld;
  Pipeline.stop := fun w => w;
  Pipeline.getStreamUrl := fun w name =>
    match bindings w !! name with
    | Some url => Ok url
    | None => Err (External "stream not found")
    end;
  Pipeline.removeSink := fun w url gErr =>
    let remaining := filter (fun kv => kv.2 <> url) (bindings w) in
    (withBindings remaining w,
     if (size remaining =? 0)%nat && (otherOutputs w =? 0)%nat
     then Some (External (Message gErr)) else None);
  Pipeline.isSDKSource := fun w => bool_decide (is_Some (sdkStartTime w));
  Pipeline.streamStopped := fun w _ => w;
  Pipeline.sourcePlaying := fun w _ => w;
  Pipeline.getStartTime := fun w => default 0 (sdkStartTime w);
  Pipeline.updateStartTime := fun w t =>
    {| bindings := bindings w; otherOutputs := otherOutputs w;
       sdkStartTime := sdkStartTime w; segmentSink := segmentSink w;
       startedAt := startedAt w ++ [t] |};
  Pipeline.hasSegmentSink := segmentSink;
  Pipeline.startSegment := fun w _ _ => (w, None);
  Pipeline.enqueueSegmentUpload := fun w _ _ => (w, None);
  Pipeline.updateStartDate := fun w _ => w;
  Pipeline.unmarshalFirstSampleMetadata := fun s =>
    match Pipeline.Values s !! "startDate" with
    | Some (Pipeline.GUint64 t) => Ok t
    | _ => Err (External "could not unmarshal")
    end;
  Pipeline.AudioAppSource := "audioAppSrc";
  Pipeline.VideoAppSource := "videoAppSrc";
  Pipeline.pipelineSource := "pipeline"
|}.

(** A pipeline that is starting, over the given world. *)
Definition startingPipeline (t : SourceType) (w : SinkWorld)
    : @Pipeline.Pipeline boundSinks :=
  @Pipeline.Build_Pipeline boundSinks false false false t [] w [].

(** One RTMP URL bound to the element [rtmp2sink0], and no other output. *)
Definition oneStream : SinkWorld :=
  {| bindings := {[ "rtmp2sink0" := "rtmp://example.com/live/key" ]};
     otherOutputs := 0; sdkStartTime := None; segmentSink := false;
     startedAt := [] |}.

(** Two RTMP URLs. *)
Definition twoStreams : SinkWorld :=
  {| bindings := <[ "rtmp2sink1" := "rtmp://example.org/live/key" ]>
                   {[ "rtmp2sink0" := "rtmp://example.com/live/key" ]};
     otherOutputs := 0; sdkStartTime := None; segmentSink := false;
     startedAt := [] |}.

(** The debug info of an error posted by the element [name] of type
    [element] in the bin [stream]. *)
Definition debugOf (element name message : string) : string :=
  "gstelement.c(100): post (): /GstPipeline:pipeline/GstBin:stream/"
  +:+ element +:+ ":" +:+ name +:+ ":" +:+ Pipeline.newline +:+ message.

Definition rtmpError (name : string) : GError :=
  {| Message := "Could not open resource for writing.";
     DebugString := debugOf Pipeline.elementGstRtmp2Sink name "Failed to connect" |}.

(** The start times that the watch has set, oldest first. *)
Definition startTimeCalls (cs : list Pipeline.Call) : list Z :=
  omap (fun c => match c with
                 | Pipeline.UpdateStartTime t => Some t
                 | _ => None
                 end) cs.

(** What the watch decided: whether it goes on, and the errors sent on the
    failure channel; [None] when the handler panicked. *)
Definition verdict `{Pipeline.Collaborators}
    (o : Pipeline.outcome (bool * Pipeline.Pipeline)) : option (bool * list error) :=
  match o with
  | Pipeline.Done (goesOn, p) => Some (goesOn, Pipeline.Failure p)
  | Pipeline.Panic => None
  end.

(** Modelled from the spec: the classification of package [errors],
    missing from the sources: an error is fatal when it was wrapped by
    [errors.Fatal]; the others are user errors. *)
Definition isFatal (err : error) : bool :=
  match err with
  | Fatal _ => true
  | _ => false
  end.

Fixpoint errorString (err : error) : string :=
  match err with
  | ErrInvalidInput field => "request has missing or invalid field: " +:+ field
  | ErrInvalidUrl url reason => "invalid url " +:+ url +:+ ": " +:+ reason
  | ErrNoCompatibleCodec => "no supported codec is compatible with all outputs"
  | ErrNoCompatibleFileOutputType =>
      "no supported file output type is compatible with the selected codecs"
  | ErrIncompatible _ codec => "format is not compatible with codec " +:+ codec
  | ErrGstPipelineError cause => "gst pipeline error: " +:+ Message cause
  | ErrEgressNotFound => "egress not found"
  | Fatal cause => errorString cause
  | External text => text
  end.

(** A start-up in which the servers come up and building the pipeline fails
    with the given error, without pushing an update of its own. *)
Definition failingStartup (err : error) : Service.Startup := {|
  Service.PipelineHandle := unit;
  Service.NewEgressHandlerServer := fun _ => None;
  Service.RegisterUpdateStreamTopic := fun _ => None;
  Service.RegisterStopEgressTopic := fun _ => None;
  Service.Listen := fun _ _ => None;
  Service.pipelineNew := fun conf => (conf, [], Err err);
  Service.IsFatal := isFatal;
  Service.errorText := errorString
|}.

End Samples.

(* ===================================================================== *)
(** ** Notions used to state further properties, and further instances *)
(* ===================================================================== *)

Module Notions.
Import GoStrings GoPath GoTime Types Errors Go Config Samples.

(** The codecs that codec resolution starts from: the pinned codec, or every
    output codec when none is pinned. *)
Definition audioCandidates `{Tables} (p : PipelineConfig) : gset MimeType :=
  if String.eqb (AudioOutCodec (Audio p)) ""
  then AllOutputAudioCodecs else {[ AudioOutCodec (Audio p) ]}.

Definition videoCandidates `{Tables} (p : PipelineConfig) : gset MimeType :=
  if String.eqb (VideoOutCodec (Video p)) ""
  then AllOutputVideoCodecs else {[ VideoOutCodec (Video p) ]}.

(** A codec among [candidates] that every output is compatible with. *)
Definition commonCodec `{Tables} (candidates : gset MimeType)
    (outputs : list (EgressType * OutputConfig)) : Prop :=
  exists codec, codec ∈ candidates
    /\ forall e, e ∈ outputs -> codec ∈ CodecCompatibility (GetOutputType e.2).

(** The two selection steps of [validateAndUpdateOutputParams], each as the
    function writes it: the default codec of the first output visited whose
    default is compatible, else, when no codec is set, the compatible codec
    visited last. *)
Definition selectAudioCodec `{Tables} `{Ranging} (compatibleAudioCodecs : gset MimeType)
    (p : PipelineConfig) : PipelineConfig :=
  if AudioEnabled (Audio p) then
    let p :=
      match List.find
              (fun e => bool_decide
                 (DefaultAudioCodecs (GetOutputType e.2) ∈ compatibleAudioCodecs))
              (visitOutputs 2 (Outputs p)) with
      | Some e =>
          withAudio (setAudioOutCodec (DefaultAudioCodecs (GetOutputType e.2))) p
      | None => p
      end in
    if String.eqb (AudioOutCodec (Audio p)) "" then
      match List.last (Some <$> visitCodecs 0 compatibleAudioCodecs) None with
      | Some k => withAudio (setAudioOutCodec k) p
      | None => p
      end
    else p
  else p.

Definition selectVideoCodec `{Tables} `{Ranging} (compatibleVideoCodecs : gset MimeType)
    (p : PipelineConfig) : PipelineConfig :=
  if VideoEnabled (Video p) then
    let p :=
      match List.find
              (fun e => bool_decide
                 (DefaultVideoCodecs (GetOutputType e.2) ∈ compatibleVideoCodecs))
              (visitOutputs 3 (Outputs p)) with
      | Some e =>
          withVideo (setVideoOutCodec (DefaultVideoCodecs (GetOutputType e.2))) p
      | None => p
      end in
    if String.eqb (VideoOutCodec (Video p)) "" then
      match List.last (Some <$> visitCodecs 1 compatibleVideoCodecs) None with
      | Some k => withVideo (setVideoOutCodec k) p
      | None => p
      end
    else p
  else p.

(** A stream output for RTMP with two URLs, and a runtime that parses them. *)
Definition twoRtmpUrls : list string :=
  [ "rtmp://example.com/live/key"; "rtmps://example.org/app/secret" ].

(** A configuration with audio and video and one MP4 file output. *)
Definition bothToMp4 : PipelineConfig :=
  withOutputs [(EgressTypeFile, OfFile (fileAt OutputTypeMP4 "out.mp4"))] 1
    (withAudio enableAudio (withVideo enableVideo emptyConfig)).

(** A segment output whose paths carry the [{room_name}] template. *)
Definition templatedSegments : SegmentConfig :=
  {| segmentOutputConfig := {| OutputType_ := OutputTypeHLS |};
     LocalDir := "/tmp/{room_name}"; StorageDir := "{room_name}/";
     PlaylistFilename := "{room_name}.m3u8"; SegmentPrefix := "{room_name}";
     PlaylistName := "{room_name}.m3u8" |}.

Definition rtmpStream : StreamConfig :=
  {| streamOutputConfig := {| OutputType_ := OutputTypeRTMP |};
     Urls := twoRtmpUrls; StreamInfo_ := ∅ |}.

(** A stream output and a segment output. *)
Definition streamAndSegments : PipelineConfig :=
  withOutputs [ (EgressTypeStream, OfStream rtmpStream);
                (EgressTypeSegments, OfSegments templatedSegments) ] 2 emptyConfig.

(** A file output and a segment output. *)
Definition fileAndSegments : PipelineConfig :=
  withOutputs [ (EgressTypeFile, OfFile (fileAt OutputTypeMP4 "{room_name}.mp4"));
                (EgressTypeSegments, OfSegments templatedSegments) ] 2 emptyConfig.

(** The replacement of the room name, whatever the call. *)
Definition roomIsLobby : nat -> list (string * string) :=
  fun _ => [ ("{room_name}", "lobby") ].

(** A file output whose type is still to be found. *)
Definition audioToUnknownFile : PipelineConfig :=
  withOutputs [(EgressTypeFile, OfFile (fileAt OutputTypeUnknownFile "out"))] 1
    (withAudio enableAudio emptyConfig).

(** A launcher under which the handler starts, and whose dial ends as
    given. *)
Definition sampleLauncher (dialled : option error) : Manager.Launcher := {|
  Manager.NewGuid := fun prefix => prefix +:+ "1";
  Manager.TempDir := "/tmp";
  Manager.yamlMarshal := fun _ id tmpDir => Ok (id +:+ " " +:+ tmpDir);
  Manager.protojsonMarshal := fun request => Ok (req_EgressId request);
  Manager.cmdStart := fun _ _ _ => None;
  Manager.grpcDial := fun _ => dialled
|}.

(** A launcher under which the handler process does not start. *)
Definition stillborn (err : error) : Manager.Launcher := {|
  Manager.NewGuid := fun prefix => prefix +:+ "1";
  Manager.TempDir := "/tmp";
  Manager.yamlMarshal := fun _ id tmpDir => Ok (id +:+ " " +:+ tmpDir);
  Manager.protojsonMarshal := fun request => Ok (req_EgressId request);
  Manager.cmdStart := fun _ _ _ => Some err;
  Manager.grpcDial := fun _ => None
|}.

(** A request with the given egress id and nothing else. *)
Definition requestOf (id : string) : StartEgressRequest :=
  {| req_EgressId := id; req_RoomId := ""; req_Token := ""; req_WsUrl := "";
     req_Request := NoRequest |}.

(** A start-up in which the socket cannot be listened on. *)
Definition deafStartup (err : error) : Service.Startup := {|
  Service.PipelineHandle := unit;
  Service.NewEgressHandlerServer := fun _ => None;
  Service.RegisterUpdateStreamTopic := fun _ => None;
  Service.RegisterStopEgressTopic := fun _ => None;
  Service.Listen := fun _ _ => Some err;
  Service.pipelineNew := fun conf => (conf, [], Ok tt);
  Service.IsFatal := isFatal;
  Service.errorText := errorString
|}.

(** The error that the muxer of a split-mux sink posts, and an error of a
    file sink. *)
Definition muxerError : GError :=
  {| Message := "Internal data stream error.";
     DebugString := debugOf Pipeline.elementSplitMuxSink "splitmuxsink0"
                      Pipeline.msgMuxer |}.

Definition fileSinkError : GError :=
  {| Message := "Could not write to resource.";
     DebugString := debugOf "GstFileSink" "filesink0" "No space left on device" |}.

(** The structure of a fragment message. *)
Definition fragment (name : string) (location : string) (runningTime : Z)
    : Pipeline.Structure :=
  {| Pipeline.Name := name;
     Pipeline.Values := {[ Pipeline.fragmentLocation := Pipeline.GString location;
                           Pipeline.fragmentRunningTime := Pipeline.GUint64 runningTime ]} |}.


(** An entry that the loop of [UpdateInfoFromSDK] passes over. *)
Definition passedOver (e : EgressType * OutputConfig) : Prop :=
  e.1 <> EgressTypeFile /\ e.1 <> EgressTypeSegments.

(** Whether the byte [c] is absent from [s]. *)
Fixpoint lacks (c : ascii) (s : string) : bool :=
  match s with
  | EmptyString => true
  | String a s' => negb (Ascii.eqb a c) && lacks c s'
  end.

(** The debug info in the format that the comment on [regExp] gives. *)
Definition debugInfo (location bin element name message : string) : string :=
  location +:+ "GstPipeline:pipeline/GstBin:" +:+ bin +:+ "/" +:+ element +:+ ":"
  +:+ name +:+ ":" +:+ Pipeline.newline +:+ message.

End Notions.

(* ===================================================================== *)
(** ** Properties *)
(* ===================================================================== *)

(** *** Strings *)

Section StringFacts.
Import GoStrings.

Lemma append_nil_l (s : string) : EmptyString +:+ s = s.
Proof. reflexivity. Qed.

Lemma append_cons (c : ascii) (s t : string) :
  String c s +:+ t = String c (s +:+ t).
Proof. reflexivity. Qed.

Lemma append_nil_r (s : string) : s +:+ EmptyString = s.
Proof.
  induction s as [|c s IH]; [reflexivity|].
  rewrite append_cons, IH. reflexivity.
Qed.

Lemma append_assoc (s t u : string) : (s +:+ t) +:+ u = s +:+ t +:+ u.
Proof.
  induction s as [|c s IH]; [reflexivity|].
  rewrite !append_cons, IH. reflexivity.
Qed.

Lemma length_append (s t : string) :
  String.length (s +:+ t) = (String.length s + String.length t)%nat.
Proof.
  induction s as [|c s IH]; [reflexivity|].
  rewrite append_cons. simpl. rewrite IH. reflexivity.
Qed.

Lemma length_sliceFrom (n : nat) (s : string) :
  String.length (sliceFrom n s) = (String.length s - n)%nat.
Proof.
  revert s. induction n as [|n IH]; intros [|c s]; simpl; auto with lia.
Qed.

Lemma sliceFrom_append (s t : string) : sliceFrom (String.length s) (s +:+ t) = t.
Proof. induction s as [|c s IH]; [reflexivity|]. rewrite append_cons. exact IH. Qed.

Lemma sliceTo_append (s t : string) : sliceTo (String.length s) (s +:+ t) = s.
Proof.
  induction s as [|c s IH]; [reflexivity|].
  rewrite append_cons. simpl. rewrite IH. reflexivity.
Qed.

Lemma slice_split (n : nat) (s : string) : sliceTo n s +:+ sliceFrom n s = s.
Proof.
  revert s. induction n as [|n IH]; intros [|c s]; try reflexivity.
  simpl. rewrite append_cons, IH. reflexivity.
Qed.

Lemma length_sliceTo (n : nat) (s : string) :
  (n <= String.length s)%nat -> String.length (sliceTo n s) = n.
Proof.
  revert s. induction n as [|n IH]; intros [|c s]; simpl; intros Hn;
    try reflexivity; try lia.
  rewrite IH; lia.
Qed.

Lemma HasPrefix_append (s t : string) : HasPrefix (s +:+ t) s = true.
Proof.
  induction s as [|c s IH]; [reflexivity|].
  rewrite append_cons. simpl. rewrite Ascii.eqb_refl. exact IH.
Qed.

Lemma HasPrefix_split (s p : string) :
  HasPrefix s p = true -> s = p +:+ sliceFrom (String.length p) s.
Proof.
  revert s. induction p as [|c p IH]; intros s; [reflexivity|].
  destruct s as [|d s]; simpl; [discriminate|].
  destruct (Ascii.eqb_spec d c) as [->|]; [|discriminate].
  intros Hp. rewrite append_cons. f_equal. apply IH, Hp.
Qed.

Lemma HasPrefix_length (s p : string) :
  HasPrefix s p = true -> (String.length p <= String.length s)%nat.
Proof.
  intros Hp. rewrite (HasPrefix_split s p Hp), length_append. lia.
Qed.

Lemma eqb_eq_true (s t : string) : String.eqb s t = true <-> s = t.
Proof. apply String.eqb_eq. Qed.

Lemma HasSuffix_append (s t : string) : HasSuffix (s +:+ t) t = true.
Proof.
  unfold HasSuffix. rewrite length_append.
  replace (String.length s + String.length t - String.length t)%nat
    with (String.length s) by lia.
  rewrite sliceFrom_append, String.eqb_refl.
  rewrite andb_true_r. apply Nat.leb_le. lia.
Qed.

Lemma HasSuffix_split (s t : string) :
  HasSuffix s t = true ->
  s = sliceTo (String.length s - String.length t) s +:+ t.
Proof.
  unfold HasSuffix. intros [_ Heq%String.eqb_eq]%andb_true_iff.
  rewrite <- (slice_split (String.length s - String.length t) s) at 1.
  rewrite Heq. reflexivity.
Qed.

End StringFacts.

(** *** Cleaning a storage path *)

Section Clean.
Import GoStrings GoPath Config.

(** The length of the path is fuel enough for the loop of [clean]: when it
    ends, the path has no leading [../] left. *)
Lemma stripUpwardFuel_done (fuel : nat) (filepath : string) :
  (String.length filepath <= fuel)%nat ->
  HasPrefix (stripUpwardFuel fuel filepath) "../" = false.
Proof.
  revert filepath. induction fuel as [|fuel IH]; intros filepath Hlen.
  - destruct filepath; [reflexivity | simpl in Hlen; lia].
  - cbn [stripUpwardFuel]. destruct (HasPrefix filepath "../") eqn:Hp; [|exact Hp].
    apply IH. rewrite length_sliceFrom.
    apply HasPrefix_length in Hp. simpl in Hp. lia.
Qed.

Lemma stripUpward_done (filepath : string) :
  HasPrefix (stripUpward filepath) "../" = false.
Proof. apply stripUpwardFuel_done. reflexivity. Qed.

(** More fuel does not change what the loop returns. *)
Lemma stripUpwardFuel_more (fuel fuel' : nat) (filepath : string) :
  (String.length filepath <= fuel)%nat -> (fuel <= fuel')%nat ->
  stripUpwardFuel fuel' filepath = stripUpwardFuel fuel filepath.
Proof.
  revert fuel' filepath. induction fuel as [|fuel IH]; intros fuel' filepath Hlen Hle.
  - destruct filepath; [|simpl in Hlen; lia].
    destruct fuel'; reflexivity.
  - destruct fuel' as [|fuel']; [lia|]. cbn [stripUpwardFuel].
    destruct (HasPrefix filepath "../") eqn:Hp; [|reflexivity].
    apply IH; [|lia]. rewrite length_sliceFrom.
    apply HasPrefix_length in Hp. simpl in Hp. lia.
Qed.

Lemma slash_keeps_no_upward (r : string) :
  HasPrefix r "../" = false -> String.eqb r ".." = false ->
  HasPrefix (r +:+ "/") "../" = false.
Proof.
  destruct r as [|a [|b [|c r]]]; rewrite ?append_cons, ?append_nil_l; simpl.
  - reflexivity.
  - intros _ _. destruct (Ascii.eqb a "."); reflexivity.
  - intros _ Hne.
    destruct (Ascii.eqb_spec a ".") as [->|]; [|reflexivity].
    exact Hne.
  - intros Hp _. exact Hp.
Qed.

(** C8. The path that [clean] returns never begins with [../], whatever the
    input, and the inputs [""], ["."] and [".."] are all mapped to the empty
    string. *)
Theorem clean_strips_upward_traversal :
  (forall filepath : string, HasPrefix (clean filepath) "../" = false)
  /\ clean "" = "" /\ clean "." = "" /\ clean ".." = "".
Proof.
  split; [|repeat split; vm_compute; reflexivity].
  intros filepath. unfold clean.
  pose proof (stripUpward_done (Clean filepath)) as Hr.
  destruct (String.eqb (stripUpward (Clean filepath)) "") eqn:E1; [reflexivity|].
  destruct (String.eqb (stripUpward (Clean filepath)) ".") eqn:E2; [reflexivity|].
  destruct (String.eqb (stripUpward (Clean filepath)) "..") eqn:E3; [reflexivity|].
  simpl. destruct (HasSuffix filepath "/"); [|exact Hr].
  apply slash_keeps_no_upward; assumption.
Qed.

End Clean.

(** *** Filename templating *)

Section Templating.
Import GoStrings Config.

Lemma indexOf_unfold (s sub : string) :
  indexOf s sub =
  if HasPrefix s sub then Some O
  else match s with
       | EmptyString => None
       | String _ s' => S <$> indexOf s' sub
       end.
Proof. destruct s; reflexivity. Qed.

Lemma Contains_indexOf (s sub : string) :
  Contains s sub = false <-> indexOf s sub = None.
Proof.
  unfold Contains, Index. destruct (indexOf s sub) as [i|]; split; intros Hc;
    try discriminate; try reflexivity.
  apply Z.leb_gt in Hc. lia.
Qed.

(** A string that does not occur is counted zero times. *)
Lemma countFrom_absent (sub s : string) :
  indexOf s sub = None -> countFrom sub O s = O.
Proof.
  induction s as [|c s IH]; [reflexivity|].
  rewrite indexOf_unfold. cbn [countFrom].
  destruct (HasPrefix (String c s) sub); [discriminate|].
  destruct (indexOf s sub); [discriminate|]. intros _. apply IH. reflexivity.
Qed.

Lemma Count_absent (s sub : string) : Contains s sub = false -> Count s sub = O.
Proof.
  intros Hc%Contains_indexOf. destruct sub as [|c sub].
  - rewrite indexOf_unfold in Hc. destruct s; discriminate.
  - apply countFrom_absent, Hc.
Qed.

(** [strings.Replace] returns a string in which [old] does not occur as it
    is. *)
Lemma Replace_absent (s old new : string) (n : Z) :
  Contains s old = false -> Replace s old new n = s.
Proof.
  intros Hc. unfold Replace. rewrite (Count_absent s old Hc).
  destruct (String.eqb old new || (n =? 0)); reflexivity.
Qed.

(** A string in which no template occurs is a fixed point of
    [stringReplace]. *)
Lemma stringReplace_fixed (replacements : list (string * string)) (s : string) :
  (forall template value,
     (template, value) ∈ replacements -> Contains s template = false) ->
  stringReplace s replacements = s.
Proof.
  unfold stringReplace.
  induction replacements as [|[template value] rest IH]; intros Hfree;
    [reflexivity|].
  cbn [fold_left]. rewrite Replace_absent.
  - apply IH. intros t v Hin. apply (Hfree t v). right. exact Hin.
  - apply (Hfree template value). left.
Qed.

(** C6, the claim as stated fails: with the single replacement of
    [{room_name}] by [{room_name}x] (a room of that name), one pass over
    ["{room_name}"] gives ["{room_name}x"] and a second pass changes it
    again. *)
Lemma stringReplace_not_idempotent :
  ~ (forall (m : gmap string string) (first second : list (string * string))
            (s : string),
       visitOrder m first -> visitOrder m second ->
       stringReplace (stringReplace s first) second = stringReplace s first).
Proof.
  intros Hidem.
  specialize (Hidem {[ "{room_name}" := "{room_name}x" ]}
                    [("{room_name}", "{room_name}x")]
                    [("{room_name}", "{room_name}x")]
                    "{room_name}").
  assert (Hv : visitOrder ({[ "{room_name}" := "{room_name}x" ]} : gmap string string)
                 [("{room_name}", "{room_name}x")]).
  { unfold visitOrder. rewrite map_to_list_singleton. reflexivity. }
  specialize (Hidem Hv Hv). vm_compute in Hidem. discriminate Hidem.
Qed.

(** C6, amended. Whatever the orders in which the two passes visit the
    replacement map, a second pass of [stringReplace] leaves the result of
    the first pass unchanged whenever no template of the map occurs in that
    result. *)
Theorem stringReplace_twice (m : gmap string string)
    (first second : list (string * string)) (s : string) :
  visitOrder m first -> visitOrder m second ->
  (forall template, template ∈ dom m ->
     Contains (stringReplace s first) template = false) ->
  stringReplace (stringReplace s first) second = stringReplace s first.
Proof.
  intros _ Hsecond Hfree. apply stringReplace_fixed.
  intros template value Hin. apply Hfree.
  unfold visitOrder in Hsecond. rewrite Hsecond in Hin.
  apply elem_of_map_to_list in Hin. apply elem_of_dom. eauto.
Qed.

Lemma stringReplace_twice_witness :
  stringReplace
    (stringReplace "r_{room_name}_{time}.mp4"
       [("{room_name}", "demo"); ("{time}", "2024-01-02T123456")])
    [("{time}", "2024-01-02T123456"); ("{room_name}", "demo")]
  = "r_demo_2024-01-02T123456.mp4".
Proof.
  rewrite (stringReplace_twice
             (<["{room_name}" := "demo"]> {[ "{time}" := "2024-01-02T123456" ]})).
  - vm_compute. reflexivity.
  - unfold visitOrder. vm_compute. reflexivity.
  - unfold visitOrder. vm_compute. apply Permutation_swap.
  - intros template Hin.
    rewrite dom_insert, dom_singleton in Hin.
    apply elem_of_union in Hin as [->%elem_of_singleton | ->%elem_of_singleton];
      vm_compute; reflexivity.
Defined.

End Templating.

(** *** The storage path of a file output *)

Section StoragePath.
Import GoStrings GoPath GoTime Types Errors Go Config Samples.

Lemma lastIndexOf_absent (s sub : string) :
  indexOf s sub = None -> lastIndexOf s sub = None.
Proof.
  induction s as [|c s IH]; rewrite indexOf_unfold; cbn [lastIndexOf].
  - destruct (HasPrefix "" sub); [discriminate | reflexivity].
  - destruct (HasPrefix (String c s) sub); [discriminate|].
    destruct (indexOf s sub); [discriminate|]. intros _.
    rewrite IH; reflexivity.
Qed.

(** In a path that ends in a dot followed by bytes other than a dot, that
    dot is the last one. *)
Lemma lastIndexOf_dotted (stem rest : string) :
  Contains rest "." = false ->
  lastIndexOf (stem +:+ String "." rest) "." = Some (String.length stem).
Proof.
  intros Hrest%Contains_indexOf%lastIndexOf_absent.
  induction stem as [|c stem IH].
  - rewrite append_nil_l. cbn [lastIndexOf]. rewrite Hrest. reflexivity.
  - rewrite append_cons. cbn [lastIndexOf]. rewrite IH. reflexivity.
Qed.

Lemma HasSuffix_sliceFrom (n : nat) (s : string) : HasSuffix s (sliceFrom n s) = true.
Proof.
  rewrite <- (slice_split n s) at 1. apply HasSuffix_append.
Qed.

Lemma dottedExtension_inv (e : FileExtension) :
  dottedExtension e = true ->
  exists rest, e = String "." rest /\ Contains rest "." = false.
Proof.
  destruct e as [|c rest]; [discriminate|]. unfold dottedExtension.
  intros [Hc Hrest]%andb_true_iff.
  apply Ascii.eqb_eq in Hc as ->. apply negb_true_iff in Hrest. eauto.
Qed.

Context `{Tables} `{Runtime}.

(** [updateFilepath] stores the resolved path, whether or not the directory
    can be made afterwards. *)
Lemma updateFilepath_storage (o : FileConfig) (p : PipelineConfig)
    (identifier : string) (replacements : list (string * string)) (now : Time) :
  StorageFilepath (updateFilepath o p identifier replacements now).1
  = resolveStoragePath
      (FileExtensionForOutputType (OutputType_ (fileOutputConfig o)))
      identifier now (stringReplace (StorageFilepath o) replacements).
Proof.
  unfold updateFilepath. cbn [withStorageFilepath withFilename StorageFilepath
    fileOutputConfig UploadConfig].
  destruct (Split _) as [dir filename].
  destruct (UploadConfig o).
  - destruct (MkdirAll _); reflexivity.
  - destruct (if negb (String.eqb dir "") then MkdirAll dir else None); reflexivity.
Qed.

(** C5, amended. After token substitution, the storage path of a file
    output is: the path followed by [<identifier>-<YYYY-MM-DDThhmmss><ext>]
    when it is empty or ends with a slash; the path as it is when it already
    ends in the correct extension; the path with its recognized extension
    replaced by the correct one when it ends in another recognized
    extension; and the path followed by the correct extension when it ends
    in no recognized extension. *)
Theorem updateFilepath_storage_path (o : FileConfig) (p : PipelineConfig)
    (identifier : string) (replacements : list (string * string)) (now : Time) :
  (forall e, e ∈ FileExtensions -> dottedExtension e = true) ->
  let path := stringReplace (StorageFilepath o) replacements in
  let ext := FileExtensionForOutputType (OutputType_ (fileOutputConfig o)) in
  let out := StorageFilepath (updateFilepath o p identifier replacements now).1 in
  (path = "" \/ HasSuffix path "/" = true ->
     out = path +:+ identifier +:+ "-" +:+ formatStamp now +:+ ext)
  /\ (path <> "" -> HasSuffix path "/" = false ->
        (HasSuffix path ext = true -> out = path)
        /\ (HasSuffix path ext = false ->
              (forall stem e, e ∈ FileExtensions -> path = stem +:+ e ->
                 out = stem +:+ ext)
              /\ ((forall e, e ∈ FileExtensions -> HasSuffix path e = false) ->
                    out = path +:+ ext))).
Proof.
  intros Hdotted path ext out.
  assert (Hout : out = resolveStoragePath ext identifier now path)
    by apply updateFilepath_storage.
  clearbody out path ext. subst out. unfold resolveStoragePath. split.
  - intros [-> | Hslash]; [reflexivity|].
    rewrite Hslash, orb_true_r. reflexivity.
  - intros Hne%String.eqb_neq Hslash. rewrite Hne, Hslash. cbn [orb]. split.
    + intros ->. reflexivity.
    + intros ->. cbn [negb]. split.
      * intros stem e He ->.
        destruct (dottedExtension_inv e (Hdotted e He)) as (rest & -> & Hrest).
        rewrite (lastIndexOf_dotted stem rest Hrest).
        rewrite sliceFrom_append, sliceTo_append.
        rewrite decide_True by exact He. reflexivity.
      * intros Hnone. destruct (lastIndexOf path ".") as [extIdx|]; [|reflexivity].
        destruct (decide (sliceFrom extIdx path ∈ FileExtensions)) as [Hin|];
          [|reflexivity].
        apply Hnone in Hin. rewrite HasSuffix_sliceFrom in Hin. discriminate.
Qed.

End StoragePath.

Section StoragePathExamples.
Import GoStrings GoPath GoTime Types Errors Go Config Samples.

Lemma sampleTables_dotted :
  forall e, e ∈ @FileExtensions sampleTables -> dottedExtension e = true.
Proof.
  intros e He. apply elem_of_elements in He. vm_compute in He.
  repeat (apply elem_of_cons in He as [-> | He]; [reflexivity|]).
  apply elem_of_nil in He. destruct He.
Qed.

(** C5, the claim as stated fails: an MP4 output whose path is ["a.mp4"]
    keeps that path, where the claim's last case appends the extension. *)
Lemma updateFilepath_keeps_correct_extension :
  let out :=
    StorageFilepath
      (@updateFilepath sampleTables sampleRuntime (fileAt OutputTypeMP4 "a.mp4")
         emptyConfig "demo" [] noon).1 in
  let claimed := @claimedStoragePath sampleTables ".mp4" "demo" noon "a.mp4" in
  out = "a.mp4" /\ claimed = "a.mp4.mp4" /\ out <> claimed.
Proof. vm_compute. repeat split. discriminate. Qed.

Lemma updateFilepath_storage_path_witness :
  StorageFilepath
    (@updateFilepath sampleTables sampleRuntime
       (fileAt OutputTypeMP4 "rec/{room_name}.ogg") emptyConfig "demo"
       [("{room_name}", "demo")] noon).1
  = "rec/demo.mp4"
  /\ StorageFilepath
       (@updateFilepath sampleTables sampleRuntime
          (fileAt OutputTypeMP4 "rec/") emptyConfig "demo" [] noon).1
     = "rec/demo-2024-01-02T123456.mp4".
Proof.
  split.
  - pose proof (@updateFilepath_storage_path sampleTables sampleRuntime
                  (fileAt OutputTypeMP4 "rec/{room_name}.ogg") emptyConfig "demo"
                  [("{room_name}", "demo")] noon sampleTables_dotted) as [_ Hrest].
    destruct Hrest as [_ Hother];
      [vm_compute; discriminate | vm_compute; reflexivity |].
    destruct Hother as [Hreplace _]; [vm_compute; reflexivity|].
    apply (Hreplace "rec/demo" ".ogg").
    + apply elem_of_elements. vm_compute.
      repeat first [apply list_elem_of_here | apply list_elem_of_further].
    + vm_compute. reflexivity.
  - pose proof (@updateFilepath_storage_path sampleTables sampleRuntime
                  (fileAt OutputTypeMP4 "rec/") emptyConfig "demo"
                  [] noon sampleTables_dotted) as [Hgen _].
    apply Hgen. right. vm_compute. reflexivity.
Defined.

End StoragePathExamples.

(** *** Codec resolution *)

Section Codecs.
Import GoStrings Types Errors Go Config Samples.

Lemma pinned_meets (codec : MimeType) (compatible : gset MimeType) :
  codec ∈ compatible ->
  GetMapIntersection {[ codec ]} compatible = {[ codec ]}.
Proof.
  intros Hin. unfold GetMapIntersection. apply set_eq. intros c.
  rewrite elem_of_intersection, elem_of_singleton. split; [tauto|].
  intros ->. split; [reflexivity | exact Hin].
Qed.

Lemma pinned_misses (codec : MimeType) (compatible : gset MimeType) :
  codec ∉ compatible ->
  GetMapIntersection {[ codec ]} compatible = ∅.
Proof.
  intros Hout. unfold GetMapIntersection. apply set_eq. intros c.
  rewrite elem_of_intersection, elem_of_singleton, elem_of_empty.
  split; [|tauto]. intros [-> Hin]. contradiction.
Qed.

Context `{Tables} `{Ranging}.

(** Starting from a pinned codec, the loop over the outputs stops at the
    first output that the codec is incompatible with. *)
Lemma intersectOutputs_pinned (codec : MimeType)
    (outputs : list (EgressType * OutputConfig)) :
  (exists e, (e ∈ outputs) /\ (codec ∉ CodecCompatibility (GetOutputType e.2))) ->
  exists o, intersectOutputs {[ codec ]} outputs = inl o
            /\ (codec ∉ CodecCompatibility (GetOutputType o))
            /\ (o ∈ outputs.*2).
Proof.
  induction outputs as [|[kind o] outputs IH]; intros (e & Hin & Hmiss).
  - apply elem_of_nil in Hin. destruct Hin.
  - cbn [intersectOutputs].
    destruct (decide (codec ∈ CodecCompatibility (GetOutputType o))) as [Hc|Hc].
    + rewrite (pinned_meets _ _ Hc), size_singleton. cbn [Nat.eqb].
      apply elem_of_cons in Hin as [-> | Hin]; [contradiction|].
      destruct IH as (o' & Ho' & Hmiss' & Hin'); [eauto|].
      exists o'. split; [exact Ho'|]. split; [exact Hmiss'|].
      rewrite fmap_cons. right. exact Hin'.
    + rewrite (pinned_misses _ _ Hc), size_empty. cbn [Nat.eqb].
      exists o. split; [reflexivity|]. split; [exact Hc|].
      rewrite fmap_cons. left.
Qed.

Lemma visited_output site (outputs : list (EgressType * OutputConfig))
    (codec : MimeType) :
  fairRanging ->
  (exists e, (e ∈ outputs) /\ (codec ∉ CodecCompatibility (GetOutputType e.2))) ->
  exists e, (e ∈ visitOutputs site outputs)
            /\ (codec ∉ CodecCompatibility (GetOutputType e.2)).
Proof.
  intros (Hfair & _) (e & Hin & Hmiss). exists e. split; [|exact Hmiss].
  rewrite (Hfair site outputs). exact Hin.
Qed.

(** The audio half of [validateAndUpdateOutputCodecs] names the output and
    the pinned codec. *)
Lemma pinned_audio_codec_named (p : PipelineConfig) :
  fairRanging ->
  AudioEnabled (Audio p) = true ->
  AudioOutCodec (Audio p) <> "" ->
  (exists e, (e ∈ Outputs p)
             /\ (AudioOutCodec (Audio p) ∉ CodecCompatibility (GetOutputType e.2))) ->
  exists o, validateAndUpdateOutputCodecs p
            = Err (ErrIncompatible (GetOutputType o) (AudioOutCodec (Audio p)))
            /\ (AudioOutCodec (Audio p) ∉ CodecCompatibility (GetOutputType o))
            /\ (o ∈ (Outputs p).*2).
Proof.
  intros Hfair Hon Hpin%String.eqb_neq Hmiss.
  destruct (intersectOutputs_pinned _ _ (visited_output 0%nat _ _ Hfair Hmiss))
    as (o & Ho & Hmiss' & Hin).
  exists o. unfold validateAndUpdateOutputCodecs. rewrite Hon, Hpin, Ho.
  split; [reflexivity|]. split; [exact Hmiss'|].
  destruct Hfair as (Hfair & _). rewrite <- (Hfair 0%nat (Outputs p)). exact Hin.
Qed.

(** C1, where the code departs from the claim: when only the video codec is
    pinned, and it is incompatible with an output, the error is the generic
    [ErrNoCompatibleCodec]; the video half tests the audio codec where the
    audio half tests its own. *)
Theorem pinned_video_codec_not_named (p : PipelineConfig) :
  fairRanging ->
  AudioEnabled (Audio p) = false ->
  AudioOutCodec (Audio p) = "" ->
  VideoEnabled (Video p) = true ->
  VideoOutCodec (Video p) <> "" ->
  (exists e, (e ∈ Outputs p)
             /\ (VideoOutCodec (Video p) ∉ CodecCompatibility (GetOutputType e.2))) ->
  validateAndUpdateOutputCodecs p = Err ErrNoCompatibleCodec.
Proof.
  intros Hfair Hoff Hnopin Hon Hpin%String.eqb_neq Hmiss.
  destruct (intersectOutputs_pinned _ _ (visited_output 1%nat _ _ Hfair Hmiss))
    as (o & Ho & _).
  unfold validateAndUpdateOutputCodecs. rewrite Hoff, Hon, Hpin, Ho, Hnopin.
  reflexivity.
Qed.

End Codecs.

Section CodecsExamples.
Import GoStrings Types Errors Go Config Samples.

Lemma inOrder_fair : @fairRanging inOrder.
Proof. repeat split; intros; reflexivity. Qed.

Lemma pinned_video_codec_not_named_witness :
  @validateAndUpdateOutputCodecs sampleTables inOrder videoPinnedToOgg
  = Err ErrNoCompatibleCodec.
Proof.
  apply (@pinned_video_codec_not_named sampleTables inOrder videoPinnedToOgg).
  - exact inOrder_fair.
  - reflexivity.
  - reflexivity.
  - reflexivity.
  - discriminate.
  - exists (EgressTypeFile, OfFile (fileAt OutputTypeOGG "out.ogg")). split.
    + apply list_elem_of_here.
    + apply (bool_decide_unpack (_ ∉ _)). vm_compute. exact I.
Defined.

End CodecsExamples.

(** *** Request validation *)

Section Validating.
Import GoStrings GoTime Types Errors Go Config Samples.
Context `{Tables} `{Runtime} `{Ranging} `{Validation}.

(** C2, where the code departs from the claim: for a track request with a
    track id, an error of [updateDirectOutput] (a malformed URL, say) makes
    [Update] return [nil]; the other variants return the error of their
    output step. *)
Theorem Update_drops_track_output_error (p : PipelineConfig)
    (request : StartEgressRequest) (track : TrackEgressRequest)
    (now nowInfo nowPath : Time) :
  req_EgressId request <> "" ->
  req_Request request = Track track ->
  tr_TrackId track <> "" ->
  (forall q, (updateDirectOutput track q).2 <> None) ->
  (Update p request now nowInfo nowPath).2 = None.
Proof.
  intros Hid%String.eqb_neq Hreq Htrack%String.eqb_neq Hfails.
  unfold Update. rewrite Hid, Hreq. unfold requestCase.
  cbn [withSource withInfo Source TrackID setTrackIDs]. rewrite Htrack.
  match goal with
  | |- context [updateDirectOutput track ?q] =>
      specialize (Hfails q); destruct (updateDirectOutput track q) as [q' [err|]]
  end.
  - reflexivity.
  - contradiction.
Qed.

(** The sibling paths: an error of the output step of an encoded request is
    returned by [encodedCase]. *)
Lemma encodedCase_returns_output_error opts outputs what required
    (p p1 p2 : PipelineConfig) (err : error) :
  negb (AudioEnabled (Audio p)) && negb (VideoEnabled (Video p)) = false ->
  applyOptions opts p = (p1, None) ->
  updateEncodedOutputs outputs p1 = (p2, Some err) ->
  encodedCase opts outputs what required p = (p2, Returns (Some err)).
Proof.
  intros Hmedia Hopts Hout. unfold encodedCase. rewrite Hmedia, Hopts, Hout.
  reflexivity.
Qed.

End Validating.

Section ValidatingExamples.
Import GoStrings GoTime Types Errors Go Config Samples.

Lemma Update_drops_track_output_error_witness :
  (@Update sampleTables sampleRuntime inOrder
     (@sampleValidation sampleTables sampleRuntime inOrder noon noon)
     emptyConfig trackToHttp noon noon noon).2 = None
  /\ @ValidateUrl sampleRuntime "http://example.com/feed" OutputTypeRaw
     = Err (ErrInvalidUrl "http://example.com/feed" "invalid scheme").
Proof.
  split; [|vm_compute; reflexivity].
  apply (@Update_drops_track_output_error sampleTables sampleRuntime inOrder
           (@sampleValidation sampleTables sampleRuntime inOrder noon noon)
           emptyConfig trackToHttp
           {| tr_RoomName := "demo"; tr_TrackId := "TR_1";
              tr_Output := TrackWebsocketUrl "http://example.com/feed" |}).
  - discriminate.
  - reflexivity.
  - discriminate.
  - intros q. vm_compute. discriminate.
Defined.

End ValidatingExamples.

Section StreamOutputs.
Import Types Errors Go Config.
Context `{Runtime}.

Lemma getStreamConfig_keyframe p outputType urls :
  KeyFrameInterval (Video (getStreamConfig p outputType urls).1)
  = if PrimFloat.eqb (KeyFrameInterval (Video p)) 0%float
    then 4%float else KeyFrameInterval (Video p).
Proof.
  unfold getStreamConfig.
  destruct outputType; simpl;
    destruct (PrimFloat.eqb (KeyFrameInterval (Video p)) 0) eqn:E; simpl;
    destruct (validateUrls _ urls ∅); simpl; rewrite ?E; reflexivity.
Qed.

(** C9. Configuring an RTMP stream output sets the audio output codec to
    AAC and the video output codec to H264 whatever they were before, and
    configuring a raw websocket output sets the audio output codec to raw
    audio; in both cases, and whether or not the URLs validate, the key
    frame interval becomes 4 when it was 0 and is kept otherwise. *)
Theorem getStreamConfig_codecs_and_keyframe (p : PipelineConfig) (urls : list string) :
  let rtmp := (getStreamConfig p OutputTypeRTMP urls).1 in
  let raw := (getStreamConfig p OutputTypeRaw urls).1 in
  AudioOutCodec (Audio rtmp) = MimeTypeAAC
  /\ VideoOutCodec (Video rtmp) = MimeTypeH264
  /\ AudioOutCodec (Audio raw) = MimeTypeRawAudio
  /\ VideoOutCodec (Video raw) = VideoOutCodec (Video p)
  /\ KeyFrameInterval (Video rtmp)
     = (if PrimFloat.eqb (KeyFrameInterval (Video p)) 0%float
        then 4%float else KeyFrameInterval (Video p))
  /\ KeyFrameInterval (Video raw)
     = (if PrimFloat.eqb (KeyFrameInterval (Video p)) 0%float
        then 4%float else KeyFrameInterval (Video p)).
Proof.
  cbv zeta. rewrite !getStreamConfig_keyframe.
  unfold getStreamConfig; simpl.
  destruct (PrimFloat.eqb (KeyFrameInterval (Video p)) 0); simpl;
    destruct (validateUrls OutputTypeRTMP urls ∅);
    destruct (validateUrls OutputTypeRaw urls ∅); simpl; auto 10.
Qed.

End StreamOutputs.

(** *** The bus watch *)

Section Watching.
Import GoStrings Types Errors Go Samples Pipeline.
Context `{Collaborators}.

Lemma startTimeCalls_app (cs ds : list Call) :
  startTimeCalls (cs ++ ds) = startTimeCalls cs ++ startTimeCalls ds.
Proof. unfold startTimeCalls. apply omap_app. Qed.

Lemma parseDebugInfo_match (gErr : GError) (element name message : string) :
  findDebugSubmatch (DebugString gErr) = Some (element, name, message) ->
  parseDebugInfo gErr = Done (element, name, message).
Proof. intros Hm. unfold parseDebugInfo. rewrite Hm. reflexivity. Qed.

(** C7, amended. For a warning whose debug info matches the pattern of
    [parseDebugInfo]: when its text is the clock-problem message,
    [handleMessageWarning] returns the pipeline error made from it, which
    [messageWatch] sends on the failure channel before it stops the watch;
    any other warning is logged, [handleMessageWarning] returns no error and
    the watch goes on. *)
Theorem handleMessageWarning_clock_problem (gErr : GError) (p : Pipeline)
    (element name message : string) (now : Z) :
  findDebugSubmatch (DebugString gErr) = Some (element, name, message) ->
  (Message gErr = msgClockProblem ->
     handleMessageWarning gErr p
     = Done (called (LogError message) p, Some (ErrGstPipelineError gErr))
     /\ messageWatch (MessageWarning gErr) now p
        = Done (false, sendFailure (ErrGstPipelineError gErr)
                         (called (LogError message) p)))
  /\ (Message gErr <> msgClockProblem ->
       handleMessageWarning gErr p = Done (called (LogWarn message) p, None)
       /\ messageWatch (MessageWarning gErr) now p
          = Done (true, called (LogWarn message) p)).
Proof.
  intros Hm%parseDebugInfo_match.
  unfold messageWatch, handleMessageWarning. rewrite Hm. split.
  - intros ->. rewrite String.eqb_refl. split; reflexivity.
  - intros Hne%String.eqb_neq. rewrite Hne. split; reflexivity.
Qed.

(** C3, amended. For an error whose debug info names an RTMP sink element,
    the handler looks up the URL bound to that element.  When the lookup
    fails, its error is sent on the failure channel and the watch stops.
    When it succeeds, [removeSink] is called once, for that URL, and its
    result decides: no error and the watch goes on, or its error is sent on
    the failure channel and the watch stops. *)
Theorem handleMessageError_rtmp_sink (gErr : GError) (p : Pipeline)
    (name message : string) (now : Z) :
  findDebugSubmatch (DebugString gErr) = Some (elementGstRtmp2Sink, name, message) ->
  let looked := called (GetStreamUrl name) p in
  messageWatch (MessageError gErr) now p =
  match getStreamUrl (world p) name with
  | Err err =>
      Done (false, sendFailure err (called (LogWarn "rtmp output not found") looked))
  | Ok url =>
      let removed :=
        withWorld (removeSink (world p) url gErr).1 (called (RemoveSink url gErr) looked) in
      match (removeSink (world p) url gErr).2 with
      | Some err => Done (false, sendFailure err removed)
      | None => Done (true, removed)
      end
  end.
Proof.
  intros Hm%parseDebugInfo_match looked.
  unfold messageWatch, handleMessageError. rewrite Hm.
  change (String.eqb elementGstRtmp2Sink elementGstRtmp2Sink) with true. cbv iota.
  fold looked. change (world looked) with (world p).
  destruct (getStreamUrl (world p) name) as [url|err]; [|reflexivity].
  destruct (removeSink (world p) url gErr) as [w [err|]]; reflexivity.
Qed.

(** What every message leaves alone: the handlers other than
    [handleMessageStateChanged] neither write [playing] nor set the start
    time. *)
Lemma handleMessageEOS_keeps (p : Pipeline) :
  playing (handleMessageEOS p) = playing p
  /\ startTimeCalls (calls (handleMessageEOS p)) = startTimeCalls (calls p).
Proof.
  unfold handleMessageEOS. destruct (eosTimer p); cbn;
    rewrite ?startTimeCalls_app, ?app_nil_r; auto.
Qed.

Lemma handleMessageWarning_keeps gErr (p p' : Pipeline) err :
  handleMessageWarning gErr p = Done (p', err) ->
  playing p' = playing p /\ startTimeCalls (calls p') = startTimeCalls (calls p).
Proof.
  unfold handleMessageWarning. intros Hh.
  repeat case_match; simplify_eq; cbn;
    rewrite ?startTimeCalls_app, ?app_nil_r; auto.
Qed.

Lemma handleMessageError_keeps gErr (p p' : Pipeline) err :
  handleMessageError gErr p = Done (p', err) ->
  playing p' = playing p /\ startTimeCalls (calls p') = startTimeCalls (calls p).
Proof.
  unfold handleMessageError. intros Hh.
  repeat case_match; simplify_eq; cbn;
    rewrite ?startTimeCalls_app, ?app_nil_r; auto.
Qed.

Lemma handleMessageElement_keeps s (p p' : Pipeline) err :
  handleMessageElement s p = Done (p', err) ->
  playing p' = playing p /\ startTimeCalls (calls p') = startTimeCalls (calls p).
Proof.
  unfold handleMessageElement, resetTimer. intros Hh.
  repeat case_match; simplify_eq; cbn;
    rewrite ?startTimeCalls_app, ?app_nil_r; auto.
Qed.

(** [handleMessageStateChanged] returns at once when the pipeline plays. *)
Lemma handleMessageStateChanged_playing source newState now (p : Pipeline) :
  playing p = true -> handleMessageStateChanged source newState now p = Done p.
Proof. intros Hp. unfold handleMessageStateChanged. rewrite Hp. reflexivity. Qed.

(** Before that, it sets the start time at most once, and only as it sets
    [playing]. *)
Lemma handleMessageStateChanged_step source newState now (p p' : Pipeline) :
  playing p = false ->
  handleMessageStateChanged source newState now p = Done p' ->
  (playing p' = false /\ startTimeCalls (calls p') = startTimeCalls (calls p))
  \/ (playing p' = true
      /\ exists ts, startTimeCalls (calls p') = startTimeCalls (calls p) ++ ts
                    /\ (length ts <= 1)%nat).
Proof.
  intros Hp. unfold handleMessageStateChanged. rewrite Hp. intros Hh.
  repeat case_match; simplify_eq; cbn; rewrite ?startTimeCalls_app; cbn;
    first [ left; split; [assumption | rewrite ?app_nil_r; reflexivity]
          | right; split; [reflexivity|];
            first [ exists []; split; [reflexivity | cbn; lia]
                  | rewrite app_nil_r; eexists; split; [reflexivity | cbn; lia] ] ].
Qed.

Lemma sendFailure_keeps err (p : Pipeline) :
  playing (sendFailure err p) = playing p
  /\ calls (sendFailure err p) = calls p.
Proof. split; reflexivity. Qed.

(** One message: once the pipeline plays, no message sets the start time;
    before, a message sets it at most once, and then the pipeline plays. *)
Lemma messageWatch_step msg now (p p' : Pipeline) goesOn :
  messageWatch msg now p = Done (goesOn, p') ->
  (playing p = true ->
     playing p' = true /\ startTimeCalls (calls p') = startTimeCalls (calls p))
  /\ (playing p = false ->
       (playing p' = false /\ startTimeCalls (calls p') = startTimeCalls (calls p))
       \/ (playing p' = true
           /\ exists ts, startTimeCalls (calls p') = startTimeCalls (calls p) ++ ts
                         /\ (length ts <= 1)%nat)).
Proof.
  intros Hw.
  assert (Hkept : forall q : Pipeline,
             playing q = playing p /\ startTimeCalls (calls q) = startTimeCalls (calls p) ->
             (playing p = true ->
                playing q = true /\ startTimeCalls (calls q) = startTimeCalls (calls p))
             /\ (playing p = false ->
                  (playing q = false
                   /\ startTimeCalls (calls q) = startTimeCalls (calls p))
                  \/ (playing q = true
                      /\ exists ts, startTimeCalls (calls q)
                                    = startTimeCalls (calls p) ++ ts
                                    /\ (length ts <= 1)%nat))).
  { intros q [Hq1 Hq2]. split; intros Hp; [|left]; rewrite Hq1, Hq2; auto. }
  unfold messageWatch in Hw. destruct msg as [|gErr|gErr|source old new|s|].
  - simplify_eq. apply Hkept, handleMessageEOS_keeps.
  - destruct (handleMessageWarning gErr p) as [[q [err|]]|] eqn:Hh; simplify_eq;
      apply Hkept; cbn; eapply handleMessageWarning_keeps; eassumption.
  - destruct (handleMessageError gErr p) as [[q [err|]]|] eqn:Hh; simplify_eq;
      apply Hkept; cbn; eapply handleMessageError_keeps; eassumption.
  - destruct (handleMessageStateChanged source new now p) as [q|] eqn:Hh;
      simplify_eq. split; intros Hp.
    + rewrite (handleMessageStateChanged_playing _ _ _ _ Hp) in Hh.
      simplify_eq. auto.
    + eapply handleMessageStateChanged_step; eassumption.
  - destruct (handleMessageElement s p) as [[q [err|]]|] eqn:Hh; simplify_eq;
      apply Hkept; cbn; eapply handleMessageElement_keeps; eassumption.
  - simplify_eq. apply Hkept. auto.
Qed.

Lemma watchRun_playing (msgs : list (GstMessage * Z)) (p : Pipeline) :
  playing p = true ->
  startTimeCalls (calls (watchRun msgs p)) = startTimeCalls (calls p).
Proof.
  revert p. induction msgs as [|[msg now] msgs IH]; intros p Hp; [reflexivity|].
  cbn [watchRun].
  destruct (messageWatch msg now p) as [[[] q]|] eqn:Hw; [| |reflexivity];
    destruct (messageWatch_step _ _ _ _ _ Hw) as [Hplay _];
    destruct (Hplay Hp) as [Hq Hcalls].
  - rewrite IH; assumption.
  - assumption.
Qed.

Lemma watchRun_starting (msgs : list (GstMessage * Z)) (p : Pipeline) :
  playing p = false ->
  exists ts, startTimeCalls (calls (watchRun msgs p)) = startTimeCalls (calls p) ++ ts
             /\ (length ts <= 1)%nat.
Proof.
  revert p. induction msgs as [|[msg now] msgs IH]; intros p Hp.
  - exists []. rewrite app_nil_r. split; [reflexivity | cbn; lia].
  - cbn [watchRun].
    destruct (messageWatch msg now p) as [[goesOn q]|] eqn:Hw.
    + destruct (messageWatch_step _ _ _ _ _ Hw) as [_ Hstart].
      destruct (Hstart Hp) as [[Hq Hcalls] | [Hq (ts & Hcalls & Hlen)]].
      * destruct goesOn.
        -- destruct (IH q Hq) as (ts & Hts & Hlen). exists ts.
           rewrite Hts, Hcalls. auto.
        -- exists []. rewrite app_nil_r. split; [assumption | cbn; lia].
      * exists ts. split; [|assumption].
        destruct goesOn; [|assumption].
        rewrite (watchRun_playing msgs q Hq). assumption.
    + exists []. rewrite app_nil_r. split; [reflexivity | cbn; lia].
Qed.

(** C10. Once the pipeline plays, a state-changed message is ignored (the
    pipeline is left as it is and the watch goes on) and no message of the
    bus sets the start time again; so over a run that starts before any
    start time is set, the start time is set at most once.  It is set by the
    state change to playing of the pipeline itself: to the start time that
    the SDK source reports for an SDK-sourced job, to the reading of the
    clock for a web-sourced job. *)
Theorem start_time_set_at_most_once :
  (forall (p : Pipeline) source oldState newState now,
     playing p = true ->
     messageWatch (MessageStateChanged source oldState newState) now p
     = Done (true, p))
  /\ (forall (p : Pipeline) msgs,
       playing p = true ->
       startTimeCalls (calls (watchRun msgs p)) = startTimeCalls (calls p))
  /\ (forall (p : Pipeline) msgs,
       playing p = false -> startTimeCalls (calls p) = [] ->
       (length (startTimeCalls (calls (watchRun msgs p))) <= 1)%nat)
  /\ (forall (p : Pipeline) oldState now,
       playing p = false ->
       String.eqb pipelineSource AudioAppSource
       || String.eqb pipelineSource VideoAppSource = false ->
       let after :=
         messageWatch (MessageStateChanged pipelineSource oldState StatePlaying) now p in
       let started (t : Z) :=
         exists p' : Pipeline,
           after = Done (true, p') /\ playing p' = true
           /\ startTimeCalls (calls p') = startTimeCalls (calls p) ++ [t] in
       match SourceType_ p with
       | SourceTypeSDK =>
           isSDKSource (world p) = true -> started (getStartTime (world p))
       | SourceTypeWeb => started now
       | SourceTypeUnset => True
       end).
Proof.
  split; [|split; [|split]].
  - intros p source oldState newState now Hp. unfold messageWatch.
    rewrite (handleMessageStateChanged_playing _ _ _ _ Hp). reflexivity.
  - intros p msgs Hp. apply watchRun_playing, Hp.
  - intros p msgs Hp Hnone.
    destruct (watchRun_starting msgs p Hp) as (ts & Hts & Hlen).
    rewrite Hts, Hnone. exact Hlen.
  - intros p oldState now Hp Hroot after started.
    subst after started. unfold messageWatch, handleMessageStateChanged.
    rewrite Hp, Hroot, String.eqb_refl. cbn.
    destruct (SourceType_ p); [exact I | |].
    + eexists. split; [reflexivity|]. split; [reflexivity|].
      cbn. rewrite !startTimeCalls_app. cbn. rewrite app_nil_r. reflexivity.
    + intros Hsdk. rewrite Hsdk. eexists. split; [reflexivity|].
      split; [reflexivity|].
      cbn. rewrite !startTimeCalls_app. cbn. rewrite app_nil_r. reflexivity.
Qed.

End Watching.

Section WatchingExamples.
Import GoStrings Types Errors Go Samples Pipeline.

(** C7, the claim as stated fails: a warning with the clock-problem text
    whose debug string does not match the pattern makes the handler panic;
    it returns no error, and [messageWatch] sends nothing on the failure
    channel. *)
Lemma handleMessageWarning_panics :
  let warning := {| Message := msgClockProblem; DebugString := "" |} in
  let p := startingPipeline SourceTypeWeb oneStream in
  handleMessageWarning warning p = Panic
  /\ verdict (messageWatch (MessageWarning warning) 0 p) = None.
Proof. vm_compute. split; reflexivity. Qed.

Lemma handleMessageWarning_clock_problem_witness :
  let warning :=
    {| Message := msgClockProblem;
       DebugString := debugOf "GstAudioTestSrc" "src0" "clock" |} in
  verdict (messageWatch (MessageWarning warning) 0
             (startingPipeline SourceTypeWeb oneStream))
  = Some (false, [ErrGstPipelineError warning]).
Proof.
  intros warning.
  destruct (@handleMessageWarning_clock_problem boundSinks warning
              (startingPipeline SourceTypeWeb oneStream)
              "GstAudioTestSrc" "src0" "clock" 0) as [Hclock _].
  - vm_compute. reflexivity.
  - destruct Hclock as [_ Hwatch]; [reflexivity|].
    rewrite Hwatch. reflexivity.
Defined.

(** C3, the claim as stated fails: an error of an RTMP sink element that no
    URL is bound to is escalated, and so is the error of the RTMP sink that
    is the only output. *)
Lemma rtmp_sink_error_escalates :
  verdict (messageWatch (MessageError (rtmpError "rtmp2sink7")) 0
             (startingPipeline SourceTypeWeb twoStreams))
  = Some (false, [External "stream not found"])
  /\ verdict (messageWatch (MessageError (rtmpError "rtmp2sink0")) 0
                (startingPipeline SourceTypeWeb oneStream))
     = Some (false, [External "Could not open resource for writing."]).
Proof. vm_compute. split; reflexivity. Qed.

Lemma handleMessageError_rtmp_sink_witness :
  verdict (messageWatch (MessageError (rtmpError "rtmp2sink0")) 0
             (startingPipeline SourceTypeWeb twoStreams))
  = Some (true, []).
Proof.
  rewrite (@handleMessageError_rtmp_sink boundSinks (rtmpError "rtmp2sink0")
             (startingPipeline SourceTypeWeb twoStreams)
             "rtmp2sink0" "Failed to connect" 0).
  - vm_compute. reflexivity.
  - vm_compute. reflexivity.
Defined.

Lemma start_time_set_at_most_once_witness :
  let playingMsg := MessageStateChanged "pipeline" StatePaused StatePlaying in
  (length (startTimeCalls
             (calls (watchRun [(playingMsg, 7%Z); (playingMsg, 9%Z)]
                       (startingPipeline SourceTypeWeb oneStream)))) <= 1)%nat
  /\ startTimeCalls
       (calls (watchRun [(playingMsg, 7); (playingMsg, 9)]
                 (startingPipeline SourceTypeWeb oneStream))) = [7].
Proof.
  intros playingMsg. split.
  - destruct (@start_time_set_at_most_once boundSinks) as (_ & _ & Honce & _).
    apply Honce; reflexivity.
  - vm_compute. reflexivity.
Defined.

End WatchingExamples.

(** *** Starting the handler *)

Section Starting.
Import GoStrings Types Errors Go Config Samples Service.
Context `{Startup}.

(** Every failure before the pipeline is built is returned as a fatal
    error, and nothing is sent. *)
Lemma NewHandler_server_failure (conf : PipelineConfig) (now : Z) :
  (is_Some (NewEgressHandlerServer (HandlerID conf))
   \/ is_Some (RegisterUpdateStreamTopic (EgressId (Info conf)))
   \/ is_Some (RegisterStopEgressTopic (EgressId (Info conf)))
   \/ is_Some (Listen network (getSocketAddress (TmpDir conf)))) ->
  sent (NewHandler conf now) = []
  /\ exists err, returned (NewHandler conf now) = Err (Fatal err).
Proof.
  intros Hfail. unfold NewHandler.
  destruct (NewEgressHandlerServer _) as [e1|]; [cbn; eauto|].
  destruct (RegisterUpdateStreamTopic _) as [e2|]; [cbn; eauto|].
  destruct (RegisterStopEgressTopic _) as [e3|]; [cbn; eauto|].
  destruct (Listen _ _) as [e4|]; [cbn; eauto|].
  destruct Hfail as [[? ?]|[[? ?]|[[? ?]|[? ?]]]]; discriminate.
Qed.

(** C4. When the servers are up and building the pipeline fails, the
    constructor returns the error.  If the error is not fatal, [NewHandler]
    sends one update after whatever the pipeline constructor pushed itself:
    the egress info with status FAILED, the text of the error, and the
    update and end times set to the reading of the clock; so exactly one
    update is sent when the pipeline constructor pushed none.  If the error
    is fatal, [NewHandler] sends nothing. *)
Theorem NewHandler_construction_failure (conf conf' : PipelineConfig)
    (pushed : list EgressInfo) (err : error) (now : Z) :
  NewEgressHandlerServer (HandlerID conf) = None ->
  RegisterUpdateStreamTopic (EgressId (Info conf)) = None ->
  RegisterStopEgressTopic (EgressId (Info conf)) = None ->
  Listen network (getSocketAddress (TmpDir conf)) = None ->
  pipelineNew conf = (conf', pushed, Err err) ->
  let started := NewHandler conf now in
  let update := failedInfo now (errorText err) (Info conf') in
  returned started = Err err
  /\ (IsFatal err = false ->
        sent started = pushed ++ [update]
        /\ (pushed = [] -> sent started = [update])
        /\ Status update = EGRESS_FAILED
        /\ Error update = errorText err
        /\ EndedAt update = now
        /\ UpdatedAt update = now
        /\ Info (confAfter started) = update)
  /\ (IsFatal err = true -> sent started = pushed /\ (pushed = [] -> sent started = [])).
Proof.
  intros Hserver Hupdate Hstop Hlisten Hnew started update.
  subst started update. unfold NewHandler.
  rewrite Hserver, Hupdate, Hstop, Hlisten, Hnew.
  destruct (IsFatal err); cbn.
  - split; [reflexivity|]. split; [discriminate|]. intros _.
    split; [reflexivity|]. intros ->. reflexivity.
  - split; [reflexivity|]. split; [|discriminate]. intros _.
    split; [reflexivity|]. split; [intros ->; reflexivity|]. repeat split.
Qed.

End Starting.

Section StartingExamples.
Import GoStrings Types Errors Go Config Samples Service.

Lemma NewHandler_construction_failure_witness :
  let user := ErrInvalidUrl "rtmp://nowhere" "invalid" in
  List.map (fun i => (Status i, Error i, EndedAt i))
    (@sent (failingStartup user) (@NewHandler (failingStartup user) emptyConfig 42))
  = [(EGRESS_FAILED, "invalid url rtmp://nowhere: invalid", 42)]
  /\ @sent (failingStartup (Fatal user))
       (@NewHandler (failingStartup (Fatal user)) emptyConfig 42) = [].
Proof.
  intros user. split.
  - pose proof (@NewHandler_construction_failure (failingStartup user)
                  emptyConfig emptyConfig [] user 42
                  eq_refl eq_refl eq_refl eq_refl eq_refl) as (_ & Huser & _).
    destruct (Huser eq_refl) as (_ & Hone & _).
    rewrite (Hone eq_refl). reflexivity.
  - pose proof (@NewHandler_construction_failure (failingStartup (Fatal user))
                  emptyConfig emptyConfig [] (Fatal user) 42
                  eq_refl eq_refl eq_refl eq_refl eq_refl) as (_ & _ & Hfatal).
    destruct (Hfatal eq_refl) as [_ Hnone].
    apply Hnone. reflexivity.
Defined.

End StartingExamples.

(* ===================================================================== *)
(** ** Further properties of the code *)
(* ===================================================================== *)

(** *** File paths *)

Section FilePaths.
Import GoStrings GoPath GoTime Types Errors Go Config Samples.

Lemma last_byte (s : string) :
  s <> "" -> exists front c, s = front +:+ String c "".
Proof.
  induction s as [|a s IH]; [congruence|]. intros _.
  destruct s as [|b s].
  - exists "", a. reflexivity.
  - destruct IH as (front & c & Hs); [discriminate|].
    exists (String a front), c. rewrite append_cons, <- Hs. reflexivity.
Qed.

Lemma append_last_inj (s t : string) (c d : ascii) :
  s +:+ String c "" = t +:+ String d "" -> s = t /\ c = d.
Proof.
  revert t. induction s as [|a s IH]; intros [|b t];
    rewrite ?append_cons, ?append_nil_l; intros Heq.
  - injection Heq as ->. auto.
  - injection Heq as _ Heq. destruct t; discriminate.
  - injection Heq as _ Heq. destruct s; discriminate.
  - injection Heq as -> Heq. destruct (IH t Heq) as [-> ->]. auto.
Qed.

(** A string ends with the slash exactly when its last part does. *)
Lemma HasSuffix_slash_append (s t : string) :
  t <> "" -> HasSuffix (s +:+ t) "/" = HasSuffix t "/".
Proof.
  intros (front & c & ->)%last_byte.
  rewrite <- append_assoc.
  destruct (Ascii.eqb_spec c "/") as [->|Hc].
  - rewrite !HasSuffix_append. reflexivity.
  - transitivity false; [|symmetry]; apply not_true_is_false;
      intros Hs%HasSuffix_split;
      apply append_last_inj in Hs as [_ Hs]; contradiction.
Qed.

Context `{Tables} `{Runtime}.

Lemma resolveStoragePath_suffix ext identifier now path :
  HasSuffix (resolveStoragePath ext identifier now path) ext = true.
Proof.
  unfold resolveStoragePath.
  destruct (String.eqb path "" || HasSuffix path "/").
  - rewrite <- !append_assoc. apply HasSuffix_append.
  - destruct (HasSuffix path ext) eqn:Hs; [exact Hs|]. apply HasSuffix_append.
Qed.

Lemma updateFilepath_type (o : FileConfig) p identifier replacements now :
  fileOutputConfig (updateFilepath o p identifier replacements now).1
  = fileOutputConfig o.
Proof.
  unfold updateFilepath. cbn [withStorageFilepath withFilename StorageFilepath
    fileOutputConfig UploadConfig].
  destruct (Split _) as [dir filename].
  destruct (UploadConfig o).
  - destruct (MkdirAll _); reflexivity.
  - destruct (if negb (String.eqb dir "") then MkdirAll dir else None); reflexivity.
Qed.

Lemma updateFilepath_suffix (o : FileConfig) p identifier replacements now :
  HasSuffix (StorageFilepath (updateFilepath o p identifier replacements now).1)
    (FileExtensionForOutputType (OutputType_ (fileOutputConfig o))) = true.
Proof. rewrite updateFilepath_storage. apply resolveStoragePath_suffix. Qed.

(** X1. Whatever the path, the replacements and the outcome of making the
    directory, [updateFilepath] leaves a storage path that ends with the
    extension of the output type, and the filename of the file info is that
    storage path. *)
Theorem updateFilepath_ends_with_extension (o : FileConfig) (p : PipelineConfig)
    (identifier : string) (replacements : list (string * string)) (now : Time) :
  let o' := (updateFilepath o p identifier replacements now).1 in
  HasSuffix (StorageFilepath o')
    (FileExtensionForOutputType (OutputType_ (fileOutputConfig o))) = true
  /\ Filename (FileInfo_ o') = StorageFilepath o'.
Proof.
  cbv zeta. split.
  - apply updateFilepath_suffix.
  - unfold updateFilepath. cbn [withStorageFilepath withFilename StorageFilepath
      fileOutputConfig UploadConfig].
    destruct (Split _) as [dir filename].
    destruct (UploadConfig o).
    + destruct (MkdirAll _); reflexivity.
    + destruct (if negb (String.eqb dir "") then MkdirAll dir else None); reflexivity.
Qed.

(** X2. Resolving a path twice changes nothing the second time: after one
    [updateFilepath], a second one whose templates do not occur in the
    storage path leaves the storage path as it is, for an output type whose
    extension is not empty and does not end with a slash. *)
Theorem updateFilepath_again (o : FileConfig) (p p' : PipelineConfig)
    (identifier identifier' : string)
    (replacements replacements' : list (string * string)) (now now' : Time) :
  let ext := FileExtensionForOutputType (OutputType_ (fileOutputConfig o)) in
  let o1 := (updateFilepath o p identifier replacements now).1 in
  ext <> "" -> HasSuffix ext "/" = false ->
  (forall template value,
     (template, value) ∈ replacements' ->
     Contains (StorageFilepath o1) template = false) ->
  StorageFilepath (updateFilepath o1 p' identifier' replacements' now').1
  = StorageFilepath o1.
Proof.
  intros ext o1 Hext Hslash Hfree.
  rewrite updateFilepath_storage. subst o1.
  rewrite updateFilepath_type. fold ext.
  rewrite (stringReplace_fixed _ _ Hfree).
  pose proof (updateFilepath_suffix o p identifier replacements now) as Hs.
  fold ext in Hs.
  set (path := StorageFilepath (updateFilepath o p identifier replacements now).1) in *.
  unfold resolveStoragePath.
  assert (Hne : String.eqb path "" = false).
  { apply String.eqb_neq. intros Hp. rewrite Hp in Hs.
    destruct ext; [congruence|]. discriminate Hs. }
  assert (Hps : HasSuffix path "/" = false).
  { rewrite (HasSuffix_split _ _ Hs), HasSuffix_slash_append by exact Hext.
    exact Hslash. }
  rewrite Hne, Hps, Hs. reflexivity.
Qed.

End FilePaths.

(** *** Stream outputs, further *)

Section StreamUrls.
Import GoStrings Types Errors Go Config Samples Notions.
Context `{Runtime}.

Lemma validateUrls_ok outputType (urls : list string) :
  forall infos infos' : gmap string StreamInfo,
  validateUrls outputType urls infos = Ok infos' ->
  (forall url, url ∈ urls ->
     exists redacted, ValidateUrl url outputType = Ok redacted
                      /\ infos' !! url = Some {| Url := redacted |})
  /\ (forall url, url ∉ urls -> infos' !! url = infos !! url).
Proof.
  induction urls as [|u urls IH]; intros infos infos' Hv.
  - injection Hv as <-. split; [|reflexivity].
    intros url Hin. apply elem_of_nil in Hin. destruct Hin.
  - cbn [validateUrls] in Hv.
    destruct (ValidateUrl u outputType) as [redacted|] eqn:Hu; [|discriminate].
    destruct (IH _ _ Hv) as [Hin Hout]. split.
    + intros url [-> | Hurl]%elem_of_cons; [|auto].
      destruct (decide (u ∈ urls)) as [Hu'|Hu']; [auto|].
      exists redacted. split; [exact Hu|].
      rewrite (Hout u Hu'). apply lookup_insert_eq.
    + intros url Hurl. apply not_elem_of_cons in Hurl as [Hne Hurl].
      rewrite (Hout url Hurl). apply lookup_insert_ne. congruence.
Qed.

Lemma validateUrls_err outputType (urls : list string) :
  forall (infos : gmap string StreamInfo) err,
  validateUrls outputType urls infos = Err err <->
  exists before url after,
    urls = before ++ url :: after
    /\ (forall u, u ∈ before -> exists redacted, ValidateUrl u outputType = Ok redacted)
    /\ ValidateUrl url outputType = Err err.
Proof.
  induction urls as [|u urls IH]; intros infos err.
  - split; [discriminate|]. intros (before & url & after & Hurls & _).
    destruct before; discriminate.
  - cbn [validateUrls].
    destruct (ValidateUrl u outputType) as [redacted|e] eqn:Hu.
    + rewrite IH. split.
      * intros (before & url & after & -> & Hbefore & Hurl).
        exists (u :: before), url, after. split; [reflexivity|]. split; [|exact Hurl].
        intros u' [-> | Hin]%elem_of_cons; eauto.
      * intros (before & url & after & Hurls & Hbefore & Hurl).
        destruct before as [|b before]; injection Hurls as <- ->.
        -- congruence.
        -- exists before, url, after. split; [reflexivity|]. split; [|exact Hurl].
           intros u' Hin. apply Hbefore. right. exact Hin.
    + split.
      * intros [= <-]. exists [], u, urls. split; [reflexivity|]. split; [|exact Hu].
        intros u' Hin. apply elem_of_nil in Hin. destruct Hin.
      * intros (before & url & after & Hurls & Hbefore & Hurl).
        destruct before as [|b before]; injection Hurls as <- ->.
        -- congruence.
        -- destruct (Hbefore u) as [r Hr]; [left|]. congruence.
Qed.

(** X3. What [ValidateUrl] accepts.  A raw websocket URL is accepted exactly
    when it parses with the scheme [ws] or [wss], and is returned as it is.
    An RTMP URL is accepted exactly when it parses and its stream key can be
    redacted, and the redacted URL is returned.  For every other output type
    the URL is refused. *)
Theorem ValidateUrl_accepts (rawUrl : string) :
  (forall accepted,
     ValidateUrl rawUrl OutputTypeRaw = Ok accepted <->
     accepted = rawUrl
     /\ exists u, urlParse rawUrl = inr u /\ (Scheme u = "ws" \/ Scheme u = "wss"))
  /\ (forall accepted,
        ValidateUrl rawUrl OutputTypeRTMP = Ok accepted <->
        (exists u, urlParse rawUrl = inr u) /\ RedactStreamKey rawUrl = Some accepted)
  /\ (forall outputType,
        outputType <> OutputTypeRTMP -> outputType <> OutputTypeRaw ->
        isErr (ValidateUrl rawUrl outputType) = true).
Proof.
  unfold ValidateUrl. split; [|split].
  - intros accepted. destruct (urlParse rawUrl) as [e|u].
    + split; [discriminate|]. intros (_ & u & Hu & _). discriminate.
    + destruct (String.eqb_spec (Scheme u) "ws") as [Hws|Hws];
        destruct (String.eqb_spec (Scheme u) "wss") as [Hwss|Hwss]; cbn;
        first [ split; [intros [= <-]; split; [reflexivity | eauto]
                       | intros (-> & _); reflexivity]
              | split; [discriminate
                       | intros (_ & u' & [= <-] & [?|?]); contradiction] ].
  - intros accepted. destruct (urlParse rawUrl) as [e|u].
    + split; [discriminate|]. intros ((u & Hu) & _). discriminate.
    + destruct (RedactStreamKey rawUrl) as [r|]; split.
      * intros [= <-]. eauto.
      * intros (_ & [= <-]). reflexivity.
      * discriminate.
      * intros (_ & ?). discriminate.
  - intros outputType Hrtmp Hraw.
    destruct (urlParse rawUrl); [reflexivity|].
    destruct outputType; try reflexivity; contradiction.
Qed.

(** X4. When [getStreamConfig] succeeds, the stream info of the new output
    is keyed by exactly the URLs it was given, each entry holds the URL that
    [ValidateUrl] returned for its key, the output type is the one asked
    for, and for RTMP and raw outputs the list of URLs is the one given. *)
Theorem getStreamConfig_stream_info (p p' : PipelineConfig)
    (outputType : OutputType) (urls : list string) (conf : StreamConfig) :
  getStreamConfig p outputType urls = (p', Ok conf) ->
  (forall url, url ∈ urls <-> is_Some (StreamInfo_ conf !! url))
  /\ (forall url info,
        StreamInfo_ conf !! url = Some info ->
        ValidateUrl url outputType = Ok (Url info))
  /\ OutputType_ (streamOutputConfig conf) = outputType
  /\ (outputType = OutputTypeRTMP \/ outputType = OutputTypeRaw ->
        Urls conf = urls).
Proof.
  unfold getStreamConfig. intros Hg.
  destruct (validateUrls outputType urls ∅) as [infos|] eqn:Hv.
  - destruct (validateUrls_ok _ _ _ _ Hv) as [Hin Hout].
    assert (Hconf : StreamInfo_ conf = infos
                    /\ OutputType_ (streamOutputConfig conf) = outputType
                    /\ (outputType = OutputTypeRTMP \/ outputType = OutputTypeRaw ->
                          Urls conf = urls)).
    { destruct outputType; simplify_eq; cbn; repeat split;
        intros [?|?]; try discriminate; reflexivity. }
    destruct Hconf as (-> & Htype & Hurls).
    split; [|split; [|split]]; [| |exact Htype|exact Hurls].
    + intros url. split.
      * intros Hurl. destruct (Hin url Hurl) as (r & _ & ->). eauto.
      * intros [info Hinfo]. destruct (decide (url ∈ urls)) as [|Hno]; [assumption|].
        rewrite (Hout url Hno), lookup_empty in Hinfo. discriminate.
    + intros url info Hinfo.
      destruct (decide (url ∈ urls)) as [Hurl|Hno].
      * destruct (Hin url Hurl) as (r & Hr & Hl). rewrite Hl in Hinfo.
        injection Hinfo as <-. exact Hr.
      * rewrite (Hout url Hno), lookup_empty in Hinfo. discriminate.
  - destruct outputType; simplify_eq.
Qed.

(** X5. [getStreamConfig] fails exactly when one of the URLs does not
    validate, and its error is that of the first such URL. *)
Theorem getStreamConfig_first_invalid_url (p : PipelineConfig)
    (outputType : OutputType) (urls : list string) (err : error) :
  (getStreamConfig p outputType urls).2 = Err err <->
  exists before url after,
    urls = before ++ url :: after
    /\ (forall u, u ∈ before -> exists redacted, ValidateUrl u outputType = Ok redacted)
    /\ ValidateUrl url outputType = Err err.
Proof.
  rewrite <- (validateUrls_err outputType urls ∅ err).
  unfold getStreamConfig.
  destruct (validateUrls outputType urls ∅) as [infos|e];
    destruct outputType; cbn; split; intros Hx; simplify_eq; reflexivity.
Qed.

End StreamUrls.

Section StreamUrlsExamples.
Import GoStrings Types Errors Go Config Samples Notions.

Lemma getStreamConfig_stream_info_witness :
  exists p' conf,
    @getStreamConfig sampleRuntime emptyConfig OutputTypeRTMP twoRtmpUrls = (p', Ok conf)
    /\ Url <$> StreamInfo_ conf !! "rtmps://example.org/app/secret"
       = Some "rtmps://example.org/app/{stream_key}"
    /\ Urls conf = twoRtmpUrls.
Proof.
  destruct (@getStreamConfig sampleRuntime emptyConfig OutputTypeRTMP twoRtmpUrls)
    as [p' [conf|]] eqn:Hg; [|vm_compute in Hg; discriminate].
  exists p', conf. split; [reflexivity|].
  destruct (@getStreamConfig_stream_info sampleRuntime _ _ _ _ _ Hg)
    as (Hkeys & Hvalues & _ & Hurls).
  split; [|apply Hurls; left; reflexivity].
  destruct (proj1 (Hkeys "rtmps://example.org/app/secret")) as [info Hinfo].
  { right. left. }
  rewrite Hinfo. cbn. f_equal.
  pose proof (Hvalues _ _ Hinfo) as Hv.
  assert (Hr : @ValidateUrl sampleRuntime "rtmps://example.org/app/secret"
                 OutputTypeRTMP = Ok "rtmps://example.org/app/{stream_key}")
    by (vm_compute; reflexivity).
  rewrite Hr in Hv. injection Hv as <-. reflexivity.
Defined.

End StreamUrlsExamples.

(** *** Codec resolution, further *)

Section CodecSets.
Import GoStrings GoTime Types Errors Go Config Samples Notions.
Context `{Tables} `{Runtime} `{Ranging}.

(** The loop over the outputs computes the intersection of the candidates
    with the compatibility set of every output, and stops only when no
    candidate is compatible with all of them. *)
Lemma intersectOutputs_spec (outputs : list (EgressType * OutputConfig)) :
  forall candidates : gset MimeType,
  match intersectOutputs candidates outputs with
  | inr compatible =>
      (forall codec, codec ∈ compatible <->
         codec ∈ candidates
         /\ forall e, e ∈ outputs -> codec ∈ CodecCompatibility (GetOutputType e.2))
      /\ (outputs <> [] -> compatible <> ∅)
  | inl o => o ∈ outputs.*2 /\ ~ commonCodec candidates outputs
  end.
Proof.
  induction outputs as [|[kind o] outputs IH]; intros candidates.
  - cbn. split; [|congruence]. intros codec. split; [|tauto].
    intros Hc. split; [exact Hc|]. intros e He. apply elem_of_nil in He. destruct He.
  - cbn [intersectOutputs]. unfold GetMapIntersection.
    destruct (size (candidates ∩ CodecCompatibility (GetOutputType o)) =? 0)%nat
      eqn:Hsize.
    + apply Nat.eqb_eq, size_empty_iff in Hsize. split; [rewrite fmap_cons; left|].
      intros (codec & Hc & Hall).
      assert (codec ∈ candidates ∩ CodecCompatibility (GetOutputType o)) as Hin.
      { apply elem_of_intersection. split; [exact Hc|]. apply (Hall (kind, o)). left. }
      rewrite Hsize in Hin. apply elem_of_empty in Hin. exact Hin.
    + apply Nat.eqb_neq in Hsize.
      specialize (IH (candidates ∩ CodecCompatibility (GetOutputType o))).
      destruct (intersectOutputs _ outputs) as [o'|compatible].
      * destruct IH as [Hin Hnone]. split; [rewrite fmap_cons; right; exact Hin|].
        intros (codec & Hc & Hall). apply Hnone. exists codec. split.
        -- apply elem_of_intersection. split; [exact Hc|]. apply (Hall (kind, o)). left.
        -- intros e He. apply Hall. right. exact He.
      * destruct IH as [Hiff Hne]. split.
        -- intros codec. rewrite Hiff, elem_of_intersection. split.
           ++ intros [[Hc Ho] Hall]. split; [exact Hc|].
              intros e [-> | He]%elem_of_cons; [exact Ho | auto].
           ++ intros [Hc Hall]. split; [split; [exact Hc|]|].
              ** apply (Hall (kind, o)). left.
              ** intros e He. apply Hall. right. exact He.
        -- intros _. destruct outputs as [|e outputs]; [|apply Hne; discriminate].
           assert (Hc1 : candidates ∩ CodecCompatibility (GetOutputType o) ≠ ∅).
           { intros Hc. apply Hsize. rewrite Hc. apply size_empty. }
           apply set_choose_L in Hc1 as [codec Hc]. intros Hempty.
           assert (Hin : codec ∈ compatible).
           { apply Hiff. split; [exact Hc|]. intros e He.
             apply elem_of_nil in He. destruct He. }
           rewrite Hempty in Hin. apply elem_of_empty in Hin. exact Hin.
Qed.

Lemma intersect_visited site (candidates : gset MimeType)
    (outputs : list (EgressType * OutputConfig)) :
  fairRanging ->
  match intersectOutputs candidates (visitOutputs site outputs) with
  | inr compatible =>
      (forall codec, codec ∈ compatible <->
         codec ∈ candidates
         /\ forall e, e ∈ outputs -> codec ∈ CodecCompatibility (GetOutputType e.2))
      /\ (outputs <> [] -> compatible <> ∅)
  | inl o => outputs <> [] /\ ~ commonCodec candidates outputs
  end.
Proof.
  intros (Hfair & _). specialize (Hfair site outputs).
  pose proof (intersectOutputs_spec (visitOutputs site outputs) candidates) as Hs.
  destruct (intersectOutputs candidates (visitOutputs site outputs))
    as [o|compatible].
  - destruct Hs as [Hin Hnone]. split.
    + intros ->. apply Permutation_nil_r in Hfair. rewrite Hfair in Hin.
      apply elem_of_nil in Hin. exact Hin.
    + intros (codec & Hc & Hall). apply Hnone. exists codec. split; [exact Hc|].
      intros e He. apply Hall. rewrite <- Hfair. exact He.
  - destruct Hs as [Hiff Hne]. split.
    + intros codec. rewrite Hiff. split; intros [Hc Hall]; (split; [exact Hc|]);
        intros e He; apply Hall; [rewrite Hfair | rewrite <- Hfair]; exact He.
    + intros Hout. apply Hne. intros Hnil. rewrite Hnil in Hfair.
      apply Hout. symmetry in Hfair. apply Permutation_nil_r in Hfair. exact Hfair.
Qed.

(** X6. When codec resolution succeeds, the audio codecs it returns are
    exactly the candidates (the pinned codec, or all output codecs) that
    every output is compatible with, and there is at least one as soon as
    there is an output; with audio disabled the set is empty.  The same holds
    of video.  The order in which the outputs are visited does not matter. *)
Theorem validateAndUpdateOutputCodecs_sets (p : PipelineConfig)
    (audioCodecs videoCodecs : gset MimeType) :
  fairRanging ->
  validateAndUpdateOutputCodecs p = Ok (audioCodecs, videoCodecs) ->
  (if AudioEnabled (Audio p) then
     (forall codec, codec ∈ audioCodecs <->
        codec ∈ audioCandidates p
        /\ forall e, e ∈ Outputs p -> codec ∈ CodecCompatibility (GetOutputType e.2))
     /\ (Outputs p <> [] -> audioCodecs <> ∅)
   else audioCodecs = ∅)
  /\ (if VideoEnabled (Video p) then
        (forall codec, codec ∈ videoCodecs <->
           codec ∈ videoCandidates p
           /\ forall e, e ∈ Outputs p -> codec ∈ CodecCompatibility (GetOutputType e.2))
        /\ (Outputs p <> [] -> videoCodecs <> ∅)
      else videoCodecs = ∅).
Proof.
  intros Hfair. unfold validateAndUpdateOutputCodecs.
  pose proof (intersect_visited 0%nat (audioCandidates p) (Outputs p) Hfair) as Ha.
  pose proof (intersect_visited 1%nat (videoCandidates p) (Outputs p) Hfair) as Hv.
  unfold audioCandidates, videoCandidates in *.
  destruct (AudioEnabled (Audio p)), (VideoEnabled (Video p));
    repeat case_match; intros; simplify_eq; auto.
Qed.

(** X7. Codec resolution fails exactly when there is an output and, for
    audio or for video if enabled, no candidate codec that every output is
    compatible with; whether it fails does not depend on the order in which
    the outputs are visited. *)
Theorem validateAndUpdateOutputCodecs_fails_iff (p : PipelineConfig) :
  fairRanging ->
  (isErr (validateAndUpdateOutputCodecs p) = true <->
   Outputs p <> []
   /\ ((AudioEnabled (Audio p) = true
        /\ ~ commonCodec (audioCandidates p) (Outputs p))
       \/ (VideoEnabled (Video p) = true
           /\ ~ commonCodec (videoCandidates p) (Outputs p)))).
Proof.
  intros Hfair. unfold validateAndUpdateOutputCodecs.
  pose proof (intersect_visited 0%nat (audioCandidates p) (Outputs p) Hfair) as Ha.
  pose proof (intersect_visited 1%nat (videoCandidates p) (Outputs p) Hfair) as Hv.
  assert (Hcommon : forall (candidates compatible : gset MimeType),
             (forall codec, codec ∈ compatible <->
                codec ∈ candidates
                /\ forall e, e ∈ Outputs p ->
                             codec ∈ CodecCompatibility (GetOutputType e.2)) ->
             compatible <> ∅ -> commonCodec candidates (Outputs p)).
  { intros candidates compatible Hiff [codec Hc]%set_choose_L.
    exists codec. apply Hiff. exact Hc. }
  unfold audioCandidates, videoCandidates in *.
  destruct (AudioEnabled (Audio p)), (VideoEnabled (Video p));
    repeat case_match; cbn; split;
    first
      [ discriminate
      | intros _; reflexivity
      | intros _;
        first [ destruct Ha as [? ?]; split;
                [assumption | left; split; [reflexivity | assumption]]
              | destruct Hv as [? ?]; split;
                [assumption | right; split; [reflexivity | assumption]] ]
      | intros (Hout & [[He Hno] | [He Hno]]); try discriminate He;
        exfalso; apply Hno;
        match goal with
        | Hx : (forall codec, codec ∈ ?c <-> codec ∈ ?cand /\ _) /\ _
          |- commonCodec ?cand _ =>
            destruct Hx as [Hiff Hne]; exact (Hcommon cand c Hiff (Hne Hout))
        end ].
Qed.


Lemma last_visited (l : list MimeType) :
  match List.last (Some <$> l) None with
  | Some k => k ∈ l
  | None => l = []
  end.
Proof.
  induction l as [|a l IH]; [reflexivity|].
  destruct l as [|b l]; [left|].
  change (List.last (Some <$> a :: b :: l) None)
    with (List.last (Some <$> b :: l) None).
  destruct (List.last (Some <$> b :: l) None); [right; exact IH | discriminate].
Qed.

Lemma visited_codec (site : nat) (compatible : gset MimeType) :
  fairRanging -> compatible <> ∅ ->
  exists k, List.last (Some <$> visitCodecs site compatible) None = Some k
            /\ k ∈ compatible.
Proof.
  intros (_ & Hfair & _) Hne. specialize (Hfair site compatible).
  pose proof (last_visited (visitCodecs site compatible)) as Hl.
  destruct (List.last _ None) as [k|].
  - exists k. split; [reflexivity|]. rewrite Hfair in Hl.
    apply elem_of_elements. exact Hl.
  - rewrite Hl in Hfair. symmetry in Hfair. apply Permutation_nil_r in Hfair.
    apply elements_empty_iff in Hfair. apply leibniz_equiv in Hfair. contradiction.
Qed.

Lemma updateOutputType_known (p : PipelineConfig)
    (audioCodecs videoCodecs : gset MimeType) (now now' : Time) :
  (forall c, GetFileConfig p = Some c ->
     OutputType_ (fileOutputConfig c) <> OutputTypeUnknownFile) ->
  updateOutputType p audioCodecs videoCodecs now now' = (p, None).
Proof.
  intros Hknown. unfold updateOutputType.
  destruct (GetFileConfig p) as [c|]; [|reflexivity].
  rewrite bool_decide_eq_false_2 by (apply Hknown; reflexivity). reflexivity.
Qed.

Lemma validateAndUpdateOutputParams_steps (p : PipelineConfig)
    (audioCodecs videoCodecs : gset MimeType) (now now' : Time) :
  validateAndUpdateOutputCodecs p = Ok (audioCodecs, videoCodecs) ->
  updateOutputType p audioCodecs videoCodecs now now' = (p, None) ->
  validateAndUpdateOutputParams p now now'
  = (selectVideoCodec videoCodecs (selectAudioCodec audioCodecs p), None).
Proof.
  intros Hc Ht. unfold validateAndUpdateOutputParams. rewrite Hc, Ht. reflexivity.
Qed.

Lemma selectAudioCodec_frame (compatible : gset MimeType) (p : PipelineConfig) :
  Outputs (selectAudioCodec compatible p) = Outputs p
  /\ Video (selectAudioCodec compatible p) = Video p
  /\ AudioEnabled (Audio (selectAudioCodec compatible p)) = AudioEnabled (Audio p).
Proof. unfold selectAudioCodec. repeat case_match; cbn; auto. Qed.

Lemma selectVideoCodec_frame (compatible : gset MimeType) (p : PipelineConfig) :
  Outputs (selectVideoCodec compatible p) = Outputs p
  /\ Audio (selectVideoCodec compatible p) = Audio p
  /\ VideoEnabled (Video (selectVideoCodec compatible p)) = VideoEnabled (Video p).
Proof. unfold selectVideoCodec. repeat case_match; cbn; auto. Qed.

Lemma selectAudioCodec_compatible (compatible : gset MimeType) (p : PipelineConfig) :
  fairRanging ->
  AudioEnabled (Audio p) = true ->
  compatible <> ∅ ->
  (forall codec, codec ∈ compatible -> codec ∈ audioCandidates p) ->
  AudioOutCodec (Audio (selectAudioCodec compatible p)) ∈ compatible.
Proof.
  intros Hfair Hon Hne Hsub. unfold selectAudioCodec. rewrite Hon.
  destruct (visited_codec 0%nat compatible Hfair Hne) as (k & -> & Hk).
  destruct (List.find _ _) as [e|] eqn:Hfind.
  - apply find_some in Hfind as [_ Hd%bool_decide_eq_true]. cbn.
    destruct (String.eqb _ ""); cbn; assumption.
  - destruct (String.eqb (AudioOutCodec (Audio p)) "") eqn:Hpin; [exact Hk|].
    apply Hsub in Hk as Hk'. unfold audioCandidates in Hk'. rewrite Hpin in Hk'.
    apply elem_of_singleton in Hk'. rewrite <- Hk'. exact Hk.
Qed.

Lemma selectVideoCodec_compatible (compatible : gset MimeType) (p : PipelineConfig) :
  fairRanging ->
  VideoEnabled (Video p) = true ->
  compatible <> ∅ ->
  (forall codec, codec ∈ compatible -> codec ∈ videoCandidates p) ->
  VideoOutCodec (Video (selectVideoCodec compatible p)) ∈ compatible.
Proof.
  intros Hfair Hon Hne Hsub. unfold selectVideoCodec. rewrite Hon.
  destruct (visited_codec 1%nat compatible Hfair Hne) as (k & -> & Hk).
  destruct (List.find _ _) as [e|] eqn:Hfind.
  - apply find_some in Hfind as [_ Hd%bool_decide_eq_true]. cbn.
    destruct (String.eqb _ ""); cbn; assumption.
  - destruct (String.eqb (VideoOutCodec (Video p)) "") eqn:Hpin; [exact Hk|].
    apply Hsub in Hk as Hk'. unfold videoCandidates in Hk'. rewrite Hpin in Hk'.
    apply elem_of_singleton in Hk'. rewrite <- Hk'. exact Hk.
Qed.

Lemma resolved_codecs (p : PipelineConfig) (audioCodecs videoCodecs : gset MimeType) :
  validateAndUpdateOutputCodecs p = Ok (audioCodecs, videoCodecs) ->
  (AudioEnabled (Audio p) = true ->
     intersectOutputs (audioCandidates p) (visitOutputs 0 (Outputs p))
     = inr audioCodecs)
  /\ (VideoEnabled (Video p) = true ->
        intersectOutputs (videoCandidates p) (visitOutputs 1 (Outputs p))
        = inr videoCodecs).
Proof.
  unfold validateAndUpdateOutputCodecs, audioCandidates, videoCandidates.
  destruct (AudioEnabled (Audio p)), (VideoEnabled (Video p));
    repeat case_match; intros; simplify_eq; split; intros; congruence.
Qed.

(** X8. When the configuration has an output and no file output of unknown
    type, and some candidate codec suits every output, the selection of
    [validateAndUpdateOutputParams] succeeds, keeps the outputs, and leaves
    for each enabled medium an output codec that every output is compatible
    with, whatever the orders in which outputs and codecs are visited. *)
Theorem validateAndUpdateOutputParams_selects (p : PipelineConfig)
    (now now' : Time) :
  fairRanging ->
  Outputs p <> [] ->
  (forall c, GetFileConfig p = Some c ->
     OutputType_ (fileOutputConfig c) <> OutputTypeUnknownFile) ->
  isErr (validateAndUpdateOutputCodecs p) = false ->
  let after := validateAndUpdateOutputParams p now now' in
  after.2 = None
  /\ Outputs after.1 = Outputs p
  /\ (AudioEnabled (Audio p) = true ->
        forall e, e ∈ Outputs after.1 ->
          AudioOutCodec (Audio after.1) ∈ CodecCompatibility (GetOutputType e.2))
  /\ (VideoEnabled (Video p) = true ->
        forall e, e ∈ Outputs after.1 ->
          VideoOutCodec (Video after.1) ∈ CodecCompatibility (GetOutputType e.2)).
Proof.
  intros Hfair Hout Hknown Hok after. subst after.
  destruct (validateAndUpdateOutputCodecs p) as [[audioCodecs videoCodecs]|]
    eqn:Hcodecs; [clear Hok | discriminate].
  rewrite (validateAndUpdateOutputParams_steps p audioCodecs videoCodecs now now'
             Hcodecs (updateOutputType_known p _ _ now now' Hknown)).
  destruct (resolved_codecs p audioCodecs videoCodecs Hcodecs) as [Hra Hrv].
  destruct (selectAudioCodec_frame audioCodecs p) as (HoutA & HvidA & HonA).
  destruct (selectVideoCodec_frame videoCodecs (selectAudioCodec audioCodecs p))
    as (HoutV & HaudV & HonV).
  cbn [fst snd]. split; [reflexivity|]. split; [congruence|]. split.
  - intros Hon e He.
    pose proof (intersect_visited 0%nat (audioCandidates p) (Outputs p) Hfair) as Ha.
    rewrite (Hra Hon) in Ha. destruct Ha as [Hiff Hne].
    rewrite HaudV. rewrite HoutV, HoutA in He.
    assert (Hin : AudioOutCodec (Audio (selectAudioCodec audioCodecs p)) ∈ audioCodecs).
    { apply selectAudioCodec_compatible; auto. intros codec Hc. apply Hiff, Hc. }
    apply Hiff in Hin as [_ Hall]. apply Hall, He.
  - intros Hon e He.
    pose proof (intersect_visited 1%nat (videoCandidates p) (Outputs p) Hfair) as Hv.
    rewrite (Hrv Hon) in Hv. destruct Hv as [Hiff Hne].
    rewrite HoutV, HoutA in He.
    assert (Hin : VideoOutCodec (Video (selectVideoCodec videoCodecs
                                          (selectAudioCodec audioCodecs p)))
                  ∈ videoCodecs).
    { apply selectVideoCodec_compatible; auto.
      - rewrite HvidA. exact Hon.
      - intros codec Hc. unfold videoCandidates. rewrite HvidA. apply Hiff, Hc. }
    apply Hiff in Hin as [_ Hall]. apply Hall, He.
Qed.

End CodecSets.

Section CodecSetsExamples.
Import GoStrings GoTime Types Errors Go Config Samples Notions.

Lemma validateAndUpdateOutputCodecs_sets_witness :
  exists audioCodecs videoCodecs,
    @validateAndUpdateOutputCodecs sampleTables inOrder bothToMp4
    = Ok (audioCodecs, videoCodecs)
    /\ (MimeTypeAAC ∈ audioCodecs) /\ (MimeTypeVP8 ∉ videoCodecs).
Proof.
  destruct (@validateAndUpdateOutputCodecs sampleTables inOrder bothToMp4)
    as [[audioCodecs videoCodecs]|] eqn:Hv; [|vm_compute in Hv; discriminate].
  exists audioCodecs, videoCodecs. split; [reflexivity|].
  destruct (@validateAndUpdateOutputCodecs_sets sampleTables inOrder bothToMp4
              audioCodecs videoCodecs inOrder_fair Hv) as [[Ha _] [Hvid _]].
  split.
  - apply Ha. split.
    + apply (bool_decide_unpack (_ ∈ _)). vm_compute. exact I.
    + intros e [-> | He]%elem_of_cons.
      * apply (bool_decide_unpack (_ ∈ _)). vm_compute. exact I.
      * apply elem_of_nil in He. destruct He.
  - intros [Hc _]%Hvid. revert Hc.
    apply (bool_decide_unpack (_ ∉ _)). vm_compute. exact I.
Defined.

Lemma validateAndUpdateOutputCodecs_fails_iff_witness :
  isErr (@validateAndUpdateOutputCodecs sampleTables inOrder videoPinnedToOgg) = true.
Proof.
  apply (@validateAndUpdateOutputCodecs_fails_iff sampleTables inOrder
           videoPinnedToOgg inOrder_fair).
  split; [discriminate|]. right. split; [reflexivity|].
  intros (codec & Hc & Hall).
  specialize (Hall (EgressTypeFile, OfFile (fileAt OutputTypeOGG "out.ogg"))
                   (list_elem_of_here _ _)).
  change (codec ∈ ({[ MimeTypeH264 ]} : gset MimeType)) in Hc.
  change (codec ∈ ({[ MimeTypeOpus ]} : gset MimeType)) in Hall.
  apply elem_of_singleton in Hc. apply elem_of_singleton in Hall.
  rewrite Hc in Hall. discriminate Hall.
Defined.

Lemma validateAndUpdateOutputParams_selects_witness :
  let after :=
    @validateAndUpdateOutputParams sampleTables sampleRuntime inOrder bothToMp4
      noon noon in
  after.2 = None
  /\ (AudioOutCodec (Audio after.1) ∈ @CodecCompatibility sampleTables OutputTypeMP4)
  /\ (VideoOutCodec (Video after.1) ∈ @CodecCompatibility sampleTables OutputTypeMP4).
Proof.
  intros after. subst after.
  destruct (@validateAndUpdateOutputParams_selects sampleTables sampleRuntime inOrder
              bothToMp4 noon noon inOrder_fair) as (Hok & Hout & Ha & Hv).
  - discriminate.
  - intros c [= <-]. discriminate.
  - vm_compute. reflexivity.
  - split; [exact Hok|]. split.
    + apply (Ha eq_refl (EgressTypeFile, OfFile (fileAt OutputTypeMP4 "out.mp4"))).
      rewrite Hout. left.
    + apply (Hv eq_refl (EgressTypeFile, OfFile (fileAt OutputTypeMP4 "out.mp4"))).
      rewrite Hout. left.
Defined.

End CodecSetsExamples.

(** *** File paths, further *)

Section LocalPaths.
Import GoStrings GoPath GoTime Types Errors Go Config Samples.
Context `{Tables} `{Runtime}.


End LocalPaths.

Section FilePathsExamples.
Import GoStrings GoPath GoTime Types Errors Go Config Samples.

Lemma updateFilepath_again_witness :
  let o1 :=
    (@updateFilepath sampleTables sampleRuntime
       (fileAt OutputTypeOGG "t_{track_id}") emptyConfig "demo" [] noon).1 in
  StorageFilepath
    (@updateFilepath sampleTables sampleRuntime o1 emptyConfig "demo"
       [("{room_name}", "demo")] noon).1
  = "t_{track_id}.ogg".
Proof.
  intros o1. subst o1.
  rewrite (@updateFilepath_again sampleTables sampleRuntime).
  - vm_compute. reflexivity.
  - discriminate.
  - reflexivity.
  - intros template value [[= -> ->] | Hin]%elem_of_cons.
    + vm_compute. reflexivity.
    + apply elem_of_nil in Hin. destruct Hin.
Defined.

End FilePathsExamples.

(** *** Request validation, further *)

Section Rejecting.
Import GoStrings GoTime Types Errors Go Config Samples.
Context `{Tables} `{Runtime} `{Ranging} `{Validation}.


(** X11. The connection info that [Update] requires of every variant but
    the web one is accepted exactly when the room has a name, the request
    brings a token or the configuration holds an API key and secret from
    which a token can be built, and the request or the configuration names a
    websocket URL.  The token and the URL of the request win over those of
    the configuration. *)
Theorem connectionInfo_accepts (request : StartEgressRequest) (p : PipelineConfig) :
  let after := connectionInfo request p in
  (after.2 = None <->
     RoomName (Info p) <> ""
     /\ (req_Token request <> ""
         \/ (ApiKey (Base p) <> "" /\ ApiSecret (Base p) <> ""
             /\ exists token,
                  BuildEgressToken (EgressId (Info p)) (ApiKey (Base p))
                    (ApiSecret (Base p)) (RoomName (Info p)) = Ok token))
     /\ (req_WsUrl request <> "" \/ WsUrl (Base p) <> ""))
  /\ (after.2 = None ->
        (req_Token request <> "" -> Token (Source after.1) = req_Token request)
        /\ (req_WsUrl request <> "" -> WsUrl (Base after.1) = req_WsUrl request)
        /\ (req_WsUrl request = "" -> WsUrl (Base after.1) = WsUrl (Base p))
        /\ Info after.1 = Info p /\ Outputs after.1 = Outputs p
        /\ Audio after.1 = Audio p /\ Video after.1 = Video p).
Proof.
  cbv zeta. unfold connectionInfo.
  destruct (String.eqb (RoomName (Info p)) "") eqn:Hroom.
  { apply String.eqb_eq in Hroom.
    split; [|discriminate]. split; [discriminate|]. intros [? _]. contradiction. }
  apply String.eqb_neq in Hroom.
  destruct (String.eqb (req_Token request) "") eqn:Htok;
    [apply String.eqb_eq in Htok|apply String.eqb_neq in Htok];
    (destruct (String.eqb (req_WsUrl request) "") eqn:Hws;
     [pose proof (proj1 (String.eqb_eq _ _) Hws) as Hws'
     |pose proof (proj1 (String.eqb_neq _ _) Hws) as Hws']);
    (destruct (String.eqb (ApiKey (Base p)) "") eqn:Hkey;
     [apply String.eqb_eq in Hkey|apply String.eqb_neq in Hkey]);
    (destruct (String.eqb (ApiSecret (Base p)) "") eqn:Hsec;
     [apply String.eqb_eq in Hsec|apply String.eqb_neq in Hsec]);
    (destruct (String.eqb (WsUrl (Base p)) "") eqn:Hurl;
     [pose proof (proj1 (String.eqb_eq _ _) Hurl) as Hurl'
     |pose proof (proj1 (String.eqb_neq _ _) Hurl) as Hurl']);
    destruct (BuildEgressToken _ _ _ _) as [token|e] eqn:Hbuild;
    cbn; rewrite ?Hws, ?Hurl; cbn;
    (split;
     [split;
      [try discriminate; intros _; repeat split; eauto 10
      |try reflexivity;
       intros (_ & [?|(? & ? & ? & ?)] & [?|?]); congruence]
     |try discriminate; intros _; repeat split; try congruence]).
Qed.

End Rejecting.

(** *** The outputs of an SDK source *)

Section SdkOutputs.
Import GoStrings GoTime Types Errors Go Config ConfigRest Samples Notions.
Import Pipeline (outcome, Done, Panic).
Context `{Tables} `{Runtime} `{Ranging}.

Lemma updateInfoLoop_passes (identifier : string)
    (visits : nat -> list (string * string)) (now : Time)
    (pre rest : list (EgressType * OutputConfig)) (p : PipelineConfig) :
  Forall passedOver pre ->
  updateInfoLoop identifier visits now (pre ++ rest) p
  = updateInfoLoop identifier visits now rest p.
Proof.
  induction 1 as [|[key c] pre [Hfile Hseg] _ IH]; [reflexivity|].
  cbn in Hfile, Hseg. rewrite <- IH. destruct key; cbn; congruence.
Qed.

Lemma lookupOutput_setFileConfig (key : EgressType) (c : FileConfig)
    (p : PipelineConfig) :
  key <> EgressTypeFile ->
  lookupOutput key (setFileConfig c p) = lookupOutput key p.
Proof.
  intros Hkey. unfold lookupOutput, setFileConfig. cbn.
  induction (Outputs p) as [|[k o] l IH]; [reflexivity|]. cbn.
  repeat (case_bool_decide; cbn in *); simplify_eq; cbn; try reflexivity;
    try exact IH; congruence.
Qed.

(** X12. When the loop of [UpdateInfoFromSDK] comes to the file output
    before it comes to the segment output, it returns from there with what
    [updateFilepath] returns: the segment output is left as it was, its
    templates unreplaced.  As the order of a [range] over a map is not fixed,
    the same call may or may not replace them. *)
Theorem UpdateInfoFromSDK_file_first (p : PipelineConfig) (identifier : string)
    (visits : nat -> list (string * string)) (now : Time) (f : FileConfig)
    (pre post : list (EgressType * OutputConfig)) :
  visitOutputs 4 (Outputs p) = pre ++ (EgressTypeFile, OfFile f) :: post ->
  Forall passedOver pre ->
  exists p',
    UpdateInfoFromSDK p identifier visits now
    = Done (p', (updateFilepath f p identifier (visits 0%nat) now).2)
    /\ lookupOutput EgressTypeSegments p' = lookupOutput EgressTypeSegments p
    /\ lookupOutput EgressTypeStream p' = lookupOutput EgressTypeStream p
    /\ lookupOutput EgressTypeWebsocket p' = lookupOutput EgressTypeWebsocket p.
Proof.
  intros Hvisit Hpre. unfold UpdateInfoFromSDK.
  rewrite Hvisit, updateInfoLoop_passes by assumption. cbn.
  destruct (updateFilepath f p identifier (visits 0%nat) now) as [o' err].
  eexists. split; [reflexivity|].
  repeat split; apply lookupOutput_setFileConfig; discriminate.
Qed.

(** X13. Without a file output, [UpdateInfoFromSDK] returns no error
    whatever the order of the visit: a configuration with neither file nor
    segment output is left as it is, and one with a segment output has the
    five paths of that output substituted and nothing else changed. *)
Theorem UpdateInfoFromSDK_without_file (p : PipelineConfig) (identifier : string)
    (visits : nat -> list (string * string)) (now : Time) :
  fairRanging ->
  NoDup (Outputs p).*1 ->
  EgressTypeFile ∉ (Outputs p).*1 ->
  (EgressTypeSegments ∉ (Outputs p).*1 ->
     UpdateInfoFromSDK p identifier visits now = Done (p, None))
  /\ (forall o, (EgressTypeSegments, OfSegments o) ∈ Outputs p ->
        UpdateInfoFromSDK p identifier visits now
        = Done (setSegmentConfig (substituteSegment visits o) p, None)).
Proof.
  intros (Hfair & _ & _) Hnodup Hfile. unfold UpdateInfoFromSDK.
  specialize (Hfair 4%nat (Outputs p)).
  assert (Hkeys : (visitOutputs 4 (Outputs p)).*1 ≡ₚ (Outputs p).*1)
    by (apply fmap_Permutation; assumption).
  rewrite <- Hkeys in Hnodup, Hfile.
  split.
  - intros Hseg. rewrite <- Hkeys in Hseg.
    rewrite <- (app_nil_r (visitOutputs 4 (Outputs p))).
    rewrite updateInfoLoop_passes; [reflexivity|].
    apply Forall_forall. intros e He. split; intros Hk.
    + apply Hfile. rewrite <- Hk. apply list_elem_of_fmap_2, He.
    + apply Hseg. rewrite <- Hk. apply list_elem_of_fmap_2, He.
  - intros o Ho. rewrite <- Hfair in Ho.
    apply list_elem_of_split in Ho as (pre & post & Hsplit).
    rewrite Hsplit in Hnodup, Hfile |- *.
    rewrite fmap_app, fmap_cons in Hnodup, Hfile. cbn in Hnodup, Hfile.
    apply NoDup_app in Hnodup as (_ & Hpre & Hpost%NoDup_cons_1_1).
    assert (Hpassed : forall l : list (EgressType * OutputConfig),
               EgressTypeFile ∉ l.*1 -> EgressTypeSegments ∉ l.*1 ->
               Forall passedOver l).
    { intros l Hf Hs. apply Forall_forall. intros e He. split; intros Hk.
      - apply Hf. rewrite <- Hk. apply list_elem_of_fmap_2, He.
      - apply Hs. rewrite <- Hk. apply list_elem_of_fmap_2, He. }
    rewrite updateInfoLoop_passes.
    + cbn [updateInfoLoop].
      rewrite <- (app_nil_r post), updateInfoLoop_passes; [reflexivity|].
      apply Hpassed; [|assumption].
      intros Hin. apply Hfile. apply elem_of_app. right. right. exact Hin.
    + apply Hpassed.
      * intros Hin. apply Hfile. apply elem_of_app. left. exact Hin.
      * intros Hin. apply (Hpre _ Hin). left.
Qed.

Lemma GetFileConfig_setFileConfig (c c0 : FileConfig) (p : PipelineConfig) :
  GetFileConfig p = Some c0 -> GetFileConfig (setFileConfig c p) = Some c.
Proof.
  unfold GetFileConfig, setFileConfig. cbn.
  induction (Outputs p) as [|[k o] l IH]; [discriminate|]. cbn.
  repeat (case_bool_decide; cbn in *); simplify_eq; cbn; try reflexivity;
    try exact IH; try congruence.
Qed.

(** X14. When [updateOutputType] returns no error for a configuration
    with a file output, that output has a type afterwards: a type that was
    set is kept with the whole configuration, and one that was not set has
    been found among the compatible types, with the storage path made to end
    with the extension of the type found. *)
Theorem updateOutputType_resolves (p p' : PipelineConfig) (c : FileConfig)
    (audioCodecs videoCodecs : gset MimeType) (now now' : Time) :
  GetFileConfig p = Some c ->
  updateOutputType p audioCodecs videoCodecs now now' = (p', None) ->
  exists c',
    GetFileConfig p' = Some c'
    /\ OutputType_ (fileOutputConfig c') <> OutputTypeUnknownFile
    /\ (OutputType_ (fileOutputConfig c) <> OutputTypeUnknownFile -> p' = p)
    /\ (OutputType_ (fileOutputConfig c) = OutputTypeUnknownFile ->
          HasSuffix (StorageFilepath c')
            (FileExtensionForOutputType (OutputType_ (fileOutputConfig c'))) = true).
Proof.
  intros Hfile. unfold updateOutputType. rewrite Hfile.
  case_bool_decide as Hknown; cbn [negb].
  - set (ot := if negb (VideoEnabled (Video p)) then _ else _).
    case_bool_decide as Hot; [discriminate|].
    destruct (getFilenameInfo p now) as [identifier replacements].
    pose proof (updateFilepath_type (withFileOutputType ot c) p identifier
                  (visitReplacements replacements) now') as Htype.
    pose proof (updateFilepath_suffix (withFileOutputType ot c) p identifier
                  (visitReplacements replacements) now') as Hsuffix.
    destruct (updateFilepath _ p identifier _ now') as [o err].
    cbn [fst] in Htype, Hsuffix. intros [= <- ->].
    exists o. rewrite Htype. cbn.
    split; [eapply GetFileConfig_setFileConfig; eassumption|].
    split; [assumption|]. split; [congruence|]. intros _. exact Hsuffix.
  - intros [= <-]. exists c. repeat split; try assumption; congruence.
Qed.

End SdkOutputs.

Section SdkOutputsExamples.
Import GoStrings GoTime Types Errors Go Config ConfigRest Samples Notions.
Import Pipeline (outcome, Done, Panic).

#[local] Existing Instance sampleTables.
#[local] Existing Instance sampleRuntime.
#[local] Existing Instance inOrder.

Lemma UpdateInfoFromSDK_file_first_witness :
  exists p',
    UpdateInfoFromSDK fileAndSegments "room" roomIsLobby noon
    = Done (p', None)
    /\ lookupOutput EgressTypeSegments p' = Some (OfSegments templatedSegments).
Proof.
  destruct (UpdateInfoFromSDK_file_first fileAndSegments "room" roomIsLobby noon
              (fileAt OutputTypeMP4 "{room_name}.mp4") []
              [(EgressTypeSegments, OfSegments templatedSegments)])
    as (p' & Hreturned & Hsegments & _).
  - reflexivity.
  - constructor.
  - exists p'. split; [exact Hreturned|]. rewrite Hsegments. reflexivity.
Defined.

Lemma UpdateInfoFromSDK_without_file_witness :
  UpdateInfoFromSDK streamAndSegments "room" roomIsLobby noon
  = Done (setSegmentConfig (substituteSegment roomIsLobby templatedSegments)
            streamAndSegments, None).
Proof.
  apply (UpdateInfoFromSDK_without_file streamAndSegments "room" roomIsLobby noon).
  - apply inOrder_fair.
  - apply (bool_decide_unpack _). vm_compute. exact I.
  - apply (bool_decide_unpack (_ ∉ _)). vm_compute. exact I.
  - repeat first [apply list_elem_of_here | apply list_elem_of_further].
Defined.

Lemma updateOutputType_resolves_witness :
  exists c',
    GetFileConfig (updateOutputType audioToUnknownFile {[ MimeTypeOpus ]} ∅ noon noon).1
    = Some c'
    /\ OutputType_ (fileOutputConfig c') = OutputTypeOGG
    /\ StorageFilepath c' = "out.ogg".
Proof.
  destruct (updateOutputType_resolves audioToUnknownFile
              (updateOutputType audioToUnknownFile {[ MimeTypeOpus ]} ∅ noon noon).1
              (fileAt OutputTypeUnknownFile "out") {[ MimeTypeOpus ]} ∅ noon noon)
    as (c' & Hfile & _).
  - reflexivity.
  - vm_compute. reflexivity.
  - exists c'. split; [exact Hfile|].
    vm_compute in Hfile. injection Hfile as <-. split; reflexivity.
Defined.

End SdkOutputsExamples.

(** *** The bus watch, further *)

Section DebugInfo.
Import GoStrings Types Errors Go Samples Notions Pipeline.

Lemma indexOf_first (c : ascii) (front sub rest : string) :
  lacks c front = true ->
  indexOf (front +:+ String c sub +:+ rest) (String c sub)
  = Some (String.length front).
Proof.
  intros Hfront. induction front as [|a front IH].
  - rewrite append_nil_l, append_cons. cbn [indexOf].
    rewrite <- append_cons, HasPrefix_append. reflexivity.
  - cbn [lacks] in Hfront. apply andb_true_iff in Hfront as [Ha Hfront].
    rewrite append_cons. cbn [indexOf HasPrefix].
    destruct (Ascii.eqb a c); [discriminate|].
    rewrite (IH Hfront). reflexivity.
Qed.

Lemma untilColon_name (name rest : string) :
  lacks ":" name = true -> untilColon (name +:+ String ":" rest) = name.
Proof.
  induction name as [|a name IH]; intros Hname; [reflexivity|].
  cbn [lacks] in Hname. apply andb_true_iff in Hname as [Ha Hname].
  rewrite append_cons. cbn [untilColon].
  destruct (Ascii.eqb a ":"); [discriminate|]. rewrite (IH Hname). reflexivity.
Qed.

(** X15. On debug info in the documented format,
    [location GstPipeline:pipeline/GstBin:bin/element:name:] followed by a
    line break and the message, [parseDebugInfo] does not panic and returns
    the element, the name and the message, provided that the location has no
    [G], the bin no slash, and the element and the name no colon. *)
Theorem parseDebugInfo_documented_format
    (text location bin element name message : string) :
  lacks "G" location = true -> lacks "/" bin = true ->
  lacks ":" element = true -> lacks ":" name = true ->
  parseDebugInfo {| Message := text;
                    DebugString := debugInfo location bin element name message |}
  = Done (element, name, message).
Proof.
  intros Hlocation Hbin Helement Hname.
  unfold parseDebugInfo, findDebugSubmatch, debugInfo. cbn [DebugString].
  change "GstPipeline:pipeline/GstBin:"%string
    with (String "G" "stPipeline:pipeline/GstBin:") at 1 2.
  rewrite (indexOf_first "G" location _ _ Hlocation).
  change (String "G" "stPipeline:pipeline/GstBin:")
    with "GstPipeline:pipeline/GstBin:"%string.
  rewrite <- length_append, <- append_assoc, sliceFrom_append.
  change "/"%string with (String "/" "") at 1 2.
  rewrite (indexOf_first "/" bin "" _ Hbin).
  change (S (String.length bin)) with (String.length (String "/" "") + String.length bin)%nat.
  replace (String.length (String "/" "") + String.length bin)%nat
    with (String.length (bin +:+ String "/" ""))
    by (rewrite length_append; cbn; lia).
  rewrite <- append_assoc, sliceFrom_append.
  change ":"%string with (String ":" "") at 1 2.
  rewrite (indexOf_first ":" element "" _ Helement).
  rewrite sliceTo_append.
  replace (S (String.length element))
    with (String.length (element +:+ String ":" ""))
    by (rewrite length_append; cbn; lia).
  rewrite <- append_assoc, sliceFrom_append.
  change (name +:+ ":" +:+ newline +:+ message)
    with (name +:+ String ":" (newline +:+ message)).
  rewrite (untilColon_name _ _ Hname), sliceFrom_append.
  reflexivity.
Qed.

End DebugInfo.

Section WatchingFurther.
Import GoStrings Types Errors Go Samples Notions Pipeline.
Context `{Collaborators}.

(** X16. An error whose debug info parses and that comes neither from an
    RTMP sink, nor from an app source that stopped streaming for lack of
    negotiation, nor from the muxer of a split-mux sink once the pipeline is
    closed, is fatal: [handleMessageError] logs it and returns the pipeline
    error made from it, and [messageWatch] sends that error on the failure
    channel and stops the watch, without a call on the source or the sinks.
    The muxer error of a pipeline that is not closed is among them. *)
Theorem handleMessageError_fatal (gErr : GError) (p : Pipeline)
    (element name message : string) (now : Z) :
  findDebugSubmatch (DebugString gErr) = Some (element, name, message) ->
  element <> elementGstRtmp2Sink ->
  ~ (element = elementGstAppSrc /\ message = msgStreamingNotNegotiated) ->
  ~ (element = elementSplitMuxSink /\ message = msgMuxer /\ closed p = true) ->
  handleMessageError gErr p
  = Done (called (LogError message) p, Some (ErrGstPipelineError gErr))
  /\ exists p',
       messageWatch (MessageError gErr) now p = Done (false, p')
       /\ Failure p' = Failure p ++ [ErrGstPipelineError gErr]
       /\ world p' = world p
       /\ calls p' = calls p ++ [LogError message].
Proof.
  intros Hmatch Hrtmp Happ Hmux.
  assert (Hh : handleMessageError gErr p
               = Done (called (LogError message) p, Some (ErrGstPipelineError gErr))).
  { unfold handleMessageError. rewrite (parseDebugInfo_match _ _ _ _ Hmatch).
    destruct (String.eqb_spec element elementGstRtmp2Sink) as [?|_]; [contradiction|].
    destruct (String.eqb_spec element elementGstAppSrc) as [Helt|_].
    - destruct (String.eqb_spec message msgStreamingNotNegotiated) as [?|_];
        [exfalso; auto|reflexivity].
    - destruct (String.eqb_spec element elementSplitMuxSink) as [Helt|_];
        [|reflexivity].
      destruct (String.eqb_spec message msgMuxer) as [Hmsg|_]; [|reflexivity].
      destruct (closed p) eqn:Hclosed; [exfalso; auto|reflexivity]. }
  split; [exact Hh|]. unfold messageWatch. rewrite Hh.
  eexists. split; [reflexivity|]. repeat split.
Qed.

(** X17. After an error whose debug info parses, the watch goes on in
    three cases only: the error of an RTMP sink whose URL is found and whose
    removal returns no error; the not-negotiated error of an app source, the
    source being an SDK source; and the muxer error of a split-mux sink when
    the pipeline is closed. *)
Theorem messageWatch_error_goes_on (gErr : GError) (p : Pipeline)
    (element name message : string) (now : Z) :
  findDebugSubmatch (DebugString gErr) = Some (element, name, message) ->
  (exists p', messageWatch (MessageError gErr) now p = Done (true, p'))
  <-> (element = elementGstRtmp2Sink
       /\ exists url, getStreamUrl (world p) name = Ok url
                      /\ (removeSink (world p) url gErr).2 = None)
      \/ (element = elementGstAppSrc /\ message = msgStreamingNotNegotiated
          /\ isSDKSource (world p) = true)
      \/ (element = elementSplitMuxSink /\ message = msgMuxer /\ closed p = true).
Proof.
  intros Hmatch. unfold messageWatch, handleMessageError.
  rewrite (parseDebugInfo_match _ _ _ _ Hmatch).
  destruct (String.eqb_spec element elementGstRtmp2Sink) as [Hrtmp|Hrtmp].
  { cbn [world called].
    destruct (getStreamUrl (world p) name) as [url|err] eqn:Hurl.
    - destruct (removeSink (world p) url gErr) as [w [err|]] eqn:Hremove.
      + split.
        * intros [p' [=]].
        * intros [(_ & url' & [= <-] & Hnone)|[(-> & _)|(-> & _)]];
            try discriminate.
          rewrite Hremove in Hnone. discriminate.
      + split; [|eauto]. intros _. left. split; [assumption|].
        exists url. rewrite Hremove. auto.
    - split.
      + intros [p' [=]].
      + intros [(_ & url' & [=] & _)|[(-> & _)|(-> & _)]]; discriminate. }
  destruct (String.eqb_spec element elementGstAppSrc) as [Happ|Happ].
  { destruct (String.eqb_spec message msgStreamingNotNegotiated) as [Hmsg|Hmsg].
    - cbn [world called]. destruct (isSDKSource (world p)) eqn:Hsdk.
      + split; [|eauto]. intros _. right. left. auto.
      + split.
        * intros [p' [=]].
        * intros [(-> & _)|[(_ & _ & ?)|(-> & _)]]; discriminate.
    - split.
      + intros [p' [=]].
      + intros [(? & _)|[(_ & ? & _)|(-> & _)]]; try contradiction; discriminate. }
  destruct (String.eqb_spec element elementSplitMuxSink) as [Hmux|Hmux].
  { destruct (String.eqb_spec message msgMuxer) as [Hmsg|Hmsg];
      [destruct (closed p) eqn:Hclosed|]; cbn [andb].
    - split; [|eauto]. intros _. right. right. auto.
    - split.
      + intros [p' [=]].
      + intros [(? & _)|[(? & _)|(_ & _ & ?)]]; try contradiction; discriminate.
    - split.
      + intros [p' [=]].
      + intros [(? & _)|[(? & _)|(_ & ? & _)]]; contradiction. }
  split.
  - intros [p' [=]].
  - intros [(? & _)|[(? & _)|(? & _)]]; contradiction.
Qed.

(** What no handler writes: the failure channel, the fuse, the EOS timer
    and the source type. *)
Lemma handleMessageEOS_frame (p : Pipeline) :
  Failure (handleMessageEOS p) = Failure p
  /\ closed (handleMessageEOS p) = closed p
  /\ eosTimer (handleMessageEOS p) = eosTimer p
  /\ SourceType_ (handleMessageEOS p) = SourceType_ p.
Proof. unfold handleMessageEOS. destruct (eosTimer p) eqn:Ht; cbn; auto. Qed.

Lemma handleMessageWarning_frame gErr (p p' : Pipeline) err :
  handleMessageWarning gErr p = Done (p', err) ->
  Failure p' = Failure p /\ closed p' = closed p
  /\ eosTimer p' = eosTimer p /\ SourceType_ p' = SourceType_ p.
Proof.
  unfold handleMessageWarning. intros Hh.
  repeat case_match; simplify_eq; cbn; auto.
Qed.

Lemma handleMessageError_frame gErr (p p' : Pipeline) err :
  handleMessageError gErr p = Done (p', err) ->
  Failure p' = Failure p /\ closed p' = closed p
  /\ eosTimer p' = eosTimer p /\ SourceType_ p' = SourceType_ p.
Proof.
  unfold handleMessageError. intros Hh.
  repeat case_match; simplify_eq; cbn; auto.
Qed.

Lemma handleMessageElement_frame s (p p' : Pipeline) err :
  handleMessageElement s p = Done (p', err) ->
  Failure p' = Failure p /\ closed p' = closed p
  /\ eosTimer p' = eosTimer p /\ SourceType_ p' = SourceType_ p.
Proof.
  unfold handleMessageElement, resetTimer. intros Hh.
  repeat case_match; simplify_eq; cbn; auto.
Qed.

Lemma handleMessageStateChanged_frame source newState now (p p' : Pipeline) :
  handleMessageStateChanged source newState now p = Done p' ->
  Failure p' = Failure p /\ closed p' = closed p
  /\ eosTimer p' = eosTimer p /\ SourceType_ p' = SourceType_ p.
Proof.
  unfold handleMessageStateChanged. intros Hh.
  repeat case_match; simplify_eq; cbn in *; auto.
Qed.

(** One message: the watch goes on exactly when nothing is sent on the
    failure channel or the message is not the end of the stream. *)
Lemma messageWatch_frame msg now (p p' : Pipeline) goesOn :
  messageWatch msg now p = Done (goesOn, p') ->
  closed p' = closed p /\ eosTimer p' = eosTimer p
  /\ SourceType_ p' = SourceType_ p
  /\ (if goesOn then Failure p' = Failure p
      else exists errs, Failure p' = Failure p ++ errs /\ (length errs <= 1)%nat).
Proof.
  intros Hw. unfold messageWatch in Hw.
  destruct msg as [|gErr|gErr|source old new|s|].
  - simplify_eq. destruct (handleMessageEOS_frame p) as (Hf & Hc & Ht & Hs).
    repeat split; try assumption. exists []. rewrite app_nil_r. split; [assumption|].
    cbn. lia.
  - destruct (handleMessageWarning gErr p) as [[q [err|]]|] eqn:Hh; simplify_eq;
      destruct (handleMessageWarning_frame _ _ _ _ Hh) as (Hf & Hc & Ht & Hs);
      cbn; repeat split; try assumption.
    exists [err]. rewrite Hf. split; [reflexivity|cbn; lia].
  - destruct (handleMessageError gErr p) as [[q [err|]]|] eqn:Hh; simplify_eq;
      destruct (handleMessageError_frame _ _ _ _ Hh) as (Hf & Hc & Ht & Hs);
      cbn; repeat split; try assumption.
    exists [err]. rewrite Hf. split; [reflexivity|cbn; lia].
  - destruct (handleMessageStateChanged source new now p) as [q|] eqn:Hh;
      simplify_eq.
    destruct (handleMessageStateChanged_frame _ _ _ _ _ Hh) as (Hf & Hc & Ht & Hs).
    repeat split; assumption.
  - destruct (handleMessageElement s p) as [[q [err|]]|] eqn:Hh; simplify_eq;
      destruct (handleMessageElement_frame _ _ _ _ Hh) as (Hf & Hc & Ht & Hs);
      cbn; repeat split; try assumption.
    exists [err]. rewrite Hf. split; [reflexivity|cbn; lia].
  - simplify_eq. repeat split.
Qed.

(** X18. Whatever the messages of a run, the watch sends at most one error
    on the failure channel, and it writes neither the fuse [closed], nor the
    EOS timer, nor the source type. *)
Theorem watchRun_fails_at_most_once (msgs : list (GstMessage * Z)) (p : Pipeline) :
  closed (watchRun msgs p) = closed p
  /\ eosTimer (watchRun msgs p) = eosTimer p
  /\ SourceType_ (watchRun msgs p) = SourceType_ p
  /\ exists errs, Failure (watchRun msgs p) = Failure p ++ errs
                  /\ (length errs <= 1)%nat.
Proof.
  revert p. induction msgs as [|[msg now] msgs IH]; intros p; cbn [watchRun].
  - repeat split. exists []. rewrite app_nil_r. split; [reflexivity|cbn; lia].
  - destruct (messageWatch msg now p) as [[[|] q]|] eqn:Hw.
    + destruct (messageWatch_frame _ _ _ _ _ Hw) as (Hc & Ht & Hs & Hf).
      destruct (IH q) as (Hc' & Ht' & Hs' & errs & Hf' & Hlen).
      rewrite Hc', Ht', Hs', Hf', Hc, Ht, Hs, Hf. repeat split. eauto.
    + destruct (messageWatch_frame _ _ _ _ _ Hw) as (Hc & Ht & Hs & Hf).
      auto.
    + repeat split. exists []. rewrite app_nil_r. split; [reflexivity|cbn; lia].
Qed.

(** X19. Every message after the end of the stream is left unhandled: a
    run is the run up to and including the first end of stream.  The end of
    the stream itself stops the EOS timer, if one is set, and the pipeline,
    and sends no error. *)
Theorem watchRun_ends_at_eos (before after : list (GstMessage * Z)) (now : Z)
    (p : Pipeline) :
  watchRun (before ++ (MessageEOS, now) :: after) p
  = watchRun (before ++ [(MessageEOS, now)]) p
  /\ (let p' := watchRun ((MessageEOS, now) :: after) p in
      Failure p' = Failure p
      /\ playing p' = playing p
      /\ world p' = stop (world p)
      /\ calls p'
         = calls p ++ (if eosTimer p then [TimerStop] else [])
             ++ [LogInfo "EOS received, stopping pipeline"; Stop]).
Proof.
  split.
  - revert p. induction before as [|[msg t] before IH]; intros p; [reflexivity|].
    cbn [app watchRun].
    destruct (messageWatch msg t p) as [[[|] q]|]; [apply IH|reflexivity|reflexivity].
  - cbn. unfold handleMessageEOS.
    destruct (eosTimer p); cbn; rewrite <- ?app_assoc; auto.
Qed.

(** X20. The running time of a fragment is a [uint64] that
    [getSegmentParamsFromGstStructure] converts to [int64]: the time
    returned is the running time modulo [2^64] in the range of [int64], so it
    is the running time itself exactly when that is below [2^63], and is
    negative otherwise. *)
Theorem getSegmentParamsFromGstStructure_time (s : Structure) (filepath : string)
    (ti : Z) :
  Values s !! fragmentLocation = Some (GString filepath) ->
  Values s !! fragmentRunningTime = Some (GUint64 ti) ->
  0 <= ti < 2 ^ 64 ->
  exists t,
    getSegmentParamsFromGstStructure s = Ok (filepath, t)
    /\ - 2 ^ 63 <= t < 2 ^ 63
    /\ t mod 2 ^ 64 = ti
    /\ (ti < 2 ^ 63 -> t = ti)
    /\ (2 ^ 63 <= ti -> t = ti - 2 ^ 64 /\ t < 0).
Proof.
  intros Hloc Htime Hrange. unfold getSegmentParamsFromGstStructure.
  rewrite Hloc, Htime. exists (toInt64 ti). split; [reflexivity|].
  unfold toInt64. destruct (Z.ltb_spec ti (2 ^ 63)) as [Hlt|Hge].
  - repeat split; try lia. apply Z.mod_small. lia.
  - repeat split; try lia.
    replace (ti - 2 ^ 64) with (ti + (-1) * 2 ^ 64) by lia.
    rewrite Z.mod_add by lia. apply Z.mod_small. lia.
Qed.


End WatchingFurther.

Section WatchingFurtherExamples.
Import GoStrings Types Errors Go Samples Notions Pipeline.

#[local] Existing Instance boundSinks.

Lemma parseDebugInfo_documented_format_witness :
  parseDebugInfo {| Message := "Could not write to resource.";
                    DebugString := debugInfo "gstfilesink.c(412): write (): /" "file"
                                     "GstFileSink" "filesink0" "No space left" |}
  = Done ("GstFileSink", "filesink0", "No space left")%string.
Proof.
  apply (parseDebugInfo_documented_format "Could not write to resource."
           "gstfilesink.c(412): write (): /" "file" "GstFileSink" "filesink0"
           "No space left"); reflexivity.
Defined.

Lemma handleMessageError_fatal_witness :
  exists p',
    messageWatch (MessageError muxerError) 0 (startingPipeline SourceTypeWeb oneStream)
    = Done (false, p')
    /\ Failure p' = [ErrGstPipelineError muxerError].
Proof.
  destruct (handleMessageError_fatal muxerError
              (startingPipeline SourceTypeWeb oneStream)
              elementSplitMuxSink "splitmuxsink0" msgMuxer 0)
    as (_ & p' & Hwatch & Hfailure & _).
  - reflexivity.
  - discriminate.
  - intros [? _]. discriminate.
  - intros (_ & _ & ?). discriminate.
  - exists p'. split; [exact Hwatch|exact Hfailure].
Defined.

Lemma messageWatch_error_goes_on_witness :
  exists p',
    messageWatch (MessageError muxerError) 0
      (@Build_Pipeline boundSinks true true false SourceTypeWeb [] oneStream [])
    = Done (true, p').
Proof.
  apply (messageWatch_error_goes_on muxerError
           (@Build_Pipeline boundSinks true true false SourceTypeWeb [] oneStream [])
           elementSplitMuxSink "splitmuxsink0" msgMuxer 0).
  - reflexivity.
  - right. right. repeat split.
Defined.

Lemma getSegmentParamsFromGstStructure_time_witness :
  exists t,
    getSegmentParamsFromGstStructure
      (fragment msgFragmentOpened "seg_0.ts" (2 ^ 63)) = Ok ("seg_0.ts"%string, t)
    /\ t = - 2 ^ 63.
Proof.
  destruct (getSegmentParamsFromGstStructure_time
              (fragment msgFragmentOpened "seg_0.ts" (2 ^ 63)) "seg_0.ts" (2 ^ 63))
    as (t & Hparams & _ & _ & _ & Hwrapped).
  - reflexivity.
  - reflexivity.
  - lia.
  - exists t. split; [exact Hparams|]. destruct Hwrapped as [-> _]; lia.
Defined.


End WatchingFurtherExamples.

(** *** The handlers and the process manager *)

Section Handlers.
Import GoStrings Types Errors Go Config Samples Service ServiceV0.
Context `{Startup}.

(** X22. The first of the four steps before the pipeline is built that
    fails ends [NewHandler]: its error is returned wrapped as a fatal error,
    nothing is sent, and the configuration is as it was, whatever building
    the pipeline would have done. *)
Theorem NewHandler_startup_failure (conf : PipelineConfig) (now : Z) (err : error) :
  NewEgressHandlerServer (HandlerID conf) = Some err
  \/ (NewEgressHandlerServer (HandlerID conf) = None
      /\ (RegisterUpdateStreamTopic (EgressId (Info conf)) = Some err
          \/ (RegisterUpdateStreamTopic (EgressId (Info conf)) = None
              /\ (RegisterStopEgressTopic (EgressId (Info conf)) = Some err
                  \/ (RegisterStopEgressTopic (EgressId (Info conf)) = None
                      /\ Listen network (getSocketAddress (TmpDir conf))
                         = Some err))))) ->
  NewHandler conf now
  = {| returned := Err (Fatal err); confAfter := conf; sent := [] |}.
Proof.
  unfold NewHandler.
  intros [->|(-> & [->|(-> & [->|(-> & ->)])])]; reflexivity.
Qed.

(** X23. The deprecated handler reports every failure to build the
    pipeline, fatal or not: [buildPipeline] sends one update after those of
    the pipeline constructor, with status FAILED and the text of the error
    but with the update and end times as they were; [Run] then returns the
    error only if it is fatal.  On a fatal error [NewHandler], by contrast,
    sends nothing of its own. *)
Theorem buildPipeline_reports_failure (conf conf' : PipelineConfig)
    (pushed : list EgressInfo) (err : error) (now : Z) :
  pipelineNew conf = (conf', pushed, Err err) ->
  let update := failedInfoV0 (errorText err) (Info conf') in
  built (buildPipeline conf) = Err err
  /\ sentV0 (buildPipeline conf) = pushed ++ [update]
  /\ Info (confBuilt (buildPipeline conf)) = update
  /\ Status update = EGRESS_FAILED
  /\ Error update = errorText err
  /\ UpdatedAt update = UpdatedAt (Info conf')
  /\ EndedAt update = EndedAt (Info conf')
  /\ runBuild conf = Some (if IsFatal err then Some err else None)
  /\ (NewEgressHandlerServer (HandlerID conf) = None ->
      RegisterUpdateStreamTopic (EgressId (Info conf)) = None ->
      RegisterStopEgressTopic (EgressId (Info conf)) = None ->
      Listen network (getSocketAddress (TmpDir conf)) = None ->
      IsFatal err = true ->
      sent (NewHandler conf now) = pushed).
Proof.
  intros Hnew update. subst update. unfold runBuild, buildPipeline, NewHandler.
  rewrite Hnew. cbn. repeat split.
  - destruct (IsFatal err); reflexivity.
  - intros -> -> -> -> ->. reflexivity.
Qed.

End Handlers.

Section HandlersExamples.
Import GoStrings Types Errors Go Config Samples Notions Service ServiceV0.

Lemma NewHandler_startup_failure_witness :
  @NewHandler (deafStartup (External "address already in use")) emptyConfig 7
  = @Build_Started (deafStartup (External "address already in use"))
      (Err (Fatal (External "address already in use"))) emptyConfig [].
Proof.
  apply (@NewHandler_startup_failure (deafStartup (External "address already in use"))
           emptyConfig 7 (External "address already in use")).
  right. split; [reflexivity|]. right. split; [reflexivity|].
  right. split; reflexivity.
Defined.

Lemma buildPipeline_reports_failure_witness :
  @sentV0 _ (@buildPipeline (failingStartup (Fatal (External "no display")))
               emptyConfig)
  = [failedInfoV0 "no display" emptyInfo]
  /\ @sent _ (@NewHandler (failingStartup (Fatal (External "no display")))
                emptyConfig 7) = [].
Proof.
  destruct (@buildPipeline_reports_failure
              (failingStartup (Fatal (External "no display")))
              emptyConfig emptyConfig [] (Fatal (External "no display")) 7 eq_refl)
    as (_ & Hsent & _ & _ & _ & _ & _ & _ & Hnew).
  split; [exact Hsent|].
  apply Hnew; reflexivity.
Defined.

End HandlersExamples.

Section Managing.
Import GoStrings GoPath Types Errors Go Config Samples Service Manager.
Context `{Launcher}.

(** X24. When [launchHandler] returns no error, the handler is registered
    under the egress id of the request, in place of any handler registered
    under that id before: [getGRPCClient] returns the client dialled at the
    socket [service_rpc.sock] in the temporary directory of the new handler,
    the manager is not idle and lists the id, the monitor was told of the
    start, and the handlers under other ids are as they were. *)
Theorem launchHandler_registers (s s' : ProcessManager)
    (request : StartEgressRequest) (i : EgressInfo) (version : Z) :
  launchHandler s request i version = (s', None) ->
  getGRPCClient s' (req_EgressId request)
  = Ok (Join [Join [TempDir; NewGuid "EGH_"]; "service_rpc.sock"])
  /\ isIdle s' = false
  /\ req_EgressId request ∈ listEgress s'
  /\ egressStarted s' = egressStarted s ++ [req_EgressId request]
  /\ egressEnded s' = egressEnded s
  /\ fatalErrors s' = fatalErrors s
  /\ (forall other, other <> req_EgressId request ->
        activeHandlers s' !! other = activeHandlers s !! other).
Proof.
  unfold launchHandler. intros Hlaunch.
  destruct (yamlMarshal _ _ _) as [confString|?]; [|discriminate].
  destruct (protojsonMarshal request) as [reqString|?]; [|discriminate].
  destruct (cmdStart _ _ _); [discriminate|].
  destruct (grpcDial _); [discriminate|]. injection Hlaunch as <-.
  unfold getGRPCClient, isIdle, listEgress. cbn.
  rewrite lookup_insert_eq. split; [reflexivity|]. split.
  - apply Nat.eqb_neq. intros Hsize. apply map_size_empty_iff in Hsize.
    exact (insert_non_empty _ _ _ Hsize).
  - split.
    + apply list_elem_of_fmap. eexists (_, _). split; [reflexivity|].
      apply elem_of_map_to_list. apply lookup_insert_eq.
    + repeat split. intros other Hother. apply lookup_insert_ne. congruence.
Qed.

(** X25. When [launchHandler] returns an error, no handler is registered
    and none is removed.  The monitor is told of a start only if the process
    was started, which is the case exactly when the error is that of the
    dial: that start is then never followed by an end, as no handler is kept
    for [awaitCleanup]. *)
Theorem launchHandler_failure (s s' : ProcessManager)
    (request : StartEgressRequest) (i : EgressInfo) (version : Z) (err : error) :
  launchHandler s request i version = (s', Some err) ->
  activeHandlers s' = activeHandlers s
  /\ egressEnded s' = egressEnded s
  /\ fatalErrors s' = fatalErrors s
  /\ (s' = s
      \/ (egressStarted s' = egressStarted s ++ [req_EgressId request]
          /\ grpcDial (getSocketAddress (Join [TempDir; NewGuid "EGH_"])) = Some err)).
Proof.
  unfold launchHandler. intros Hlaunch.
  destruct (yamlMarshal _ _ _) as [confString|?]; [|simplify_eq; auto].
  destruct (protojsonMarshal request) as [reqString|?]; [|simplify_eq; auto].
  destruct (cmdStart _ _ _); [simplify_eq; auto|].
  destruct (grpcDial _) eqn:Hdial; [|discriminate].
  injection Hlaunch as <- <-. cbn. auto 10.
Qed.

(** X26. [awaitCleanup] removes whatever handler is registered under the
    egress id of the process that ended, be it that process or a later one
    launched under the same id; the other handlers stay.  The monitor is told
    of the end, and the fatal-error callback is called exactly when waiting
    for the process returned an error, with the info of the process marked
    FAILED with [internal error] and the reading of the clock as update and
    end time. *)
Theorem awaitCleanup_removes_by_id (s : ProcessManager) (h : process)
    (waited : option error) (now : Z) :
  let s' := awaitCleanup s h waited now in
  let id := req_EgressId (req h) in
  getGRPCClient s' id = Err ErrEgressNotFound
  /\ (forall other, other <> id -> getGRPCClient s' other = getGRPCClient s other)
  /\ egressStarted s' = egressStarted s
  /\ egressEnded s' = egressEnded s ++ [id]
  /\ fatalErrors s'
     = fatalErrors s
       ++ match waited with
          | Some _ => [internalError now (info h)]
          | None => []
          end
  /\ Status (internalError now (info h)) = EGRESS_FAILED
  /\ Error (internalError now (info h)) = "internal error"
  /\ UpdatedAt (internalError now (info h)) = now
  /\ EndedAt (internalError now (info h)) = now.
Proof.
  cbv zeta. unfold awaitCleanup, getGRPCClient.
  destruct waited as [e|]; cbn; rewrite lookup_delete_eq, ?app_nil_r;
    (split; [reflexivity|]);
    (split; [intros other Hother; rewrite lookup_delete_ne by congruence;
             reflexivity|]);
    repeat split.
Qed.

(** X27. A handler that is launched under an id that is not in use and
    whose process then ends leaves the manager with the handlers it had
    before: the launch and the cleanup cancel, and a manager that was idle is
    idle again. *)
Theorem launch_then_cleanup (s s' : ProcessManager) (request : StartEgressRequest)
    (i : EgressInfo) (version : Z) (h : process) (waited : option error) (now : Z) :
  activeHandlers s !! req_EgressId request = None ->
  launchHandler s request i version = (s', None) ->
  activeHandlers s' !! req_EgressId request = Some h ->
  req h = request /\ info h = i /\ handlerID h = NewGuid "EGH_"
  /\ activeHandlers (awaitCleanup s' h waited now) = activeHandlers s
  /\ isIdle (awaitCleanup s' h waited now) = isIdle s.
Proof.
  unfold launchHandler. intros Hfree Hlaunch Hh.
  destruct (yamlMarshal _ _ _) as [confString|?]; [|discriminate].
  destruct (protojsonMarshal request) as [reqString|?]; [|discriminate].
  destruct (cmdStart _ _ _); [discriminate|].
  destruct (grpcDial _); [discriminate|]. injection Hlaunch as <-.
  cbn in Hh. rewrite lookup_insert_eq in Hh. injection Hh as <-.
  cbn [req info handlerID]. repeat split.
  - unfold awaitCleanup. destruct waited; cbn;
      rewrite delete_insert_eq; apply delete_id; assumption.
  - unfold isIdle, awaitCleanup. destruct waited; cbn;
      rewrite delete_insert_eq, delete_id by assumption; reflexivity.
Qed.

End Managing.

Section ManagingExamples.
Import GoStrings GoPath Types Errors Go Config Samples Notions Service Manager.

Lemma launchHandler_registers_witness :
  getGRPCClient
    (@launchHandler (sampleLauncher None) (NewProcessManager (Base emptyConfig))
       (requestOf "EG_1") emptyInfo 1).1 "EG_1"
  = Ok "/tmp/EGH_1/service_rpc.sock"%string.
Proof.
  destruct (@launchHandler_registers (sampleLauncher None)
              (NewProcessManager (Base emptyConfig))
              (@launchHandler (sampleLauncher None)
                 (NewProcessManager (Base emptyConfig))
                 (requestOf "EG_1") emptyInfo 1).1
              (requestOf "EG_1") emptyInfo 1 eq_refl) as (Hclient & _).
  exact Hclient.
Defined.

Lemma launchHandler_failure_witness :
  let s' := (@launchHandler (sampleLauncher (Some (External "connection refused")))
               (NewProcessManager (Base emptyConfig))
               (requestOf "EG_1") emptyInfo 1).1 in
  activeHandlers s' = ∅ /\ egressStarted s' = ["EG_1"%string] /\ egressEnded s' = [].
Proof.
  cbv zeta.
  destruct (@launchHandler_failure (sampleLauncher (Some (External "connection refused")))
              (NewProcessManager (Base emptyConfig))
              (@launchHandler (sampleLauncher (Some (External "connection refused")))
                 (NewProcessManager (Base emptyConfig))
                 (requestOf "EG_1") emptyInfo 1).1
              (requestOf "EG_1") emptyInfo 1 (External "connection refused") eq_refl)
    as (Hactive & Hended & _ & [Hsame|[Hstarted _]]).
  - exfalso. apply (f_equal egressStarted) in Hsame. discriminate Hsame.
  - split; [exact Hactive|]. split; [exact Hstarted|exact Hended].
Defined.

Lemma launch_then_cleanup_witness :
  isIdle
    (awaitCleanup
       (@launchHandler (sampleLauncher None) (NewProcessManager (Base emptyConfig))
          (requestOf "EG_1") emptyInfo 1).1
       {| handlerID := "EGH_1"; req := requestOf "EG_1"; info := emptyInfo;
          client := "/tmp/EGH_1/service_rpc.sock"; closed := false |}
       (Some (External "exit status 1")) 9)
  = true.
Proof.
  destruct (@launch_then_cleanup (sampleLauncher None)
              (NewProcessManager (Base emptyConfig))
              (@launchHandler (sampleLauncher None)
                 (NewProcessManager (Base emptyConfig))
                 (requestOf "EG_1") emptyInfo 1).1
              (requestOf "EG_1") emptyInfo 1
              {| handlerID := "EGH_1"; req := requestOf "EG_1"; info := emptyInfo;
                 client := "/tmp/EGH_1/service_rpc.sock"; closed := false |}
              (Some (External "exit status 1")) 9 eq_refl eq_refl eq_refl)
    as (_ & _ & _ & _ & Hidle).
  rewrite Hidle. reflexivity.
Defined.

End ManagingExamples.

(** *** File outputs of a request *)

Section RequestedFiles.
Import GoStrings GoPath GoTime Types Errors Go Config ConfigRest Samples.
Context `{Tables} `{Runtime} `{Ranging}.

Lemma updateFilepath_manifest (o : FileConfig) p identifier replacements now :
  DisableManifest (updateFilepath o p identifier replacements now).1
  = DisableManifest o.
Proof.
  unfold updateFilepath. cbn [withStorageFilepath withFilename StorageFilepath
    fileOutputConfig UploadConfig].
  destruct (Split _) as [dir filename].
  destruct (UploadConfig o).
  - destruct (MkdirAll _); reflexivity.
  - destruct (if negb (String.eqb dir "") then MkdirAll dir else None); reflexivity.
Qed.

(** X28. A file output of a request whose type is left open, or that is
    the direct output of a track, is configured without an error and without
    a directory being made: its type is unknown, its storage path is the
    cleaned path of the request with the templates replaced, and neither the
    local path nor the filename of the file info is set.  A file output
    whose type is MP4 or OGG, when it is configured without an error, has
    that type and a storage path that ends with the extension of the type,
    and keeps the manifest switch of the request. *)
Theorem getEncodedFileConfig_types (p : PipelineConfig) (file : fileOutput)
    (now now' : Time) :
  getEncodedFileConfig p DEFAULT_FILETYPE file now now'
  = getDirectFileConfig p file now now'
  /\ (exists conf,
        getDirectFileConfig p file now now' = Ok conf
        /\ OutputType_ (fileOutputConfig conf) = OutputTypeUnknownFile
        /\ StorageFilepath conf
           = stringReplace (clean (GetFilepath file))
               (visitReplacements (getFilenameInfo p now).2)
        /\ LocalFilepath conf = "" /\ Filename (FileInfo_ conf) = "")
  /\ (forall fileType conf,
        fileType <> DEFAULT_FILETYPE ->
        getEncodedFileConfig p fileType file now now' = Ok conf ->
        OutputType_ (fileOutputConfig conf)
        = match fileType with MP4 => OutputTypeMP4 | _ => OutputTypeOGG end
        /\ HasSuffix (StorageFilepath conf)
             (FileExtensionForOutputType (OutputType_ (fileOutputConfig conf))) = true
        /\ DisableManifest conf = GetDisableManifest file).
Proof.
  split; [reflexivity|]. split.
  - unfold getDirectFileConfig, getFileConfig.
    destruct (getFilenameInfo p now) as [identifier replacements]. cbn.
    eexists. split; [reflexivity|]. repeat split.
  - intros fileType conf Htype. unfold getEncodedFileConfig, getFileConfig.
    destruct (getFilenameInfo p now) as [identifier replacements].
    cbn [fileOutputConfig OutputType_].
    set (ot := match fileType with
               | DEFAULT_FILETYPE => OutputTypeUnknownFile
               | MP4 => OutputTypeMP4
               | OGG => OutputTypeOGG
               end).
    assert (Hot : ot <> OutputTypeUnknownFile)
      by (subst ot; destruct fileType; congruence).
    rewrite (bool_decide_eq_false_2 _ Hot). cbn [negb].
    match goal with
    | |- context [updateFilepath ?c p identifier ?r now'] =>
        pose proof (updateFilepath_type c p identifier r now') as Ht;
        pose proof (updateFilepath_suffix c p identifier r now') as Hs;
        pose proof (updateFilepath_manifest c p identifier r now') as Hm;
        destruct (updateFilepath c p identifier r now') as [conf' [err|]]
    end; [discriminate|].
    intros [= <-]. cbn [fst] in Ht, Hs, Hm. rewrite Ht. cbn in *.
    split; [subst ot; destruct fileType; congruence|]. split; assumption.
Qed.

End RequestedFiles.

(** *** Web requests *)

Section WebRequests.
Import GoStrings GoTime Types Errors Go Config Samples.
Context `{Tables} `{Runtime} `{Ranging} `{Validation}.

(** X29. A web request needs no connection info: [Update] reads neither
    the token nor the websocket URL of such a request, so two web requests
    that differ in those two fields only leave the same configuration and
    return the same error. *)
Theorem Update_web_needs_no_connection (p : PipelineConfig)
    (request request' : StartEgressRequest) (web : WebEgressRequest)
    (now nowInfo nowPath : Time) :
  req_Request request = Web web ->
  req_Request request' = Web web ->
  req_EgressId request' = req_EgressId request ->
  req_RoomId request' = req_RoomId request ->
  Update p request' now nowInfo nowPath = Update p request now nowInfo nowPath.
Proof.
  intros Hweb Hweb' Hid Hroom. unfold Update, startingInfo.
  rewrite Hweb, Hweb', Hid, Hroom.
  destruct (String.eqb (req_EgressId request) ""); [reflexivity|].
  unfold requestCase.
  destruct (notHttp (web_Url web)); [reflexivity|].
  unfold encodedCase.
  destruct (negb _ && negb _); [reflexivity|].
  destruct (applyOptions _ _) as [q [err|]]; [reflexivity|].
  destruct (updateEncodedOutputs _ _) as [q' [err|]]; reflexivity.
Qed.

End WebRequests.

Section WebRequestsExamples.
Import GoStrings GoTime Types Errors Go Config Samples Notions.

Lemma Update_web_needs_no_connection_witness :
  let web := {| web_Url := "https://example.com/page"; web_AwaitStartSignal := false;
                web_AudioOnly := false; web_VideoOnly := false;
                web_Options := NoOptions;
                web_Outputs := {| FileOutputs := []; StreamOutputs := [];
                                  SegmentOutputs := [] |} |} in
  @Update sampleTables sampleRuntime inOrder
    (@sampleValidation sampleTables sampleRuntime inOrder noon noon) emptyConfig
    {| req_EgressId := "EG_1"; req_RoomId := "RM_1"; req_Token := "secret";
       req_WsUrl := "wss://example.com"; req_Request := Web web |} noon noon noon
  = @Update sampleTables sampleRuntime inOrder
      (@sampleValidation sampleTables sampleRuntime inOrder noon noon) emptyConfig
      {| req_EgressId := "EG_1"; req_RoomId := "RM_1"; req_Token := "";
         req_WsUrl := ""; req_Request := Web web |} noon noon noon.
Proof.
  intros web.
  apply (@Update_web_needs_no_connection sampleTables sampleRuntime inOrder
           (@sampleValidation sampleTables sampleRuntime inOrder noon noon)
           emptyConfig
           {| req_EgressId := "EG_1"; req_RoomId := "RM_1"; req_Token := "";
              req_WsUrl := ""; req_Request := Web web |}
           {| req_EgressId := "EG_1"; req_RoomId := "RM_1"; req_Token := "secret";
              req_WsUrl := "wss://example.com"; req_Request := Web web |}
           web noon noon noon); reflexivity.
Defined.

End WebRequestsExamples.
